(** * linkhound: the crawl engine of [app.py], embedded and verified

    The development follows [src/app.py] (class [WebsiteAnalyzer] and the
    query routes).  Python values are modelled as follows:

    - [str] is [string], the UTF-8 encoding of the text: the substring
      tests and [replace] are the same on the encoding, [str.split] and
      [str.strip] go by the characters of [str.isspace], and [str.lower]
      is a parameter, the class [StrLower];
    - [int] is [Z];
    - [set] of URLs is [gset string], the [defaultdict(list)] of the
      aggregate is [gmap string (list agg_item)];
    - Python lists are lists; a [Counter] is an association list kept in
      insertion order (the order [dict] iterates in);
    - the collaborators ([requests], [BeautifulSoup], Selenium, [urljoin])
      are parameters of a section: functions from the request to what the
      collaborator answers, an exception being a value of the answer type;
    - [datetime.now()] stamps are left out of the records. *)

From Stdlib Require Import String Ascii ZArith List Bool Lia Sorted Permutation.
From stdpp Require Import gmap strings list sorting.

Local Open Scope string_scope.
Local Open Scope list_scope.

(* ===================================================================== *)
(** * Python string primitives *)
(* ===================================================================== *)

Module Py.

Definition code (c : ascii) : nat := nat_of_ascii c.

Definition is_upper (c : ascii) : bool := (65 <=? code c)%nat && (code c <=? 90)%nat.
Definition is_lower (c : ascii) : bool := (97 <=? code c)%nat && (code c <=? 122)%nat.
Definition is_digit (c : ascii) : bool := (48 <=? code c)%nat && (code c <=? 57)%nat.
Definition is_alpha (c : ascii) : bool := is_upper c || is_lower c.

Definition lower_char (c : ascii) : ascii :=
  if is_upper c then ascii_of_nat (code c + 32) else c.

(** [s.lower()] for a text of ASCII characters *)
Fixpoint lower_ascii (s : string) : string :=
  match s with
  | EmptyString => EmptyString
  | String c s' => String (lower_char c) (lower_ascii s')
  end.

(** [s.startswith(p)] *)
Definition startswith (s p : string) : bool := String.prefix p s.

(** [s.startswith((p1, p2, ...))] *)
Definition startswith_any (s : string) (ps : list string) : bool :=
  existsb (startswith s) ps.

(** [sub in s] *)
Fixpoint contains (s sub : string) : bool :=
  String.prefix sub s ||
  match s with
  | EmptyString => false
  | String _ s' => contains s' sub
  end.

(** some character of [s] satisfies [p]; [c in s] is [has (Ascii.eqb c) s] *)
Fixpoint has (p : ascii -> bool) (s : string) : bool :=
  match s with
  | EmptyString => false
  | String c s' => p c || has p s'
  end.

Fixpoint all (p : ascii -> bool) (s : string) : bool :=
  match s with
  | EmptyString => true
  | String c s' => p c && all p s'
  end.

(** the longest prefix without a [p]-character, and what follows it *)
Fixpoint break (p : ascii -> bool) (s : string) : string * string :=
  match s with
  | EmptyString => (EmptyString, EmptyString)
  | String c s' =>
      if p c then (EmptyString, s)
      else let '(a, b) := break p s' in (String c a, b)
  end.

(** [s.split(c, 1)] when [c in s]: the text before the first [c] and the
    text after it *)
Definition split1 (c : ascii) (s : string) : string * string :=
  let '(a, b) := break (Ascii.eqb c) s in
  match b with
  | EmptyString => (a, EmptyString)
  | String _ b' => (a, b')
  end.

(** [s[n:]] *)
Fixpoint drop (n : nat) (s : string) : string :=
  match n, s with
  | O, _ => s
  | S _, EmptyString => EmptyString
  | S n', String _ s' => drop n' s'
  end.

(** [s.lstrip(chars)] with the character class given as a predicate *)
Fixpoint lstrip_with (p : ascii -> bool) (s : string) : string :=
  match s with
  | EmptyString => EmptyString
  | String c s' => if p c then lstrip_with p s' else s
  end.

Fixpoint rev_onto (s acc : string) : string :=
  match s with
  | EmptyString => acc
  | String c s' => rev_onto s' (String c acc)
  end.

Definition rev (s : string) : string := rev_onto s EmptyString.

(** ** Characters

    The bytes [10xxxxxx] continue a character; every other byte begins
    one. *)
Definition is_continuation (c : ascii) : bool :=
  (128 <=? code c)%nat && (code c <? 192)%nat.

(** the characters of a text, each one the string of its bytes *)
Fixpoint chars (s : string) : list string :=
  match s with
  | EmptyString => []
  | String c s' =>
      match s' with
      | EmptyString => [String c EmptyString]
      | String d _ =>
          if is_continuation d
          then match chars s' with
               | ch :: l => String c ch :: l
               | [] => [String c EmptyString]
               end
          else String c EmptyString :: chars s'
      end
  end.

(** [''.join(l)] *)
Definition join (l : list string) : string := fold_right String.append EmptyString l.

Definition of_codes (l : list nat) : string :=
  string_of_list_ascii (map ascii_of_nat l).

(** the characters of [str.isspace]: TAB, LF, VT, FF, CR, FS, GS, RS, US,
    SPACE, U+0085, U+00A0, U+1680, U+2000 to U+200A, U+2028, U+2029,
    U+202F, U+205F and U+3000 *)
Definition whitespace : list string :=
  map of_codes
    [[9]; [10]; [11]; [12]; [13]; [28]; [29]; [30]; [31]; [32];
     [194; 133]; [194; 160]; [225; 154; 128];
     [226; 128; 128]; [226; 128; 129]; [226; 128; 130]; [226; 128; 131];
     [226; 128; 132]; [226; 128; 133]; [226; 128; 134]; [226; 128; 135];
     [226; 128; 136]; [226; 128; 137]; [226; 128; 138];
     [226; 128; 168]; [226; 128; 169]; [226; 128; 175]; [226; 129; 159];
     [227; 128; 128]].

(** [ch.isspace()] for one character *)
Definition is_space (ch : string) : bool := existsb (String.eqb ch) whitespace.

(** a list without its leading whitespace characters *)
Fixpoint lstrip_chars (l : list string) : list string :=
  match l with
  | [] => []
  | ch :: l' => if is_space ch then lstrip_chars l' else l
  end.

(** [s.strip()] *)
Definition strip (s : string) : string :=
  join (List.rev (lstrip_chars (List.rev (lstrip_chars (chars s))))).

(** [s.endswith(p)] *)
Definition endswith (s p : string) : bool := String.prefix (rev p) (rev s).

(** characters of [s] for which [p] fails: [s.replace(c, "")] for one
    character [c] is [remove (Ascii.eqb c) s] *)
Fixpoint remove (p : ascii -> bool) (s : string) : string :=
  match s with
  | EmptyString => EmptyString
  | String c s' => if p c then remove p s' else String c (remove p s')
  end.

(** [s.replace(old, "")] for a non-empty [old]: the occurrences of [old]
    are found from the left and do not overlap.  [skip] counts the
    characters of the current occurrence still to be dropped. *)
Fixpoint delete_from (old : string) (skip : nat) (s : string) : string :=
  match s with
  | EmptyString => EmptyString
  | String c s' =>
      match skip with
      | S k => delete_from old k s'
      | O =>
          if String.prefix old s
          then delete_from old (String.length old - 1) s'
          else String c (delete_from old O s')
      end
  end.

Definition delete_all (s old : string) : string := delete_from old O s.

(** [s.split()]: the maximal runs of characters that are no whitespace.
    [cur] is the word being read. *)
Fixpoint split_chars (cur : string) (l : list string) : list string :=
  match l with
  | [] =>
      match cur with EmptyString => [] | _ => [cur] end
  | ch :: l' =>
      if is_space ch
      then match cur with
           | EmptyString => split_chars EmptyString l'
           | _ => cur :: split_chars EmptyString l'
           end
      else split_chars (cur +:+ ch) l'
  end.

Definition split (s : string) : list string := split_chars EmptyString (chars s).

(** truthiness of a [str] *)
Definition nonempty (s : string) : bool :=
  match s with EmptyString => false | _ => true end.

End Py.

(** the interpreter's [str.lower]: it follows the Unicode case tables,
    which are not embedded; on a text of ASCII characters it turns the
    letters [A] to [Z] into [a] to [z] and keeps the rest *)
Class StrLower := {
  str_lower : string -> string;
  str_lower_ascii s :
    Py.all (fun c => (Py.code c <? 128)%nat) s = true ->
    str_lower s = Py.lower_ascii s
}.

(* ===================================================================== *)
(** * [urllib.parse]: the functions [app.py] imports *)
(* ===================================================================== *)

(** [urlsplit], [urlparse], [urlunsplit], [urlunparse] and [urldefrag] as
    CPython's [Lib/urllib/parse.py] computes them on [str] arguments with
    the default [scheme=''] and [allow_fragments=True].  The checks of the
    network location that raise [ValueError] (unbalanced or ill-formed
    IPv6 brackets, the NFKC check) differ between interpreter versions and
    are the parameter [netloc_ok]; [None] stands for the raised
    [ValueError]. *)

Module UrlParse.

Import Py.

Definition uses_netloc : list string :=
  [""; "ftp"; "http"; "gopher"; "nntp"; "telnet"; "imap"; "wais"; "file";
   "mms"; "https"; "shttp"; "snews"; "prospero"; "rtsp"; "rtspu"; "rsync";
   "svn"; "svn+ssh"; "sftp"; "nfs"; "git"; "git+ssh"; "ws"; "wss"].

Definition uses_params : list string :=
  [""; "ftp"; "hdl"; "prospero"; "http"; "imap"; "https"; "shttp"; "rtsp";
   "rtspu"; "sip"; "sips"; "mms"; "sftp"; "tel"].

Definition str_in_list (s : string) (l : list string) : bool :=
  existsb (String.eqb s) l.

(** [scheme_chars]: letters, digits, [+], [-], [.] *)
Definition is_scheme_char (c : ascii) : bool :=
  is_alpha c || is_digit c ||
  Ascii.eqb c "+" || Ascii.eqb c "-" || Ascii.eqb c ".".

(** [_WHATWG_C0_CONTROL_OR_SPACE]: the characters up to [0x20] *)
Definition is_c0_or_space (c : ascii) : bool := (code c <=? 32)%nat.

(** [_UNSAFE_URL_BYTES_TO_REMOVE]: TAB, CR, LF *)
Definition is_unsafe (c : ascii) : bool :=
  (code c =? 9)%nat || (code c =? 13)%nat || (code c =? 10)%nat.

(** the delimiters [_splitnetloc] looks for *)
Definition is_netloc_delim (c : ascii) : bool :=
  Ascii.eqb c "/" || Ascii.eqb c "?" || Ascii.eqb c "#".

Record SplitResult := mkSplit {
  s_scheme : string; s_netloc : string; s_path : string;
  s_query : string; s_fragment : string }.

Record ParseResult := mkParse {
  scheme : string; netloc : string; path : string;
  params : string; query : string; fragment : string }.

(** the scheme of [urlsplit]: [i = url.find(':')], taken when [i > 0], the
    first character is an ASCII letter and [url[:i]] has only scheme
    characters; [url[:i].lower()] is then the lower case of an ASCII text *)
Definition split_scheme (url : string) : string * string :=
  let '(pre, rest) := break (Ascii.eqb ":") url in
  match pre, rest with
  | String c0 _, String _ rest' =>
      if is_alpha c0 && all is_scheme_char pre then (lower_ascii pre, rest')
      else (EmptyString, url)
  | _, _ => (EmptyString, url)
  end.

(** [_splitnetloc(url, 2)] *)
Definition splitnetloc2 (url : string) : string * string :=
  break is_netloc_delim (drop 2 url).

(** [_splitparams]: the first [;] of the last path segment *)
Fixpoint splitparams (url : string) : string * option string :=
  match url with
  | EmptyString => (EmptyString, None)
  | String c url' =>
      if has (Ascii.eqb "/") url' then
        let '(a, b) := splitparams url' in (String c a, b)
      else if Ascii.eqb c "/" then
        if has (Ascii.eqb ";") url'
        then let '(a, b) := split1 ";" url' in (String c a, Some b)
        else (url, None)
      else
        if has (Ascii.eqb ";") url
        then let '(a, b) := split1 ";" url in (a, Some b)
        else (url, None)
  end.

Section Parse.

(** the interpreter's validation of a network location; [false] raises
    [ValueError] *)
Variable netloc_ok : string -> bool.

Definition urlsplit (url0 : string) : option SplitResult :=
  let url := remove is_unsafe (lstrip_with is_c0_or_space url0) in
  let '(sch, url) := split_scheme url in
  let '(nl, url, ok) :=
    if startswith url "//"
    then let '(n, u) := splitnetloc2 url in (n, u, netloc_ok n)
    else (EmptyString, url, true) in
  if ok then
    let '(url, frag) :=
      if has (Ascii.eqb "#") url then split1 "#" url else (url, EmptyString) in
    let '(url, qry) :=
      if has (Ascii.eqb "?") url then split1 "?" url else (url, EmptyString) in
    Some (mkSplit sch nl url qry frag)
  else None.

Definition urlparse (url : string) : option ParseResult :=
  match urlsplit url with
  | None => None
  | Some r =>
      let '(url, prm) :=
        if str_in_list (s_scheme r) uses_params && has (Ascii.eqb ";") (s_path r)
        then match splitparams (s_path r) with
             | (u, Some p) => (u, p)
             | (u, None) => (u, EmptyString)
             end
        else (s_path r, EmptyString) in
      Some (mkParse (s_scheme r) (s_netloc r) url prm (s_query r) (s_fragment r))
  end.

Definition urlunsplit (r : SplitResult) : string :=
  let url := s_path r in
  let url :=
    if nonempty (s_netloc r) ||
       (nonempty (s_scheme r) && str_in_list (s_scheme r) uses_netloc
        && negb (startswith url "//"))
    then
      let url := if nonempty url && negb (startswith url "/")
                 then "/" +:+ url else url in
      "//" +:+ s_netloc r +:+ url
    else url in
  let url := if nonempty (s_scheme r) then s_scheme r +:+ ":" +:+ url else url in
  let url := if nonempty (s_query r) then url +:+ "?" +:+ s_query r else url in
  let url := if nonempty (s_fragment r) then url +:+ "#" +:+ s_fragment r else url in
  url.

Definition urlunparse (r : ParseResult) : string :=
  let url := if nonempty (params r) then path r +:+ ";" +:+ params r else path r in
  urlunsplit (mkSplit (scheme r) (netloc r) url (query r) (fragment r)).

(** [urldefrag(url)[0]] *)
Definition urldefrag (url : string) : option string :=
  if has (Ascii.eqb "#") url then
    match urlparse url with
    | None => None
    | Some r =>
        Some (urlunparse
                (mkParse (scheme r) (netloc r) (path r) (params r) (query r)
                         EmptyString))
    end
  else Some url.

End Parse.

(** the check every interpreter version makes: a [[] without a []] (or
    the converse) in the network location is [ValueError("Invalid IPv6
    URL")] *)
Definition brackets_balanced (nl : string) : bool :=
  negb ((has (Ascii.eqb "[") nl && negb (has (Ascii.eqb "]") nl)) ||
        (has (Ascii.eqb "]") nl && negb (has (Ascii.eqb "[") nl))).

End UrlParse.

(* ===================================================================== *)
(** * Data of the analyzer *)
(* ===================================================================== *)

(** A parsed element ([bs4.Tag]): its attribute dictionary, and for a link
    what [get_text(strip=True)], [find('img')] and [str(link)] give. *)
Record img_tag := mkImg { img_attrs : list (string * string) }.

Record a_tag := mkA {
  tag_attrs : list (string * string);   (* link.attrs *)
  tag_text : string;                    (* link.get_text(strip=True) *)
  tag_img : option img_tag;             (* link.find('img') *)
  tag_str : string                      (* str(link) *)
}.

(** [attrs.get(key, default)] *)
Fixpoint attr_get (attrs : list (string * string)) (key default : string) : string :=
  match attrs with
  | [] => default
  | (k, v) :: rest => if String.eqb k key then v else attr_get rest key default
  end.

(** an entry of [status_codes]: an HTTP status, or the string ['ERROR'] *)
Inductive status_code :=
  | Status (code : Z)
  | ERROR.

(** the [requests.Response] of [session.head]: the hops followed, each
    with its status and URL, then the final URL and status *)
Record head_response := mkHead {
  history : list (Z * string);
  head_url : string;
  head_status : Z
}.

(** the [requests.Response] of [session.get] *)
Record get_response := mkGet {
  raise_for_status : option string;     (* raise_for_status(): [Some e] is
                                           the [HTTPError] it raises, with
                                           [str(e) = e] *)
  get_content_type : option string;     (* headers['content-type'] *)
  get_text : string                     (* response.text *)
}.

(** the dictionary [check_redirect_chain] returns *)
Record redirect_info := mkRedirectInfo {
  is_redirect : bool;
  original_url : string;
  final_url : string;
  redirect_count : Z;
  status_codes : list status_code;
  redirect_chain : list string;
  error : option string
}.

(** an element of [anchor_tags] *)
Record anchor_data := mkAnchor {
  a_id : Z;
  a_page_url : string;
  a_page_depth : Z;
  a_original_href : string;
  a_absolute_url : string;
  a_anchor_text : string;
  a_anchor_text_type : string;
  a_is_internal : bool;
  a_redirect_info : option redirect_info;
  a_extraction_method : string;
  a_anchor_index_on_page : Z;
  a_full_tag : string;
  a_attributes : list (string * string)
}.

(** an element of [redirect_links] *)
Record redirect_link := mkRedirectLink {
  rl_page_containing_link : string;
  rl_link_text : string;
  rl_original_url : string;
  rl_final_url : string;
  rl_redirect_count : Z;
  rl_redirect_chain : list string;
  rl_status_codes : list status_code;
  rl_full_tag : string;
  rl_page_depth : Z
}.

(** an element of a list of [anchor_text_analysis] *)
Record agg_item := mkItem {
  text : string;
  text_type : string;
  source_page : string;
  item_is_redirect : bool
}.

(** the attributes of a [WebsiteAnalyzer]; [selenium_driver] records
    whether a driver object is held *)
Record analyzer := mkAnalyzer {
  base_url : string;
  domain : string;
  visited_urls : gset string;
  urls_to_visit : list (string * Z);
  anchor_tags : list anchor_data;
  redirect_links : list redirect_link;
  anchor_text_analysis : gmap string (list agg_item);
  max_pages : Z;
  max_depth : Z;
  crawl_complete : bool;
  selenium_driver : bool;
  selenium_threshold : Z
}.

Definition set_visited_urls (v : gset string) (st : analyzer) : analyzer :=
  mkAnalyzer (base_url st) (domain st) v (urls_to_visit st) (anchor_tags st)
    (redirect_links st) (anchor_text_analysis st) (max_pages st) (max_depth st)
    (crawl_complete st) (selenium_driver st) (selenium_threshold st).

Definition set_urls_to_visit (q : list (string * Z)) (st : analyzer) : analyzer :=
  mkAnalyzer (base_url st) (domain st) (visited_urls st) q (anchor_tags st)
    (redirect_links st) (anchor_text_analysis st) (max_pages st) (max_depth st)
    (crawl_complete st) (selenium_driver st) (selenium_threshold st).

Definition set_anchor_tags (l : list anchor_data) (st : analyzer) : analyzer :=
  mkAnalyzer (base_url st) (domain st) (visited_urls st) (urls_to_visit st) l
    (redirect_links st) (anchor_text_analysis st) (max_pages st) (max_depth st)
    (crawl_complete st) (selenium_driver st) (selenium_threshold st).

Definition set_redirect_links (l : list redirect_link) (st : analyzer) : analyzer :=
  mkAnalyzer (base_url st) (domain st) (visited_urls st) (urls_to_visit st)
    (anchor_tags st) l (anchor_text_analysis st) (max_pages st) (max_depth st)
    (crawl_complete st) (selenium_driver st) (selenium_threshold st).

Definition set_anchor_text_analysis (m : gmap string (list agg_item))
    (st : analyzer) : analyzer :=
  mkAnalyzer (base_url st) (domain st) (visited_urls st) (urls_to_visit st)
    (anchor_tags st) (redirect_links st) m (max_pages st) (max_depth st)
    (crawl_complete st) (selenium_driver st) (selenium_threshold st).

Definition set_crawl_complete (b : bool) (st : analyzer) : analyzer :=
  mkAnalyzer (base_url st) (domain st) (visited_urls st) (urls_to_visit st)
    (anchor_tags st) (redirect_links st) (anchor_text_analysis st) (max_pages st)
    (max_depth st) b (selenium_driver st) (selenium_threshold st).

Definition set_selenium_driver (b : bool) (st : analyzer) : analyzer :=
  mkAnalyzer (base_url st) (domain st) (visited_urls st) (urls_to_visit st)
    (anchor_tags st) (redirect_links st) (anchor_text_analysis st) (max_pages st)
    (max_depth st) (crawl_complete st) b (selenium_threshold st).

(** [len(l)] as a Python [int] *)
Definition len {A} (l : list A) : Z := Z.of_nat (length l).

(** [d[k]] on a [defaultdict(list)] that holds [k] or not *)
Definition bucket (m : gmap string (list agg_item)) (k : string) : list agg_item :=
  default [] (m !! k).

(* ===================================================================== *)
(** * Methods that touch no collaborator *)
(* ===================================================================== *)

Section Pure.

Import Py.

Context {py_lower : StrLower}.
Variable netloc_ok : string -> bool.

(** [WebsiteAnalyzer._clean_url]; [None] is the [ValueError] of
    [urldefrag] *)
Definition _clean_url (url : string) : option string :=
  let url :=
    if negb (startswith_any url ["http://"; "https://"])
    then "https://" +:+ url else url in
  UrlParse.urldefrag netloc_ok url.

Definition skip_extensions : list string :=
  [".jpg"; ".jpeg"; ".png"; ".gif"; ".pdf"; ".zip";
   ".css"; ".js"; ".ico"; ".svg"; ".woff"; ".woff2"].

(** [WebsiteAnalyzer.is_valid_internal_url]; the bare [except] turns the
    [ValueError] of [urlparse] into [False] *)
Definition is_valid_internal_url (st : analyzer) (url : string) : bool :=
  match UrlParse.urlparse netloc_ok url with
  | None => false
  | Some parsed =>
      if negb (String.eqb (UrlParse.netloc parsed) (domain st)) then false
      else if existsb (endswith (str_lower (UrlParse.path parsed))) skip_extensions
      then false
      else true
  end.

(** the display form of an href in [_extract_anchor_text]: every
    ["http://"], then every ["https://"], then every ["www."] is deleted,
    and one trailing slash is dropped *)
Definition naked_label (href : string) : string :=
  let clean_url :=
    delete_all (delete_all (delete_all href "http://") "https://") "www." in
  if endswith clean_url "/"
  then rev (drop 1 (rev clean_url))
  else clean_url.

(** [WebsiteAnalyzer._extract_anchor_text] *)
Definition _extract_anchor_text (link : a_tag) : string :=
  let text := tag_text link in
  if nonempty text then text
  else
    match tag_img link with
    | Some img =>
        let alt_text := strip (attr_get (img_attrs img) "alt" "") in
        if nonempty alt_text
        then "[Image: " +:+ alt_text +:+ "]"
        else "[Image with missing alt text]"
    | None =>
        let href := attr_get (tag_attrs link) "href" "" in
        if nonempty href
        then "[Naked URL: " +:+ naked_label href +:+ "]"
        else "[Empty link]"
    end.

(** [WebsiteAnalyzer._classify_anchor_text]; the [link] argument, an
    element or [None], is not looked at *)
Definition _classify_anchor_text (text : string) (link : option a_tag) : string :=
  let text_lower := str_lower text in
  if startswith text "[Image" then "image"
  else if startswith text "[Naked URL" then "naked_url"
  else if startswith text "[Empty" then "empty"
  else if existsb (contains text_lower)
            ["click here"; "read more"; "learn more"; "see more"]
  then "generic"
  else if (8 <? len (split text))%Z then "long_descriptive"
  else if (len (split text) <=? 2)%Z then "short"
  else "descriptive".

(** [WebsiteAnalyzer.__init__]; [None] when [_clean_url] or [urlparse]
    raises *)
Definition init (url : string) (maxp maxd threshold : Z) : option analyzer :=
  match _clean_url url with
  | None => None
  | Some base =>
      match UrlParse.urlparse netloc_ok base with
      | None => None
      | Some parsed =>
          Some (mkAnalyzer base (UrlParse.netloc parsed) ∅ [(base, 0%Z)] [] [] ∅
                  maxp maxd false false threshold)
      end
  end.

End Pure.

(* ===================================================================== *)
(** * Methods that mutate the analyzer *)
(* ===================================================================== *)

(** A method either returns or raises, and in both cases leaves the
    analyzer as it had mutated it so far. *)
Inductive outcome (A : Type) :=
  | Ok (a : A)
  | Raised (e : string).
Arguments Ok {A} a.
Arguments Raised {A} e.

Definition M (A : Type) : Type := analyzer -> outcome A * analyzer.

Definition ret {A} (a : A) : M A := fun st => (Ok a, st).
Definition raise {A} (e : string) : M A := fun st => (Raised e, st).
Definition bind {A B} (c : M A) (k : A -> M B) : M B :=
  fun st =>
    match c st with
    | (Ok a, st') => k a st'
    | (Raised e, st') => (Raised e, st')
    end.
Definition modify (f : analyzer -> analyzer) : M unit := fun st => (Ok tt, f st).

Notation "x <~ c ;; k" := (bind c (fun x => k))
  (at level 100, c at next level, right associativity).

(** the second component of what [should_use_selenium] returns *)
Inductive selenium_reason :=
  | NotAvailable
  | LowLinkCount (n : Z)
  | SpaIndicators
  | StandardSufficient.

(** the message [crawl_page] returns next to its success flag *)
Inductive crawl_message :=
  | NonHtml (content_type : string)
  | SeleniumFound (n : Z)
  | RequestsFound (n : Z)
  | CrawlError (e : string).

(** what an attempt to start Chrome ends in: the driver is returned; or
    [webdriver.Chrome] returns, so that the driver is assigned, and
    [set_page_load_timeout] raises; or the driver manager or
    [webdriver.Chrome] raises *)
Inductive launch :=
  | Started
  | Unconfigured
  | NotStarted.

Section Crawl.

Import Py.

(** ** The collaborators *)

Context {py_lower : StrLower}.
Variable netloc_ok : string -> bool.
(** the module flag set by the optional import *)
Variable SELENIUM_AVAILABLE : bool.
(** [session.head(url, allow_redirects=True, timeout=10)]; [inl e] is an
    exception with [str(e) = e] *)
Variable session_head : string -> string + head_response.
(** [session.get(url, timeout=15)] *)
Variable session_get : string -> string + get_response.
(** [BeautifulSoup(html, 'lxml')], the removal of [script] and [style],
    then [find_all('a', href=True)] *)
Variable soup_links : string -> list a_tag.
(** [urljoin(base, href)]; [inl e] is its [ValueError], with
    [str(e) = e] *)
Variable urljoin : string -> string -> string + string.
(** what the attempt to start Chrome ends in when it is made in the
    given state of the analyzer (a run makes each attempt in a state of
    its own: the attempts of one run are not tied to one another) *)
Variable chrome_launch : analyzer -> launch.
(** [driver.get(url)], the wait for [body], then [driver.page_source];
    [None] is any exception on the way *)
Variable driver_page_source : string -> option string.
(** whether [driver.quit()] returns *)
Variable driver_quit_ok : bool.

(** ** [check_redirect_chain] *)

Definition check_redirect_chain (url : string) : redirect_info :=
  match session_head url with
  | inr response =>
      let redirect_count := len (history response) in
      if (0 <? redirect_count)%Z then
        mkRedirectInfo true url (head_url response) redirect_count
          (map (fun r => Status (fst r)) (history response)
             ++ [Status (head_status response)])
          (map snd (history response) ++ [head_url response])
          None
      else
        mkRedirectInfo false url url 0
          [Status (head_status response)] [url] None
  | inl e =>
      mkRedirectInfo false url url 0 [ERROR] [url] (Some e)
  end.

(** ** [extract_anchor_data] *)

(** [redirect_info['final_url'] if redirect_info else absolute_url] *)
Definition final_of (redirect_info : option redirect_info) (absolute_url : string)
    : string :=
  match redirect_info with
  | Some ri => final_url ri
  | None => absolute_url
  end.

(** [self.anchor_text_analysis[k].append(item)] *)
Definition agg_append (k : string) (item : agg_item)
    (m : gmap string (list agg_item)) : gmap string (list agg_item) :=
  <[k := bucket m k ++ [item]]> m.

(** "Store redirect information": a record for a link that redirects *)
Definition store_redirect (page_url anchor_text : string) (depth : Z)
    (link : a_tag) (redirect_info : option redirect_info) (st : analyzer)
    : analyzer :=
  match redirect_info with
  | Some ri =>
      if is_redirect ri then
        set_redirect_links
          (redirect_links st ++
           [mkRedirectLink page_url anchor_text (original_url ri)
              (final_url ri) (redirect_count ri) (redirect_chain ri)
              (status_codes ri) (tag_str link) depth]) st
      else st
  | None => st
  end.

(** "Build anchor text analysis (for internal links)" *)
Definition build_analysis (page_url anchor_text : string) (link : a_tag)
    (is_internal : bool) (redirect_info : option redirect_info)
    (absolute_url : string) (st : analyzer) : analyzer :=
  if is_internal then
    set_anchor_text_analysis
      (agg_append (final_of redirect_info absolute_url)
         (mkItem anchor_text
            (_classify_anchor_text anchor_text (Some link))
            page_url
            (match redirect_info with
             | Some ri => is_redirect ri
             | None => false
             end))
         (anchor_text_analysis st)) st
  else st.

(** "Add to crawl queue if internal and not visited" *)
Definition add_to_queue (depth : Z) (is_internal : bool)
    (redirect_info : option redirect_info) (absolute_url : string)
    (st : analyzer) : analyzer :=
  if is_internal && (depth <? max_depth st)%Z then
    let final := final_of redirect_info absolute_url in
    if negb (bool_decide (final ∈ visited_urls st))
       && (len (urls_to_visit st) <? max_pages st)%Z
    then set_urls_to_visit (urls_to_visit st ++ [(final, (depth + 1)%Z)]) st
    else st
  else st.

(** one turn of the loop over [enumerate(links)]; [page_anchors] is the
    local list, returned with the new record appended *)
Definition extract_link (page_url : string) (depth : Z) (method : string)
    (index : nat) (link : a_tag) (page_anchors : list anchor_data)
    : M (list anchor_data) :=
  fun st =>
  let href := strip (attr_get (tag_attrs link) "href" "") in
  if negb (nonempty href) || startswith_any href ["javascript:"; "tel:"]
  then (Ok page_anchors, st)
  else
    let anchor_text := _extract_anchor_text link in
    match urljoin page_url href with
    | inl e => (Raised e, st)
    | inr absolute_url =>
        let is_internal := is_valid_internal_url netloc_ok st absolute_url in
        let redirect_info :=
          if is_internal then Some (check_redirect_chain absolute_url) else None in
        let anchor :=
          mkAnchor (len (anchor_tags st) + len page_anchors + 1)
            page_url depth href absolute_url anchor_text
            (_classify_anchor_text anchor_text (Some link))
            is_internal redirect_info method (Z.of_nat index + 1)
            (tag_str link) (tag_attrs link) in
        let page_anchors := page_anchors ++ [anchor] in
        let st := store_redirect page_url anchor_text depth link redirect_info st in
        let st :=
          build_analysis page_url anchor_text link is_internal redirect_info
            absolute_url st in
        let st := add_to_queue depth is_internal redirect_info absolute_url st in
        (Ok page_anchors, st)
    end.

Fixpoint extract_loop (page_url : string) (depth : Z) (method : string)
    (index : nat) (links : list a_tag) (page_anchors : list anchor_data)
    : M (list anchor_data) :=
  match links with
  | [] => ret page_anchors
  | link :: rest =>
      pa <~ extract_link page_url depth method index link page_anchors ;;
      extract_loop page_url depth method (S index) rest pa
  end.

Definition extract_anchor_data (html_content page_url : string) (depth : Z)
    (method : string) : M (list anchor_data) :=
  page_anchors <~
    extract_loop page_url depth method O (soup_links html_content) [] ;;
  _ <~ modify (fun st => set_anchor_tags (anchor_tags st ++ page_anchors) st) ;;
  ret page_anchors.

(** ** The rendering fallback *)

Definition spa_indicators : list string :=
  ["react"; "angular"; "vue.js"; "data-reactroot"; "ng-app"].

Definition should_use_selenium (st : analyzer) (url response_text : string)
    (initial_link_count : Z) : bool * selenium_reason :=
  if negb SELENIUM_AVAILABLE then (false, NotAvailable)
  else if (initial_link_count <? selenium_threshold st)%Z
  then (true, LowLinkCount initial_link_count)
  else if existsb (contains (str_lower response_text)) spa_indicators
  then (true, SpaIndicators)
  else (false, StandardSufficient).

(** [_setup_selenium_driver]; the result tells whether a driver is
    returned *)
Definition _setup_selenium_driver (st : analyzer) : bool * analyzer :=
  if negb SELENIUM_AVAILABLE || selenium_driver st
  then (selenium_driver st, st)
  else
    match chrome_launch st with
    | Started => (true, set_selenium_driver true st)
    | Unconfigured => (false, set_selenium_driver true st)
    | NotStarted => (false, st)
    end.

(** [_cleanup_selenium]; when [quit] raises the driver stays set *)
Definition _cleanup_selenium (st : analyzer) : analyzer :=
  if selenium_driver st
  then if driver_quit_ok then set_selenium_driver false st else st
  else st.

Definition extract_anchor_data_selenium (url : string) (depth : Z)
    (st : analyzer) : list anchor_data * analyzer :=
  let '(driver, st) := _setup_selenium_driver st in
  if negb driver then ([], st)
  else
    match driver_page_source url with
    | None => ([], st)
    | Some page_source =>
        match extract_anchor_data page_source url depth "selenium" st with
        | (Ok anchors, st') => (anchors, st')
        | (Raised _, st') => ([], st')
        end
    end.

(** the purge of [crawl_page] (the three statements after "Remove initial
    anchors"): the page's records leave [anchor_tags] and
    [redirect_links], and every list of the aggregate is filtered; no key
    is deleted *)
Definition purge_page (url : string) (st : analyzer) : analyzer :=
  let st :=
    set_anchor_tags
      (filter (fun a => a_page_url a ≠ url) (anchor_tags st)) st in
  let st :=
    set_redirect_links
      (filter (fun r => rl_page_containing_link r ≠ url) (redirect_links st)) st in
  set_anchor_text_analysis
    (filter (fun item => source_page item ≠ url) <$> anchor_text_analysis st) st.

(** ** [crawl_page] *)

Definition crawl_page (url : string) (depth : Z) (st : analyzer)
    : (bool * crawl_message) * analyzer :=
  match session_get url with
  | inl e => ((false, CrawlError e), st)
  | inr response =>
      match raise_for_status response with
      | Some e => ((false, CrawlError e), st)
      | None =>
        let content_type := str_lower (default "" (get_content_type response)) in
        if negb (contains content_type "text/html")
        then ((false, NonHtml content_type), st)
        else
          match extract_anchor_data (get_text response) url depth "requests" st with
          | (Raised e, st) => ((false, CrawlError e), st)
          | (Ok initial_anchors, st) =>
              let initial_count := len initial_anchors in
              let '(use_selenium, _) :=
                should_use_selenium st url (get_text response) initial_count in
              if use_selenium then
                let st := purge_page url st in
                let '(selenium_anchors, st) :=
                  extract_anchor_data_selenium url depth st in
                ((true, SeleniumFound (len selenium_anchors)), st)
              else ((true, RequestsFound initial_count), st)
          end
      end
  end.

(** ** [start_analysis] *)

(** One turn of the [while] loop on the analyzer and the local
    [crawled_count]; [None] when the loop condition fails. *)
Definition loop_turn (st : analyzer) (crawled_count : Z) : option (analyzer * Z) :=
  match urls_to_visit st with
  | [] => None
  | (url, depth) :: rest =>
      if (crawled_count <? max_pages st)%Z then
        let st := set_urls_to_visit rest st in       (* pop(0) *)
        if bool_decide (url ∈ visited_urls st) || (max_depth st <? depth)%Z
        then Some (st, crawled_count)                (* continue *)
        else
          let st := set_visited_urls ({[url]} ∪ visited_urls st) st in
          let '((success, _), st) := crawl_page url depth st in
          Some (st, if success then (crawled_count + 1)%Z else crawled_count)
      else None
  end.

(** [n] turns of the loop, or fewer when it ends before *)
Fixpoint turns (n : nat) (st : analyzer) (crawled_count : Z) : analyzer * Z :=
  match n with
  | O => (st, crawled_count)
  | S n' =>
      match loop_turn st crawled_count with
      | None => (st, crawled_count)
      | Some (st', c') => turns n' st' c'
      end
  end.

(** the whole loop; [None] when [fuel] turns do not end it *)
Fixpoint crawl_loop (fuel : nat) (st : analyzer) (crawled_count : Z)
    : option (analyzer * Z) :=
  match loop_turn st crawled_count with
  | None => Some (st, crawled_count)
  | Some (st', c') =>
      match fuel with
      | O => None
      | S fuel' => crawl_loop fuel' st' c'
      end
  end.

Definition start_analysis (fuel : nat) (st : analyzer) : option analyzer :=
  match crawl_loop fuel st 0%Z with
  | None => None
  | Some (st, _) => Some (set_crawl_complete true (_cleanup_selenium st))
  end.

End Crawl.

(* ===================================================================== *)
(** * Queries *)
(* ===================================================================== *)

(** ** Dictionaries that are iterated: association lists in insertion
    order *)

Section Dict.

Context {V : Type}.

Fixpoint dict_get (d : list (string * V)) (k : string) : option V :=
  match d with
  | [] => None
  | (k', v) :: d' => if String.eqb k' k then Some v else dict_get d' k
  end.

(** [d[k] = f(d.get(k))]: an existing key keeps its place, a new key goes
    last *)
Fixpoint dict_upd (k : string) (f : option V -> V) (d : list (string * V))
    : list (string * V) :=
  match d with
  | [] => [(k, f None)]
  | (k', v) :: d' =>
      if String.eqb k' k then (k', f (Some v)) :: d'
      else (k', v) :: dict_upd k f d'
  end.

End Dict.

(** ** [sorted]: a stable sort, here by insertion.  [le x y] tells that
    [x] may stand before [y]; an element is put before the first element
    it may stand before, so equal elements keep their order. *)

Section Sort.

Context {A : Type} (le : A -> A -> bool).

Fixpoint insert_sorted (x : A) (l : list A) : list A :=
  match l with
  | [] => [x]
  | y :: l' => if le x y then x :: l else y :: insert_sorted x l'
  end.

Definition sort_by (l : list A) : list A := foldr insert_sorted [] l.

End Sort.

(** [Counter.most_common()]: [sorted(items, key=count, reverse=True)] *)
Definition most_common (c : list (string * Z)) : list (string * Z) :=
  sort_by (fun x y => (snd y <=? snd x)%Z) c.

(** a value of [text_details] *)
Record text_detail := mkDetail {
  d_count : Z;
  d_text_type : string;
  d_source_pages : gset string;
  d_has_redirects : bool
}.

(** the [defaultdict] factory of [text_details] *)
Definition new_detail : text_detail := mkDetail 0 "" ∅ false.

Record breakdown_entry := mkEntry {
  b_anchor_text : string;
  b_count : Z;
  b_text_type : string;
  b_source_pages_count : Z;
  b_source_pages : list string;
  b_has_redirects : bool
}.

Record report := mkReport {
  target_url : string;
  total_links_found : Z;
  unique_anchor_texts : Z;
  anchor_text_breakdown : list breakdown_entry
}.

Section Queries.

Context {py_lower : StrLower}.
Variable netloc_ok : string -> bool.

(** [matching_data] of [get_anchor_text_report_for_url], for the cleaned
    target *)
Definition matching_data (st : analyzer) (target : string) : list agg_item :=
  bucket (anchor_text_analysis st) target ++
  map (fun r =>
         mkItem (rl_link_text r) (_classify_anchor_text (rl_link_text r) None)
           (rl_page_containing_link r) true)
      (filter (fun r => rl_final_url r = target) (redirect_links st)).

(** [text_counter[text] += 1] *)
Definition count_item (c : list (string * Z)) (item : agg_item) : list (string * Z) :=
  dict_upd (text item) (fun o => (default 0 o + 1)%Z) c.

(** the four updates of [text_details[text]] *)
Definition detail_item (d : list (string * text_detail)) (item : agg_item)
    : list (string * text_detail) :=
  dict_upd (text item)
    (fun o =>
       let old := default new_detail o in
       mkDetail (d_count old + 1) (text_type item)
         ({[source_page item]} ∪ d_source_pages old)
         (if item_is_redirect item then true else d_has_redirects old))
    d.

Definition text_counter (md : list agg_item) : list (string * Z) :=
  foldl count_item [] md.

Definition text_details (md : list agg_item) : list (string * text_detail) :=
  foldl detail_item [] md.

(** [sum(text_counter.values())] *)
Definition sum_values (c : list (string * Z)) : Z :=
  foldr (fun kv acc => (snd kv + acc)%Z) 0%Z c.

Definition breakdown (md : list agg_item) : list breakdown_entry :=
  map (fun tc =>
         let details := default new_detail (dict_get (text_details md) (fst tc)) in
         mkEntry (fst tc) (snd tc) (d_text_type details)
           (Z.of_nat (size (d_source_pages details)))
           (take 5 (elements (d_source_pages details)))
           (d_has_redirects details))
      (most_common (text_counter md)).

(** [get_anchor_text_report_for_url]: [None] is the [ValueError] of
    [_clean_url], [Some None] the returned [None] *)
Definition get_anchor_text_report_for_url (st : analyzer) (target_url : string)
    : option (option report) :=
  match _clean_url netloc_ok target_url with
  | None => None
  | Some target_url =>
      let md := matching_data st target_url in
      match md with
      | [] => Some None
      | _ =>
          Some (Some (mkReport target_url (sum_values (text_counter md))
                        (len (text_counter md)) (breakdown md)))
      end
  end.

End Queries.

(** what the route [/get_all_urls] answers once the crawl is complete:
    the sorted keys of the aggregate and their number; [None] is the 400
    answer *)
Definition get_all_urls (current_analyzer : option analyzer)
    : option (list string * Z) :=
  match current_analyzer with
  | None => None
  | Some st =>
      if negb (crawl_complete st) then None
      else
        let urls := sort_by String.leb (elements (dom (anchor_text_analysis st))) in
        Some (urls, len urls)
  end.

(** the counters of the route [/analysis_status] *)
Record status := mkStatus {
  pages_analyzed : Z;
  total_anchors : Z;
  status_redirect_links : Z;
  unique_urls_with_anchors : Z;
  complete : bool
}.

Definition analysis_status (current_analyzer : option analyzer) : option status :=
  match current_analyzer with
  | None => None
  | Some st =>
      Some (mkStatus (Z.of_nat (size (visited_urls st)))
              (len (anchor_tags st)) (len (redirect_links st))
              (Z.of_nat (size (anchor_text_analysis st)))
              (crawl_complete st))
  end.

(* ===================================================================== *)
(** * A small site, to run the analyzer on *)
(* ===================================================================== *)

Module Site.

(** the texts of the site are ASCII: this is [str.lower] on them *)
Definition lower : StrLower :=
  {| str_lower := Py.lower_ascii; str_lower_ascii := fun s _ => eq_refl |}.

#[local] Existing Instance lower.

(** every href of the site is an absolute path *)
Definition urljoin (base href : string) : string + string :=
  inr ("https://a.com" +:+ href).

(** [/old] answers 301 to [/new]; nothing else redirects *)
Definition session_head (url : string) : string + head_response :=
  if String.eqb url "https://a.com/old"
  then inr (mkHead [(301%Z, "https://a.com/old")] "https://a.com/new" 200)
  else inr (mkHead [] url 200).

(** the answer while the server refuses [HEAD] requests *)
Definition session_head_down (url : string) : string + head_response :=
  inl "ConnectionError".

(** [/report] is served as PDF, every other page as HTML whose body is
    its own URL *)
Definition session_get (url : string) : string + get_response :=
  if String.eqb url "https://a.com/report"
  then inr (mkGet None (Some "application/pdf") "")
  else inr (mkGet None (Some "text/html; charset=utf-8") url).

Definition link (href txt : string) : a_tag :=
  mkA [("href", href)] txt None ("<a href=" +:+ href +:+ ">" +:+ txt +:+ "</a>").

(** the seed page links to [/b] and to [/old], the page [/b] to [/c] and
    to [/d]; the other pages have no links *)
Definition soup_links (html : string) : list a_tag :=
  if String.eqb html "https://a.com"
  then [link "/b" "Click here"; link "/old" "Old page"]
  else if String.eqb html "https://a.com/b"
  then [link "/c" "Read the documentation of the crawler"; link "/d" "Contact"]
  else [].

(** the analyzer of a run on the seed [a.com] *)
Definition seed (maxp maxd threshold : Z) : analyzer :=
  mkAnalyzer "https://a.com" "a.com" ∅ [("https://a.com", 0%Z)] [] [] ∅
    maxp maxd false false threshold.

(** the analyzer of a run on the seed [a.com/report] *)
Definition seed_report (maxp maxd threshold : Z) : analyzer :=
  mkAnalyzer "https://a.com/report" "a.com" ∅ [("https://a.com/report", 0%Z)]
    [] [] ∅ maxp maxd false false threshold.

(** one turn of the loop when Selenium is not installed *)
Definition turn_plain : analyzer -> Z -> option (analyzer * Z) :=
  loop_turn UrlParse.brackets_balanced false session_head session_get
    soup_links urljoin (fun _ => NotStarted) (fun _ => None).

(** turns of the loop when Selenium is not installed *)
Definition turns_plain : nat -> analyzer -> Z -> analyzer * Z :=
  turns UrlParse.brackets_balanced false session_head session_get
    soup_links urljoin (fun _ => NotStarted) (fun _ => None).

(** [crawl_page] when Selenium is installed and Chrome does not start *)
Definition crawl_no_chrome : string -> Z -> analyzer -> (bool * crawl_message) * analyzer :=
  crawl_page UrlParse.brackets_balanced true session_head session_get
    soup_links urljoin (fun _ => NotStarted) (fun _ => None).

(** what Selenium gives for every page, and the one link [/b] of that
    rendering *)
Definition driver_page_source (url : string) : option string := Some "rendered".

Definition soup_links_rendered (html : string) : list a_tag :=
  if String.eqb html "rendered" then [link "/b" "Rendered"] else soup_links html.

(** [crawl_page] when Selenium renders the pages *)
Definition crawl_rendered : string -> Z -> analyzer -> (bool * crawl_message) * analyzer :=
  crawl_page UrlParse.brackets_balanced true session_head session_get
    soup_links_rendered urljoin (fun _ => Started) driver_page_source.

(** the analyzer after the first turn of a run without Selenium *)
Definition crawled : analyzer := fst (turns_plain 1 (seed 10 3 5) 0).

(** an aggregate with six links to [/x]: the texts [b] and [a] twice,
    [c] and [d] once, [b] met first *)
Definition sample_items : list agg_item :=
  [ mkItem "b" "short" "https://a.com/p1" false;
    mkItem "a" "short" "https://a.com/p2" true;
    mkItem "b" "short" "https://a.com/p3" false;
    mkItem "c" "short" "https://a.com/p1" false;
    mkItem "a" "short" "https://a.com/p1" false;
    mkItem "d" "short" "https://a.com/p4" false ].

Definition sample : analyzer :=
  set_anchor_text_analysis {[ "https://a.com/x" := sample_items ]} (seed 10 3 5).

(** the URLs of a frontier *)
Definition urls_of (q : list (string * Z)) : gset string :=
  list_to_set (map fst q).

(** three words held apart by U+00A0, and their lowercase *)
Definition nbsp : string := Py.of_codes [194; 160].
Definition three_words : string := "Read" +:+ nbsp +:+ "the" +:+ nbsp +:+ "docs".
Definition three_words_lower : string :=
  "read" +:+ nbsp +:+ "the" +:+ nbsp +:+ "docs".

End Site.

(* ===================================================================== *)
(** * Definitions that follow the specification's words *)
(* ===================================================================== *)

(** the whitespace-delimited words of a sequence of characters, counted
    by their first characters: a character that is no whitespace and
    stands at the start or behind a whitespace character *)
Fixpoint word_starts (behind_space : bool) (l : list string) : nat :=
  match l with
  | [] => O
  | ch :: l' =>
      if Py.is_space ch then word_starts true l'
      else ((if behind_space then 1 else 0) + word_starts false l')%nat
  end.

Definition word_count (t : string) : nat := word_starts true (Py.chars t).

(** The classification of section 4.3 as an ordered rule table: a text
    gets the label of the first rule that matches it, and [descriptive]
    when none does. *)
Definition spec_rules {py_lower : StrLower} : list ((string -> bool) * string) :=
  [ (fun t => Py.startswith t "[Image", "image");
    (fun t => Py.startswith t "[Naked URL", "naked_url");
    (fun t => Py.startswith t "[Empty", "empty");
    (fun t => existsb (Py.contains (str_lower t))
                ["click here"; "read more"; "learn more"; "see more"],
     "generic");
    (fun t => (8 <? word_count t)%nat, "long_descriptive");
    (fun t => (word_count t <=? 2)%nat, "short") ].

Fixpoint first_match (rules : list ((string -> bool) * string)) (t : string)
    : string :=
  match rules with
  | [] => "descriptive"
  | (applies, label) :: rest => if applies t then label else first_match rest t
  end.

Definition spec_classify {py_lower : StrLower} (t : string) : string :=
  first_match spec_rules t.

(** [r] is [s] without the occurrences of the non-empty text [old], which
    are found from the left and do not overlap: [s.replace(old, '')] *)
Inductive deleted (old : string) : string -> string -> Prop :=
  | deleted_end : deleted old "" ""
  | deleted_here s r :
      deleted old s r -> deleted old (old +:+ s) r
  | deleted_next c s r :
      String.prefix old (String c s) = false ->
      deleted old s r -> deleted old (String c s) (String c r).

(** the label of a naked URL as section 4.3 words it: the href stripped
    of scheme and [www.], read as the href without its occurrences of
    [http://], [https://] and [www.] *)
Definition spec_naked_label (href : string) : string :=
  Py.delete_all (Py.delete_all (Py.delete_all href "http://") "https://") "www.".

(** the precedence of section 4.3 *)
Definition spec_anchor_text (link : a_tag) : string :=
  if Py.nonempty (tag_text link) then tag_text link
  else
    match tag_img link with
    | Some img =>
        let alt := Py.strip (attr_get (img_attrs img) "alt" "") in
        if Py.nonempty alt then "[Image: " +:+ alt +:+ "]"
        else "[Image with missing alt text]"
    | None =>
        let href := attr_get (tag_attrs link) "href" "" in
        if Py.nonempty href then "[Naked URL: " +:+ spec_naked_label href +:+ "]"
        else "[Empty link]"
    end.

(** the place where a text is first encountered in a sequence of texts *)
Fixpoint first_index (t : string) (l : list string) : nat :=
  match l with
  | [] => O
  | x :: l' => if String.eqb x t then O else S (first_index t l')
  end.

(** how often a text occurs in a sequence of texts *)
Definition occurrences (t : string) (l : list string) : Z :=
  len (filter (fun x => x = t) l).

(** the order of section 4.6 on two entries of a breakdown of the texts
    [texts]: descending count, ties by first encounter *)
Definition breakdown_order (texts : list string) (e1 e2 : breakdown_entry) : Prop :=
  (b_count e2 < b_count e1)%Z ∨
  (b_count e1 = b_count e2 ∧
   (first_index (b_anchor_text e1) texts < first_index (b_anchor_text e2) texts)%nat).

(** the URLs that stand in the frontier at the start of one of the first
    [n] turns of a crawl or after the last of them: a URL is enqueued
    during a turn and is still in the frontier when the turn ends *)
Fixpoint seen_urls (turn : analyzer -> Z -> option (analyzer * Z)) (n : nat)
    (st : analyzer) (crawled_count : Z) : gset string :=
  Site.urls_of (urls_to_visit st) ∪
  match n with
  | O => ∅
  | S n' =>
      match turn st crawled_count with
      | None => ∅
      | Some (st', c') => seen_urls turn n' st' c'
      end
  end.

(* ===================================================================== *)
(** * Relations and invariants of the proofs *)
(* ===================================================================== *)

(** the attributes no method of the crawl assigns after [__init__] *)
Definition same_config (st st' : analyzer) : Prop :=
  base_url st' = base_url st ∧ domain st' = domain st
  ∧ visited_urls st' = visited_urls st
  ∧ max_pages st' = max_pages st ∧ max_depth st' = max_depth st
  ∧ crawl_complete st' = crawl_complete st
  ∧ selenium_threshold st' = selenium_threshold st.

(** the frontier gets entries at its end only, each one level below a
    page of depth [depth < max_depth], and an entry is added only to a
    frontier shorter than [max_pages] *)
Definition frontier_grows (depth : Z) (st st' : analyzer) : Prop :=
  ∃ new,
    urls_to_visit st' = urls_to_visit st ++ new
    ∧ Forall (fun e => snd e = (depth + 1)%Z ∧ (depth < max_depth st)%Z) new
    ∧ (len (urls_to_visit st') ≤ Z.max (len (urls_to_visit st)) (max_pages st))%Z.

(** the three collections get records of the page [page] only, at their
    end, and the aggregate loses no key *)
Definition records_grow (page method : string) (st st' : analyzer) : Prop :=
  (∃ new, anchor_tags st' = anchor_tags st ++ new
          ∧ Forall (fun a => a_page_url a = page ∧ a_extraction_method a = method) new)
  ∧ (∃ new, redirect_links st' = redirect_links st ++ new
            ∧ Forall (fun r => rl_page_containing_link r = page) new)
  ∧ dom (anchor_text_analysis st) ⊆ dom (anchor_text_analysis st')
  ∧ (∀ k, ∃ new,
        bucket (anchor_text_analysis st') k = bucket (anchor_text_analysis st) k ++ new
        ∧ Forall (fun item => source_page item = page) new).

(** what an extraction of the page [page], at depth [depth] and with the
    method [method], does to the analyzer, whether it returns or raises *)
Definition grows (page : string) (depth : Z) (method : string)
    (st st' : analyzer) : Prop :=
  same_config st st' ∧ frontier_grows depth st st' ∧ records_grow page method st st'.

(** what every step of the crawl respects: the configuration, the
    growth of the frontier, the keys of the aggregate *)
Definition evolves (depth : Z) (st st' : analyzer) : Prop :=
  same_config st st' ∧ frontier_grows depth st st'
  ∧ dom (anchor_text_analysis st) ⊆ dom (anchor_text_analysis st').

(** the bounds the frontier respects at every turn *)
Definition frontier_ok (st : analyzer) : Prop :=
  (len (urls_to_visit st) ≤ Z.max 1 (max_pages st))%Z
  ∧ Forall (fun e => (0 ≤ snd e ≤ Z.max 0 (max_depth st))%Z) (urls_to_visit st).

(** the order of a list sorted stably by descending [key]: larger keys
    first and, among equal keys, the order [B] of the unsorted list *)
Definition stable_order {A : Type} (key : A -> Z) (B : A -> A -> Prop)
    (x y : A) : Prop :=
  (key y < key x)%Z ∨ (key x = key y ∧ B x y).

(** the keys of a dictionary after one more text *)
Definition add_key (ks : list string) (t : string) : list string :=
  if decide (t ∈ ks) then ks else ks ++ [t].

(** the keys of a counter of the texts [texts]: each text once, in the
    order of first encounter *)
Definition keys_of (texts ks : list string) : Prop :=
  NoDup ks ∧ (∀ k, k ∈ ks ↔ k ∈ texts)
  ∧ StronglySorted (fun a b => (first_index a texts < first_index b texts)%nat) ks.

(* ===================================================================== *)
(** * Definitions of the further properties *)
(* ===================================================================== *)

(** the sum of the counts of a breakdown *)
Definition sum_counts (l : list breakdown_entry) : Z :=
  foldr (fun e acc => (b_count e + acc)%Z) 0%Z l.

(** [link.get('href', '').strip()] *)
Definition stripped_href (link : a_tag) : string :=
  Py.strip (attr_get (tag_attrs link) "href" "").

(** the links the loop of [extract_anchor_data] does not skip *)
Definition usable_link (link : a_tag) : bool :=
  Py.nonempty (stripped_href link)
  && negb (Py.startswith_any (stripped_href link) ["javascript:"; "tel:"]).

(** [enumerate(links)], counted from [i] *)
Fixpoint enumerate_from {A : Type} (i : nat) (l : list A) : list (nat * A) :=
  match l with
  | [] => []
  | x :: l' => (i, x) :: enumerate_from (S i) l'
  end.

(** the position, markup and href a record takes from its link *)
Definition link_stamp (il : nat * a_tag) : Z * string * string :=
  ((Z.of_nat (fst il) + 1)%Z, tag_str (snd il), stripped_href (snd il)).

Definition record_stamp (a : anchor_data) : Z * string * string :=
  (a_anchor_index_on_page a, a_full_tag a, a_original_href a).

(** the identifiers [n + 1], [n + 2], ... of [k] records *)
Definition ids_after (n : Z) (k : nat) : list Z :=
  map (fun j => (n + Z.of_nat j + 1)%Z) (seq 0 k).

(** what a record says about its link, on the page [page] *)
Definition record_of {py_lower : StrLower} (netloc_ok : string -> bool)
    (session_head : string -> string + head_response)
    (urljoin : string -> string -> string + string)
    (st : analyzer) (page : string) (depth : Z) (method : string)
    (a : anchor_data) : Prop :=
  a_page_url a = page ∧ a_page_depth a = depth ∧ a_extraction_method a = method
  ∧ urljoin page (a_original_href a) = inr (a_absolute_url a)
  ∧ a_is_internal a = is_valid_internal_url netloc_ok st (a_absolute_url a)
  ∧ a_redirect_info a =
      (if a_is_internal a
       then Some (check_redirect_chain session_head (a_absolute_url a))
       else None)
  ∧ a_anchor_text_type a = _classify_anchor_text (a_anchor_text a) None
  ∧ a_anchor_text a ≠ "".

(** every record of the three collections names a page of the set [V] *)
Definition pages_in (V : gset string) (st : analyzer) : Prop :=
  Forall (fun a => a_page_url a ∈ V) (anchor_tags st)
  ∧ Forall (fun r => rl_page_containing_link r ∈ V) (redirect_links st)
  ∧ ∀ k item, item ∈ bucket (anchor_text_analysis st) k → source_page item ∈ V.

(** the records of [anchor_tags] are numbered 1, 2, ... in their order *)
Definition numbered (st : analyzer) : Prop :=
  map a_id (anchor_tags st) = ids_after 0 (length (anchor_tags st)).

(** the records of one page are of one extraction method *)
Definition one_method (st : analyzer) : Prop :=
  ∀ a b, a ∈ anchor_tags st → b ∈ anchor_tags st →
         a_page_url a = a_page_url b →
         a_extraction_method a = a_extraction_method b.

Definition records_ok (st : analyzer) : Prop :=
  pages_in (visited_urls st) st ∧ numbered st ∧ one_method st.

(** the turns a frontier entry can cost: an entry of depth [d] is
    popped, and its page gives at most [max_pages] entries of depth
    [d + 1], none when [d] is [max_depth] or more *)
Definition entry_weight (maxp maxd : Z) (e : string * Z) : nat :=
  (S (Z.to_nat maxp) ^ Z.to_nat (maxd - snd e + 1))%nat.

(** a number of turns after which the loop of [start_analysis] has ended *)
Definition crawl_fuel (st : analyzer) : nat :=
  list_sum (map (entry_weight (max_pages st) (max_depth st)) (urls_to_visit st)).

(** the element of [redirect_links] the loop of [extract_anchor_data]
    stores beside an anchor record, if any *)
Definition redirect_of (a : anchor_data) : option redirect_link :=
  match a_redirect_info a with
  | Some ri =>
      if is_redirect ri
      then Some (mkRedirectLink (a_page_url a) (a_anchor_text a)
                   (original_url ri) (final_url ri) (redirect_count ri)
                   (redirect_chain ri) (status_codes ri) (a_full_tag a)
                   (a_page_depth a))
      else None
  | None => None
  end.

(** the key of the aggregate an anchor record is filed under *)
Definition target_of (a : anchor_data) : string :=
  final_of (a_redirect_info a) (a_absolute_url a).

(** the element the loop appends to the list of the key [t] beside an
    anchor record, if any *)
Definition item_of (t : string) (a : anchor_data) : option agg_item :=
  if a_is_internal a && String.eqb (target_of a) t
  then Some (mkItem (a_anchor_text a) (a_anchor_text_type a) (a_page_url a)
               (match a_redirect_info a with
                | Some ri => is_redirect ri
                | None => false
                end))
  else None.

(** [redirect_links] and every list of the aggregate hold what the
    records of [anchor_tags] give, in their order *)
Definition views (st : analyzer) : Prop :=
  redirect_links st = omap redirect_of (anchor_tags st)
  ∧ ∀ t, bucket (anchor_text_analysis st) t = omap (item_of t) (anchor_tags st).

(** the markup [crawl_page] hands to the loop over the links for the
    page [url]: the text of the response, or the source of the rendering *)
Definition served (session_get : string -> string + get_response)
    (driver_page_source : string -> option string) (url html : string) : Prop :=
  (∃ response, session_get url = inr response ∧ get_text response = html)
  ∨ driver_page_source url = Some html.

(** [urljoin] returns for every link of the markup [html] of the page
    [url] that the loop over the links does not skip *)
Definition joins (soup_links : string -> list a_tag)
    (urljoin : string -> string -> string + string) (url html : string) : Prop :=
  Forall (fun link =>
            usable_link link = true →
            ∃ abs, urljoin url (stripped_href link) = inr abs)
    (soup_links html).

Module BrokenSite.

(** [urljoin] raises for the href [//[] (an unclosed bracket in the host)
    and joins the other hrefs as [Site.urljoin] does *)
Definition urljoin (base href : string) : string + string :=
  if String.eqb href "//[" then inl "Invalid IPv6 URL" else Site.urljoin base href.

(** the seed page links to [/old], which redirects, and then has the
    link that cannot be joined *)
Definition soup_links (html : string) : list a_tag :=
  if String.eqb html "https://a.com"
  then [Site.link "/old" "Old page"; Site.link "//[" "Broken"; Site.link "/b" "B"]
  else [].

End BrokenSite.

(** what the crawl does to the driver: one that is held stays held, and
    one is held afterwards only if it was before or [webdriver.Chrome]
    has returned in some attempt *)
Definition driver_step (SELENIUM_AVAILABLE : bool)
    (chrome_launch : analyzer -> launch) (st st' : analyzer) : Prop :=
  (selenium_driver st = true → selenium_driver st' = true)
  ∧ (selenium_driver st' = true →
     selenium_driver st = true
     ∨ (SELENIUM_AVAILABLE = true ∧ ∃ s, chrome_launch s ≠ NotStarted)).

(** no entry of the frontier is above the seed, and no record comes from
    a page below [max_depth] *)
Definition depths_ok (st : analyzer) : Prop :=
  Forall (fun e => (0 ≤ snd e)%Z) (urls_to_visit st)
  ∧ Forall (fun a => (0 ≤ a_page_depth a ≤ max_depth st)%Z) (anchor_tags st).

(* ===================================================================== *)
(** * Facts on the string primitives *)
(* ===================================================================== *)

Section StringFacts.

Import Py.

Lemma append_cons (x : ascii) (a b : string) : String x a +:+ b = String x (a +:+ b).
Proof. reflexivity. Qed.

Lemma append_nil (b : string) : "" +:+ b = b.
Proof. reflexivity. Qed.

Lemma append_assoc (a b c : string) : (a +:+ b) +:+ c = a +:+ (b +:+ c).
Proof.
  induction a as [|x a IH]; [done |].
  rewrite !append_cons. by rewrite IH.
Qed.

Lemma prefix_append (p s : string) : String.prefix p (p +:+ s) = true.
Proof.
  induction p as [|x p IH]; [by destruct s |].
  rewrite append_cons. simpl.
  destruct (ascii_dec x x); [done | congruence].
Qed.

Lemma prefix_split (p s : string) :
  String.prefix p s = true → ∃ r, s = p +:+ r.
Proof.
  revert s. induction p as [|x p IH]; intros s H.
  - by exists s.
  - destruct s as [|y s]; [done |]. simpl in H.
    destruct (ascii_dec x y) as [->|]; [| done].
    destruct (IH _ H) as [r ->]. by exists r.
Qed.

Lemma has_cons p c s : has p (String c s) = p c || has p s.
Proof. reflexivity. Qed.

Lemma has_append p (a b : string) : has p (a +:+ b) = has p a || has p b.
Proof.
  induction a as [|x a IH]; [done |].
  rewrite append_cons. simpl. by rewrite IH, orb_assoc.
Qed.

Lemma break_append p s : fst (break p s) +:+ snd (break p s) = s.
Proof.
  induction s as [|c s IH]; simpl; [done |].
  destruct (p c); simpl; [done |].
  destruct (break p s); simpl in *. by rewrite append_cons, IH.
Qed.

Lemma has_break_fst p q s :
  (∀ c, q c = true → p c = true) → has q (fst (break p s)) = false.
Proof.
  intros Hqp. induction s as [|c s IH]; simpl; [done |].
  destruct (p c) eqn:Hp; simpl; [done |].
  destruct (break p s); simpl in *. rewrite IH, orb_false_r.
  destruct (q c) eqn:Hq; [| done]. rewrite (Hqp _ Hq) in Hp. done.
Qed.

Lemma has_break_mono p q s :
  has q s = false →
  has q (fst (break p s)) = false ∧ has q (snd (break p s)) = false.
Proof.
  intros H. rewrite <- (break_append p s), has_append in H.
  by apply orb_false_iff in H.
Qed.

Lemma has_split1_fst c s : has (Ascii.eqb c) (fst (split1 c s)) = false.
Proof.
  unfold split1.
  pose proof (has_break_fst (Ascii.eqb c) (Ascii.eqb c) s (fun _ H => H)).
  destruct (break (Ascii.eqb c) s) as [a b]; simpl in *. by destruct b.
Qed.

Lemma has_split1_mono c q s :
  has q s = false →
  has q (fst (split1 c s)) = false ∧ has q (snd (split1 c s)) = false.
Proof.
  intros H. unfold split1.
  destruct (has_break_mono (Ascii.eqb c) q s H) as [Ha Hb].
  destruct (break (Ascii.eqb c) s) as [a b]; simpl in *.
  destruct b as [|x b]; simpl in *; [done |].
  apply orb_false_iff in Hb. by destruct Hb.
Qed.

Lemma has_remove_mono p q s : has q s = false → has q (remove p s) = false.
Proof.
  induction s as [|c s IH]; simpl; [done |]. intros H.
  apply orb_false_iff in H as [Hc Hs].
  destruct (p c); simpl; [auto |]. by rewrite Hc, IH.
Qed.

Lemma has_drop_mono n q s : has q s = false → has q (drop n s) = false.
Proof.
  revert s. induction n as [|n IH]; intros s H; destruct s as [|c s]; simpl in *; try done.
  apply orb_false_iff in H as [_ Hs]. by apply IH.
Qed.

Lemma has_lstrip_mono p q s : has q s = false → has q (lstrip_with p s) = false.
Proof.
  induction s as [|c s IH]; simpl; [done |]. intros H.
  destruct (p c); [| done].
  apply orb_false_iff in H as [_ Hs]. by apply IH.
Qed.

End StringFacts.

(* ===================================================================== *)
(** * Facts on [urllib.parse] *)
(* ===================================================================== *)

Section UrlFacts.

Import Py UrlParse.

Variable netloc_ok : string -> bool.

Abbreviation nohash s := (has (Ascii.eqb "#") s = false).

Lemma scheme_char_not_hash c :
  is_scheme_char c = true → Ascii.eqb "#" (lower_char c) = false.
Proof. destruct c as [[] [] [] [] [] [] [] []]; vm_compute; congruence. Qed.

Lemma lower_scheme_nohash pre :
  all is_scheme_char pre = true → nohash (lower_ascii pre).
Proof.
  induction pre as [|c pre IH]; [done |]. intros H.
  cbn [all] in H. apply andb_true_iff in H as [Hc Hp].
  cbn [lower_ascii has]. by rewrite (scheme_char_not_hash _ Hc), IH.
Qed.

Lemma split_scheme_nohash u : nohash (fst (split_scheme u)).
Proof.
  unfold split_scheme. destruct (break (Ascii.eqb ":") u) as [pre rest].
  destruct pre as [|c0 pre]; [done |]. destruct rest as [|c rest]; [done |].
  destruct (is_alpha c0 && all is_scheme_char (String c0 pre)) eqn:H; [| done].
  apply andb_true_iff in H as [_ H]. by apply lower_scheme_nohash.
Qed.

Lemma urlsplit_nohash u r :
  urlsplit netloc_ok u = Some r →
  nohash (s_scheme r) ∧ nohash (s_netloc r) ∧ nohash (s_path r) ∧ nohash (s_query r).
Proof.
  unfold urlsplit. intros H.
  pose proof (split_scheme_nohash (remove is_unsafe (lstrip_with is_c0_or_space u))) as Hs.
  destruct (split_scheme _) as [sch u1]. simpl in Hs.
  set (step := if startswith u1 "//" then _ else _) in H.
  assert (nohash (fst (fst step))) as Hn.
  { subst step. destruct (startswith u1 "//"); [| done].
    unfold splitnetloc2.
    pose proof (has_break_fst is_netloc_delim (Ascii.eqb "#") (drop 2 u1)) as Hb.
    destruct (break is_netloc_delim (drop 2 u1)); simpl.
    apply Hb. intros c Hc. apply Ascii.eqb_eq in Hc as <-. done. }
  destruct step as [[nl u2] ok]. simpl in Hn. destruct ok; [| done].
  set (u3f := if has (Ascii.eqb "#") u2 then _ else _) in H.
  assert (nohash (fst u3f)) as H3.
  { subst u3f. destruct (has (Ascii.eqb "#") u2) eqn:Hh; [| done].
    apply has_split1_fst. }
  destruct u3f as [u3 frag]. simpl in H3.
  set (u4q := if has (Ascii.eqb "?") u3 then _ else _) in H.
  assert (nohash (fst u4q) ∧ nohash (snd u4q)) as [H4 Hq].
  { subst u4q. destruct (has (Ascii.eqb "?") u3); [| done].
    by apply has_split1_mono. }
  destruct u4q as [u4 qry]. simpl in *. by inversion H; subst.
Qed.

Lemma splitparams_nohash p :
  nohash p → nohash (fst (splitparams p)) ∧ nohash (default "" (snd (splitparams p))).
Proof.
  induction p as [|c p IH]; [done |]. intros H.
  rewrite has_cons in H. apply orb_false_iff in H as [Hc Hp].
  cbn [splitparams].
  destruct (has (Ascii.eqb "/") p).
  - destruct (IH Hp) as [Ha Hb]. destruct (splitparams p) as [a b].
    cbn [fst snd] in *. by rewrite has_cons, Hc, Ha.
  - destruct (Ascii.eqb c "/").
    + destruct (has (Ascii.eqb ";") p).
      * destruct (has_split1_mono ";" (Ascii.eqb "#") p Hp) as [Ha Hb].
        destruct (split1 ";" p) as [a b].
        cbn [fst snd default] in *. by rewrite has_cons, Hc, Ha.
      * cbn [fst snd default]. by rewrite has_cons, Hc, Hp.
    + destruct (has (Ascii.eqb ";") (String c p)).
      * assert (nohash (String c p)) as Hcp by (by rewrite has_cons, Hc, Hp).
        destruct (has_split1_mono ";" (Ascii.eqb "#") _ Hcp) as [Ha Hb].
        by destruct (split1 ";" (String c p)) as [a b].
      * cbn [fst snd default]. by rewrite has_cons, Hc, Hp.
Qed.

Lemma urlparse_nohash u r :
  urlparse netloc_ok u = Some r →
  nohash (scheme r) ∧ nohash (netloc r) ∧ nohash (path r) ∧ nohash (params r)
  ∧ nohash (query r).
Proof.
  unfold urlparse. destruct (urlsplit netloc_ok u) as [sr|] eqn:Hs; [| done].
  destruct (urlsplit_nohash _ _ Hs) as (H1 & H2 & H3 & H4).
  set (pp := if _ && _ then _ else _).
  assert (nohash (fst pp) ∧ nohash (snd pp)) as [Ha Hb].
  { subst pp. destruct (_ && _); [| done].
    destruct (splitparams_nohash _ H3) as [Ha Hb].
    by destruct (splitparams (s_path sr)) as [a [b|]]. }
  destruct pp as [a b]. intros [= <-]. done.
Qed.

Lemma urlunsplit_nohash r :
  nohash (s_scheme r) → nohash (s_netloc r) → nohash (s_path r) →
  nohash (s_query r) → s_fragment r = "" → nohash (urlunsplit r).
Proof.
  intros H1 H2 H3 H4 H5. unfold urlunsplit. rewrite H5. cbn [nonempty].
  repeat match goal with
  | |- context [if ?b then _ else _] => destruct b
  end; rewrite ?has_append, ?H1, ?H2, ?H3, ?H4; done.
Qed.

Lemma urldefrag_nohash u v : urldefrag netloc_ok u = Some v → nohash v.
Proof.
  unfold urldefrag. destruct (has (Ascii.eqb "#") u) eqn:Hu; [| by intros [= <-]].
  destruct (urlparse netloc_ok u) as [r|] eqn:Hp; [| done]. intros [= <-].
  destruct (urlparse_nohash _ _ Hp) as (H1 & H2 & H3 & H4 & H5).
  unfold urlunparse. cbn [scheme netloc path params query fragment].
  apply urlunsplit_nohash; cbn [s_scheme s_netloc s_path s_query s_fragment]; try done.
  destruct (nonempty (params r)); rewrite ?has_append, ?H3, ?H4; done.
Qed.

(** a URL that begins with [http://] or [https://] is split with that
    scheme *)
Lemma urlsplit_scheme sch rest r :
  sch = "http" ∨ sch = "https" →
  urlsplit netloc_ok (sch +:+ "://" +:+ rest) = Some r → s_scheme r = sch.
Proof.
  intros Hsch. unfold urlsplit.
  assert (split_scheme (remove is_unsafe (lstrip_with is_c0_or_space
            (sch +:+ "://" +:+ rest)))
          = (sch, "//" +:+ remove is_unsafe rest)) as ->.
  { by destruct Hsch as [-> | ->]. }
  destruct (if startswith _ "//" then _ else _) as [[nl u2] []]; [| done].
  destruct (if has (Ascii.eqb "#") u2 then _ else _) as [u3 frag].
  destruct (if has (Ascii.eqb "?") u3 then _ else _) as [u4 qry].
  by intros [= <-].
Qed.

Lemma urlparse_scheme sch rest r :
  sch = "http" ∨ sch = "https" →
  urlparse netloc_ok (sch +:+ "://" +:+ rest) = Some r → scheme r = sch.
Proof.
  intros Hsch. unfold urlparse.
  destruct (urlsplit netloc_ok _) as [sr|] eqn:Hs; [| done].
  apply urlsplit_scheme in Hs; [| done].
  destruct (if _ && _ then _ else _) as [a b]. by intros [= <-].
Qed.

(** putting the components together again gives the scheme, [://], and
    the rest *)
Lemma urlunsplit_scheme r :
  s_scheme r = "http" ∨ s_scheme r = "https" →
  ∃ w, urlunsplit r = s_scheme r +:+ "://" +:+ w.
Proof.
  intros Hsch. unfold urlunsplit.
  assert (nonempty (s_scheme r) = true) as -> by (by destruct Hsch as [-> | ->]).
  assert (str_in_list (s_scheme r) uses_netloc = true) as ->
    by (by destruct Hsch as [-> | ->]).
  cbn [andb].
  assert (∃ x, (if nonempty (s_netloc r) || negb (startswith (s_path r) "//")
                then "//" +:+ s_netloc r +:+
                     (if nonempty (s_path r) && negb (startswith (s_path r) "/")
                      then "/" +:+ s_path r else s_path r)
                else s_path r) = "//" +:+ x) as [x ->].
  { destruct (nonempty (s_netloc r)); cbn [orb]; [by eexists |].
    destruct (startswith (s_path r) "//") eqn:Hp; cbn [negb]; [| by eexists].
    by apply prefix_split in Hp. }
  destruct (nonempty (s_query r)), (nonempty (s_fragment r));
    rewrite ?append_assoc; by eexists.
Qed.

(** [urldefrag] keeps the leading [http://] or [https://] *)
Lemma urldefrag_scheme sch rest v :
  sch = "http" ∨ sch = "https" →
  urldefrag netloc_ok (sch +:+ "://" +:+ rest) = Some v →
  ∃ w, v = sch +:+ "://" +:+ w.
Proof.
  intros Hsch. unfold urldefrag.
  destruct (has _ _); [| intros [= <-]; by eexists].
  destruct (urlparse netloc_ok _) as [r|] eqn:Hp; [| done]. intros [= <-].
  apply urlparse_scheme in Hp; [| done].
  unfold urlunparse. cbn [scheme netloc path params query fragment].
  set (sr := mkSplit _ _ _ _ _).
  destruct (urlunsplit_scheme sr) as [w Hw]; [by subst sr; rewrite Hp |].
  rewrite Hw. subst sr. cbn [s_scheme]. rewrite Hp. by eexists.
Qed.

(** without a [#] nothing is parsed *)
Lemma urldefrag_id u : nohash u → urldefrag netloc_ok u = Some u.
Proof. intros H. unfold urldefrag. by rewrite H. Qed.

End UrlFacts.

(* ===================================================================== *)
(** * URL normalisation *)
(* ===================================================================== *)

Section CleanUrl.

Import Py.

Variable netloc_ok : string -> bool.

Lemma startswith_any_scheme u :
  startswith_any u ["http://"; "https://"] = true →
  ∃ sch rest, (sch = "http" ∨ sch = "https") ∧ u = sch +:+ "://" +:+ rest.
Proof.
  unfold startswith_any, startswith. cbn [existsb]. rewrite orb_false_r.
  intros [H | H]%orb_true_iff; apply prefix_split in H as [r ->].
  - exists "http", r. auto.
  - exists "https", r. auto.
Qed.

Lemma startswith_any_intro sch rest :
  sch = "http" ∨ sch = "https" →
  startswith_any (sch +:+ "://" +:+ rest) ["http://"; "https://"] = true.
Proof.
  intros [-> | ->]; unfold startswith_any, startswith; cbn [existsb].
  - change ("http" +:+ "://" +:+ rest) with ("http://" +:+ rest).
    by rewrite prefix_append.
  - change ("https" +:+ "://" +:+ rest) with ("https://" +:+ rest).
    by rewrite prefix_append, orb_true_r.
Qed.

(** what [_clean_url] hands to [urldefrag] always begins with a scheme *)
Lemma clean_url_shape u v :
  _clean_url netloc_ok u = Some v →
  ∃ sch rest w,
    (sch = "http" ∨ sch = "https") ∧
    (startswith_any u ["http://"; "https://"] = false → sch = "https") ∧
    UrlParse.urldefrag netloc_ok (sch +:+ "://" +:+ rest) = Some v ∧
    v = sch +:+ "://" +:+ w.
Proof.
  unfold _clean_url.
  destruct (startswith_any u _) eqn:Hs; cbn [negb]; intros H.
  - destruct (startswith_any_scheme _ Hs) as (sch & rest & Hsch & ->).
    destruct (urldefrag_scheme _ _ _ _ Hsch H) as [w ->].
    by exists sch, rest, w.
  - destruct (urldefrag_scheme netloc_ok "https" u v (or_intror eq_refl) H) as [w ->].
    exists "https", u, w. auto.
Qed.

(** a URL without [#] is returned, with [https://] before it when it has
    no scheme, on every interpreter *)
Lemma clean_url_defined u :
  has (Ascii.eqb "#") u = false → ∃ v, _clean_url netloc_ok u = Some v.
Proof.
  intros H. unfold _clean_url.
  destruct (negb _); eexists; apply urldefrag_id; [| done].
  by rewrite has_append, H.
Qed.

End CleanUrl.


(** a URL with parameters, a query and a fragment, and one with an
    unclosed bracket in its network location *)
Example clean_url_sample :
  _clean_url UrlParse.brackets_balanced "a.com/page;v=1?q=2#top"
  = Some "https://a.com/page;v=1?q=2"
  ∧ _clean_url UrlParse.brackets_balanced "http://[#top" = None.
Proof. split; reflexivity. Qed.

(* ===================================================================== *)
(** * The redirect resolver *)
(* ===================================================================== *)

Lemma len_app {A} (l1 l2 : list A) : len (l1 ++ l2) = (len l1 + len l2)%Z.
Proof. unfold len. rewrite length_app. lia. Qed.

Lemma len_map {A B} (f : A → B) (l : list A) : len (map f l) = len l.
Proof. unfold len. by rewrite length_map. Qed.

Lemma len_nonneg {A} (l : list A) : (0 ≤ len l)%Z.
Proof. unfold len. lia. Qed.

(** C4. On its three paths [check_redirect_chain] returns a dictionary
    whose [status_codes] and [redirect_chain] both have
    [redirect_count + 1] elements, and whose [original_url] is its
    [final_url] when [redirect_count] is 0. *)
Theorem redirect_chain_consistency
    (session_head : string -> string + head_response) (url : string) :
  let ri := check_redirect_chain session_head url in
  len (status_codes ri) = (redirect_count ri + 1)%Z
  ∧ len (redirect_chain ri) = (redirect_count ri + 1)%Z
  ∧ (redirect_count ri = 0%Z → original_url ri = final_url ri).
Proof.
  unfold check_redirect_chain.
  destruct (session_head url) as [e | response]; cbn zeta; [done |].
  destruct (0 <? len (history response))%Z eqn:Hc; cbn -[len]; [| done].
  rewrite !len_app, !len_map. repeat split; try done.
  intros H0. apply Z.ltb_lt in Hc. lia.
Qed.

(* ===================================================================== *)
(** * Anchor text and its classification *)
(* ===================================================================== *)

Lemma nonempty_true s : Py.nonempty s = true ↔ s ≠ "".
Proof. by destruct s. Qed.

Lemma nonempty_false s : Py.nonempty s = false ↔ s = "".
Proof. by destruct s. Qed.

(** ** [str.replace] and the final slash *)

Lemma length_append (a b : string) :
  String.length (a +:+ b) = (String.length a + String.length b)%nat.
Proof. induction a as [|c a IH]; [done |]. rewrite append_cons. cbn. by rewrite IH. Qed.

Lemma append_inv_head (a b c : string) : a +:+ b = a +:+ c → b = c.
Proof.
  induction a as [|x a IH]; [by rewrite !append_nil |].
  rewrite !append_cons. intros [= H]. auto.
Qed.

Lemma append_empty_r (a : string) : a +:+ "" = a.
Proof. induction a as [|c a IH]; [done |]. by rewrite append_cons, IH. Qed.

(** the characters of an occurrence still to be dropped are dropped *)
Lemma delete_from_skip old x y :
  Py.delete_from old (String.length x) (x +:+ y) = Py.delete_from old 0 y.
Proof.
  induction x as [|c x IH]; [by rewrite append_nil |].
  rewrite append_cons. cbn [String.length Py.delete_from]. apply IH.
Qed.

(** [Py.delete_all] deletes the occurrences, from the left *)
Lemma delete_all_deleted old s :
  old ≠ "" → deleted old s (Py.delete_all s old).
Proof.
  intros Hold. unfold Py.delete_all.
  remember (String.length s) as n eqn:Hn.
  revert s Hn. induction n as [n IH] using lt_wf_ind. intros s Hn.
  destruct s as [|c s']; [constructor |].
  cbn [Py.delete_from].
  destruct (String.prefix old (String c s')) eqn:Hp.
  - destruct (prefix_split _ _ Hp) as [r Hr].
    destruct old as [|c0 old']; [done |].
    rewrite append_cons in Hr. injection Hr as -> ->.
    cbn [String.length].
    replace (S (String.length old') - 1)%nat with (String.length old') by lia.
    rewrite delete_from_skip.
    rewrite <- append_cons. constructor.
    apply (IH (String.length r)); [| done].
    subst n. cbn [String.length]. rewrite length_append. lia.
  - constructor; [done |]. apply (IH (String.length s')); [| done].
    subst n. cbn. lia.
Qed.

(** the occurrences being found from the left, what is left is determined *)
Lemma deleted_fun old s r1 r2 :
  old ≠ "" → deleted old s r1 → deleted old s r2 → r1 = r2.
Proof.
  intros Hold H1. revert r2. induction H1 as [| s r H1 IH | c s r Hp H1 IH]; intros r2 H2.
  - inversion H2 as [| s2 r' H' E | c2 s2 r' Hp' H' E]; subst; [done |].
    destruct old; [done | by rewrite append_cons in E].
  - remember (old +:+ s) as t eqn:Et. destruct H2 as [| s2 r' H' | c2 s2 r' Hp' H'].
    + destruct old; [done | by rewrite append_cons in Et].
    + apply append_inv_head in Et. subst s2. by apply IH.
    + rewrite Et, prefix_append in Hp'. done.
  - remember (String c s) as t eqn:Et. destruct H2 as [| s2 r' H' | c2 s2 r' Hp' H'].
    + done.
    + rewrite prefix_append in Hp. done.
    + injection Et as -> ->. f_equal. by apply IH.
Qed.

Lemma rev_onto_append a b : Py.rev_onto a b = Py.rev_onto a "" +:+ b.
Proof.
  revert b. induction a as [|c a IH]; intros b; [by rewrite append_nil |].
  cbn [Py.rev_onto]. rewrite IH, (IH (String c "")), append_assoc.
  by rewrite append_cons, append_nil.
Qed.

Lemma rev_cons c a : Py.rev (String c a) = Py.rev a +:+ String c "".
Proof. unfold Py.rev. cbn [Py.rev_onto]. apply rev_onto_append. Qed.

Lemma rev_append a b : Py.rev (a +:+ b) = Py.rev b +:+ Py.rev a.
Proof.
  induction a as [|c a IH].
  - rewrite append_nil. change (Py.rev "") with "". by rewrite append_empty_r.
  - by rewrite append_cons, !rev_cons, IH, append_assoc.
Qed.

Lemma rev_involutive a : Py.rev (Py.rev a) = a.
Proof.
  induction a as [|c a IH]; [done |].
  rewrite rev_cons, rev_append, IH. reflexivity.
Qed.

(** [s.endswith('/')], and [s[:-1]] for such a text *)
Lemma endswith_slash s :
  (Py.endswith s "/" = true → ∃ r, s = r +:+ "/" ∧ Py.rev (Py.drop 1 (Py.rev s)) = r)
  ∧ (Py.endswith s "/" = false → ∀ r, s ≠ r +:+ "/").
Proof.
  unfold Py.endswith. change (Py.rev "/") with "/". split.
  - intros H. destruct (prefix_split _ _ H) as [t Ht].
    exists (Py.rev t). rewrite Ht.
    change ("/" +:+ t) with (String "/" t). cbn [Py.drop]. split; [| done].
    rewrite <- (rev_involutive s), Ht.
    change ("/" +:+ t) with (String "/" t). apply rev_cons.
  - intros H r ->. rewrite rev_append in H.
    change (Py.rev "/") with "/" in H. by rewrite prefix_append in H.
Qed.

(** C6. [_extract_anchor_text] follows the precedence: the stripped text
    of the link when there is one; else, for a link with an image, the
    image label with the stripped [alt], or the missing-alt label; else,
    for a link without href, the empty-link label; else the naked-URL
    label.  The display form of the href in that label is the href
    without its occurrences of [http://], then of [https://], then of
    [www.], and without one final slash: another scheme is kept, [www.]
    is deleted wherever it stands. *)
Theorem anchor_text_precedence (link : a_tag) :
  let text := tag_text link in
  let href := attr_get (tag_attrs link) "href" "" in
  (text ≠ "" → _extract_anchor_text link = text)
  ∧ (text = "" → ∀ img, tag_img link = Some img →
       let alt := Py.strip (attr_get (img_attrs img) "alt" "") in
       (alt ≠ "" → _extract_anchor_text link = "[Image: " +:+ alt +:+ "]")
       ∧ (alt = "" → _extract_anchor_text link = "[Image with missing alt text]"))
  ∧ (text = "" → tag_img link = None →
       (href ≠ "" →
          _extract_anchor_text link = "[Naked URL: " +:+ naked_label href +:+ "]")
       ∧ (href = "" → _extract_anchor_text link = "[Empty link]"))
  ∧ (∃ r1 r2 r3,
       deleted "http://" href r1 ∧ deleted "https://" r1 r2
       ∧ deleted "www." r2 r3)
  ∧ (∀ r1 r2 r3,
       deleted "http://" href r1 → deleted "https://" r1 r2 →
       deleted "www." r2 r3 →
       (∀ r, r3 = r +:+ "/" → naked_label href = r)
       ∧ ((∀ r, r3 ≠ r +:+ "/") → naked_label href = r3))
  ∧ naked_label "https://www.example.com/docs/" = "example.com/docs"
  ∧ naked_label "ftp://www.example.com" = "ftp://example.com"
  ∧ naked_label "/docs/www.html" = "/docs/html".
Proof.
  cbn zeta. unfold _extract_anchor_text.
  split; [| split; [| split; [| split; [| split]]]].
  - intros H%nonempty_true. by rewrite H.
  - intros Ht img Hi. rewrite Ht, Hi. cbn [Py.nonempty]. split.
    + intros H%nonempty_true. by rewrite H.
    + intros H%nonempty_false. by rewrite H.
  - intros Ht Hi. rewrite Ht, Hi. cbn [Py.nonempty]. split.
    + intros H%nonempty_true. by rewrite H.
    + intros H%nonempty_false. by rewrite H.
  - eexists _, _, _. split; [| split]; by apply delete_all_deleted.
  - intros r1 r2 r3 H1 H2 H3.
    assert (r1 = Py.delete_all (attr_get (tag_attrs link) "href" "") "http://")
      as -> by (apply (deleted_fun "http://" _ _ _ ltac:(done) H1);
                by apply delete_all_deleted).
    assert (r2 = Py.delete_all
                   (Py.delete_all (attr_get (tag_attrs link) "href" "") "http://")
                   "https://")
      as -> by (apply (deleted_fun "https://" _ _ _ ltac:(done) H2);
                by apply delete_all_deleted).
    assert (r3 = Py.delete_all
                   (Py.delete_all
                      (Py.delete_all (attr_get (tag_attrs link) "href" "") "http://")
                      "https://") "www.")
      as -> by (apply (deleted_fun "www." _ _ _ ltac:(done) H3);
                by apply delete_all_deleted).
    unfold naked_label.
    set (d := Py.delete_all _ "www.").
    destruct (endswith_slash d) as [Hy Hn].
    destruct (Py.endswith d "/").
    + destruct (Hy eq_refl) as (r0 & Hd & Hr). split.
      * intros r Er. rewrite Hr. rewrite Hd in Er.
        apply (f_equal Py.rev) in Er. rewrite !rev_append in Er.
        apply append_inv_head in Er.
        by rewrite <- (rev_involutive r0), Er, rev_involutive.
      * intros Hno. by destruct (Hno r0).
    + split; [| done]. intros r Er. by destruct (Hn eq_refl r).
  - split; [reflexivity |]. split; reflexivity.
Qed.

(** The label is not the href stripped of scheme and [www.] alone, as
    section 4.3 has it: for the href [a.com/], which has neither, the
    label is [a.com]. *)
Lemma anchor_text_as_worded_counterexample :
  ¬ (∀ link, _extract_anchor_text link = spec_anchor_text link).
Proof.
  intros H.
  specialize (H (mkA [("href", "a.com/")] "" None "<a href=a.com/></a>")).
  vm_compute in H. discriminate H.
Qed.

(** ** The words of a text *)

Lemma chars_nonempty s : Forall (fun ch => ch ≠ "") (Py.chars s).
Proof.
  induction s as [|c s IH]; [constructor |].
  cbn [Py.chars]. destruct s as [|d s']; [by repeat constructor |].
  destruct (Py.is_continuation d).
  - destruct (Py.chars (String d s')) as [|ch l]; [by repeat constructor |].
    apply Forall_cons in IH as [_ IH]. by constructor.
  - by constructor.
Qed.

(** the characters of a text make up the text *)
Lemma join_chars s : Py.join (Py.chars s) = s.
Proof.
  unfold Py.join. induction s as [|c s IH]; [done |].
  cbn [Py.chars]. destruct s as [|d s']; [done |].
  destruct (Py.is_continuation d).
  - destruct (Py.chars (String d s')) as [|ch l] eqn:E; [done |].
    cbn [fold_right] in *. by rewrite append_cons, IH.
  - cbn [fold_right]. by rewrite IH.
Qed.

(** [len(s.split())] is the number of the words of [s] *)
Lemma split_chars_length cur l :
  Forall (fun ch => ch ≠ "") l →
  length (Py.split_chars cur l)
  = (word_starts (negb (Py.nonempty cur)) l + (if Py.nonempty cur then 1 else 0))%nat.
Proof.
  intros Hl. revert cur. induction Hl as [|ch l Hch _ IH]; intros cur.
  - by destruct cur.
  - cbn [Py.split_chars word_starts]. destruct (Py.is_space ch).
    + destruct cur; [apply (IH "") |]. cbn [length]. rewrite (IH ""). cbn. lia.
    + rewrite IH.
      assert (Py.nonempty (cur +:+ ch) = true) as ->.
      { destruct cur; [| done]. rewrite append_nil. by destruct ch. }
      destruct cur; cbn; lia.
Qed.

Lemma split_length t : length (Py.split t) = word_count t.
Proof.
  unfold Py.split, word_count. rewrite split_chars_length by apply chars_nonempty.
  cbn. lia.
Qed.

Lemma len_ltb {A} (n : nat) (l : list A) :
  (Z.of_nat n <? len l)%Z = (n <? length l)%nat.
Proof.
  unfold len. destruct (Nat.ltb_spec n (length l)); [apply Z.ltb_lt | apply Z.ltb_ge]; lia.
Qed.

Lemma len_leb {A} (n : nat) (l : list A) :
  (len l <=? Z.of_nat n)%Z = (length l <=? n)%nat.
Proof.
  unfold len. destruct (Nat.leb_spec (length l) n); [apply Z.leb_le | apply Z.leb_gt]; lia.
Qed.

(** C7. [_classify_anchor_text] is the rule table of the specification
    read in order, the first matching rule giving the label: [image],
    [naked_url], [empty] by the prefix of the text, [generic] by one of
    the four phrases in the lowercased text, [long_descriptive] above 8
    whitespace-delimited words, [short] up to 2 words, else
    [descriptive]; this whatever [str.lower] does to other than ASCII
    texts.  The text ["Click here"] is [generic]. *)
Theorem classify_first_match {py_lower : StrLower} (text : string)
    (link : option a_tag) :
  _classify_anchor_text text link = spec_classify text
  ∧ _classify_anchor_text "Click here" link = "generic".
Proof.
  split.
  - unfold _classify_anchor_text, spec_classify, spec_rules. cbn [first_match].
    rewrite (len_ltb 8), (len_leb 2), split_length.
    repeat match goal with
    | |- (if ?b then _ else _) = (if ?b then _ else _) => destruct b; [reflexivity |]
    end.
    reflexivity.
  - unfold _classify_anchor_text.
    rewrite (str_lower_ascii "Click here" eq_refl). reflexivity.
Qed.

(** words are delimited by the whitespace of [str.isspace], U+00A0
    included: three words are neither [short] nor [long_descriptive] *)
Example classify_sample {py_lower : StrLower} (link : option a_tag) :
  str_lower Site.three_words = Site.three_words_lower →
  Py.split Site.three_words = ["Read"; "the"; "docs"]
  ∧ _classify_anchor_text Site.three_words link = "descriptive".
Proof.
  intros Hl. split; [reflexivity |].
  unfold _classify_anchor_text. rewrite Hl. reflexivity.
Qed.

(* ===================================================================== *)
(** * What one extraction does to the analyzer *)
(* ===================================================================== *)

Lemma grows_refl page depth method st : grows page depth method st st.
Proof.
  split; [done |]. split; [| split; [| split; [| split]]].
  - exists []. rewrite app_nil_r. split; [done |]. split; [done | lia].
  - exists []. by rewrite app_nil_r.
  - exists []. by rewrite app_nil_r.
  - done.
  - intros k. exists []. by rewrite app_nil_r.
Qed.

Lemma grows_trans page depth method st1 st2 st3 :
  grows page depth method st1 st2 → grows page depth method st2 st3 →
  grows page depth method st1 st3.
Proof.
  intros (C1 & (q1 & Hq1 & Fq1 & L1) & (t1 & Ht1 & Ft1) & (r1 & Hr1 & Fr1) & S1 & B1)
         (C2 & (q2 & Hq2 & Fq2 & L2) & (t2 & Ht2 & Ft2) & (r2 & Hr2 & Fr2) & S2 & B2).
  destruct C1 as (Hb & Hdo & Hv & Hp & Hd & Hc & Ht), C2 as (Hb2 & Hdo2 & Hv2 & Hp2 & Hd2 & Hc2 & Hth2).
  split; [unfold same_config; rewrite Hb2, Hdo2, Hv2, Hp2, Hd2, Hc2, Hth2; done |].
  split; [| split; [| split; [| split]]].
  - exists (q1 ++ q2). split; [by rewrite Hq2, Hq1, app_assoc |]. split.
    + apply Forall_app. split; [done |]. rewrite Hd in Fq2. done.
    + rewrite Hp in L2. lia.
  - exists (t1 ++ t2). rewrite Ht2, Ht1, app_assoc. split; [done |].
    by apply Forall_app.
  - exists (r1 ++ r2). rewrite Hr2, Hr1, app_assoc. split; [done |].
    by apply Forall_app.
  - by transitivity (dom (anchor_text_analysis st2)).
  - intros k. destruct (B1 k) as (n1 & Hn1 & Fn1), (B2 k) as (n2 & Hn2 & Fn2).
    exists (n1 ++ n2). rewrite Hn2, Hn1, app_assoc. split; [done |].
    by apply Forall_app.
Qed.

Lemma bucket_agg_append k0 item m k :
  bucket (agg_append k0 item m) k =
  if decide (k0 = k) then bucket m k0 ++ [item] else bucket m k.
Proof.
  unfold agg_append, bucket at 1. rewrite lookup_insert.
  by destruct (decide (k0 = k)).
Qed.

Lemma dom_agg_append k0 item m : dom m ⊆ dom (agg_append k0 item m).
Proof. unfold agg_append. rewrite dom_insert. set_solver. Qed.

Section ExtractFacts.

Context {py_lower : StrLower}.
Variable netloc_ok : string -> bool.
Variable session_head : string -> string + head_response.
Variable soup_links : string -> list a_tag.
Variable urljoin : string -> string -> string + string.

(** the methods, at the collaborators of the section *)
Let x_link := extract_link netloc_ok session_head urljoin.
Let x_loop := extract_loop netloc_ok session_head urljoin.
Let x_data := extract_anchor_data netloc_ok session_head soup_links urljoin.

Lemma store_redirect_grows page text depth method link ri st :
  grows page depth method st (store_redirect page text depth link ri st).
Proof.
  unfold store_redirect. destruct ri as [ri|]; [| apply grows_refl].
  destruct (is_redirect ri); [| apply grows_refl].
  split; [done |]. split; [| split; [| split; [| split]]].
  - exists []. rewrite app_nil_r. split; [done |]. split; [done | cbn; lia].
  - exists []. by rewrite app_nil_r.
  - eexists. split; [reflexivity |]. by repeat constructor.
  - done.
  - intros k. exists []. by rewrite app_nil_r.
Qed.

Lemma build_analysis_grows page text depth method link internal ri abs st :
  grows page depth method st (build_analysis page text link internal ri abs st).
Proof.
  unfold build_analysis. destruct internal; [| apply grows_refl].
  split; [done |]. split; [| split; [| split; [| split]]].
  - exists []. rewrite app_nil_r. split; [done |]. split; [done | cbn; lia].
  - exists []. by rewrite app_nil_r.
  - exists []. by rewrite app_nil_r.
  - apply dom_agg_append.
  - intros k. cbn [anchor_text_analysis set_anchor_text_analysis].
    rewrite bucket_agg_append. destruct (decide _) as [<- |].
    + eexists. split; [reflexivity |]. by repeat constructor.
    + exists []. by rewrite app_nil_r.
Qed.

Lemma add_to_queue_grows page depth method internal ri abs st :
  grows page depth method st (add_to_queue depth internal ri abs st).
Proof.
  unfold add_to_queue.
  destruct (internal && _) eqn:H1; [| apply grows_refl]. cbn zeta.
  destruct (negb _ && _) eqn:H2; [| apply grows_refl].
  apply andb_true_iff in H1 as [_ Hd%Z.ltb_lt].
  apply andb_true_iff in H2 as [_ Hl%Z.ltb_lt].
  split; [done |]. split; [| split; [| split; [| split]]].
  - eexists. split; [reflexivity |]. split; [by repeat constructor |].
    cbn [urls_to_visit set_urls_to_visit]. rewrite len_app.
    change (len [_]) with 1%Z. lia.
  - exists []. by rewrite app_nil_r.
  - exists []. by rewrite app_nil_r.
  - done.
  - intros k. exists []. by rewrite app_nil_r.
Qed.

Lemma extract_link_grows page depth method index link pa st :
  grows page depth method st (snd (x_link page depth method index link pa st)).
Proof.
  unfold x_link, extract_link.
  destruct (_ || _); [apply grows_refl |].
  destruct (urljoin _ _) as [e|abs]; [apply grows_refl |].
  cbn [snd].
  eapply grows_trans; [| apply add_to_queue_grows].
  eapply grows_trans; [| apply build_analysis_grows].
  apply store_redirect_grows.
Qed.

Lemma extract_loop_grows page depth method links index pa st :
  grows page depth method st (snd (x_loop page depth method index links pa st)).
Proof.
  revert index pa st. induction links as [|link links IH]; intros index pa st.
  - apply grows_refl.
  - cbn [x_loop extract_loop]. unfold bind.
    pose proof (extract_link_grows page depth method index link pa st) as H.
    unfold x_link in H.
    destruct (extract_link _ _ _ _ _ _ _ _ _ _) as [[pa'|e] st1]; [| done].
    eapply grows_trans; [exact H | apply IH].
Qed.

(** the records returned by the loop are those it was given, then
    records of the page with the method *)
Lemma extract_link_anchors page depth method index link pa st pa' st' :
  x_link page depth method index link pa st = (Ok pa', st') →
  ∃ new, pa' = pa ++ new
         ∧ Forall (fun a => a_page_url a = page ∧ a_extraction_method a = method) new.
Proof.
  unfold x_link, extract_link.
  destruct (_ || _).
  - intros [= <- _]. exists []. by rewrite app_nil_r.
  - destruct (urljoin _ _) as [e|abs]; [done |]. intros [= <- _].
    eexists. split; [reflexivity |]. by repeat constructor.
Qed.

Lemma extract_loop_anchors page depth method links index pa st pa' st' :
  x_loop page depth method index links pa st = (Ok pa', st') →
  ∃ new, pa' = pa ++ new
         ∧ Forall (fun a => a_page_url a = page ∧ a_extraction_method a = method) new.
Proof.
  revert index pa st. induction links as [|link links IH]; intros index pa st.
  - intros [= <- _]. exists []. by rewrite app_nil_r.
  - cbn [x_loop extract_loop]. unfold bind.
    destruct (extract_link _ _ _ _ _ _ _ _ _ _) as [[pa1|e] st1] eqn:H1; [| done].
    intros H2. apply extract_link_anchors in H1 as (n1 & -> & F1).
    apply IH in H2 as (n2 & -> & F2).
    exists (n1 ++ n2). rewrite app_assoc. split; [done |]. by apply Forall_app.
Qed.

Lemma extract_link_tags page depth method index link pa st :
  anchor_tags (snd (x_link page depth method index link pa st)) = anchor_tags st.
Proof.
  unfold x_link, extract_link.
  destruct (_ || _); [done |].
  destruct (urljoin _ _) as [e|abs]; [done |]. cbn [snd].
  unfold add_to_queue, build_analysis, store_redirect.
  repeat match goal with
  | |- context [if ?b then _ else _] => destruct b
  | |- context [match ?o with Some _ => _ | None => _ end] => destruct o
  end; done.
Qed.

Lemma extract_loop_tags page depth method links index pa st :
  anchor_tags (snd (x_loop page depth method index links pa st)) = anchor_tags st.
Proof.
  revert index pa st. induction links as [|link links IH]; intros index pa st; [done |].
  cbn [x_loop extract_loop]. unfold bind.
  pose proof (extract_link_tags page depth method index link pa st) as H.
  unfold x_link in H.
  destruct (extract_link _ _ _ _ _ _ _ _ _ _) as [[pa'|e] st1]; [| done].
  cbn [snd] in H. rewrite <- H. apply IH.
Qed.

Lemma extract_anchor_data_grows html page depth method st :
  grows page depth method st (snd (x_data html page depth method st)).
Proof.
  unfold x_data, extract_anchor_data, bind, modify, ret.
  pose proof (extract_loop_grows page depth method (soup_links html) O [] st) as H.
  unfold x_loop in H.
  destruct (extract_loop _ _ _ _ _ _ _ _ _ _) as [[pa|e] st1] eqn:Hl; [| done].
  apply extract_loop_anchors in Hl as (new & -> & Fn).
  eapply grows_trans; [exact H |]. cbn [snd].
  split; [done |]. split; [| split; [| split; [| split]]].
  - exists []. rewrite app_nil_r. split; [done |]. split; [done | cbn; lia].
  - eexists. split; [reflexivity |]. done.
  - exists []. by rewrite app_nil_r.
  - done.
  - intros k. exists []. by rewrite app_nil_r.
Qed.

(** what [x_data] returns is what it appends to
    [anchor_tags] *)
Lemma extract_anchor_data_returns html page depth method st pa st' :
  x_data html page depth method st = (Ok pa, st') →
  anchor_tags st' = anchor_tags st ++ pa
  ∧ Forall (fun a => a_page_url a = page ∧ a_extraction_method a = method) pa.
Proof.
  unfold x_data, extract_anchor_data, bind, modify, ret.
  destruct (extract_loop _ _ _ _ _ _ _ _ _ _) as [[pa1|e] st1] eqn:Hl; [| done].
  intros [= <- <-]. cbn [anchor_tags set_anchor_tags].
  pose proof (extract_loop_tags page depth method (soup_links html) O [] st) as Ht.
  unfold x_loop in Ht. rewrite Hl in Ht. cbn [snd] in Ht. rewrite Ht.
  apply extract_loop_anchors in Hl as (new & -> & Fn). done.
Qed.

End ExtractFacts.

(* ===================================================================== *)
(** * The purge and the crawl of one page *)
(* ===================================================================== *)

Lemma filter_app_none {A} (P : A → Prop) `{∀ x, Decision (P x)} (l new : list A) :
  Forall (fun x => ¬ P x) new → filter P (l ++ new) = filter P l.
Proof.
  intros H1. rewrite filter_app.
  assert (filter P new = []) as ->; [| by rewrite app_nil_r].
  induction H1 as [|x new Hx _ IH]; [done |].
  rewrite filter_cons. by destruct (decide (P x)).
Qed.

Lemma filter_filter_imp {A} (P Q : A → Prop)
    `{∀ x, Decision (P x)} `{∀ x, Decision (Q x)} (l : list A) :
  (∀ x, P x → Q x) → filter P (filter Q l) = filter P l.
Proof.
  intros HPQ. induction l as [|x l IH]; [done |].
  rewrite !(filter_cons _ x). destruct (decide (Q x)) as [HQ | HQ].
  - rewrite filter_cons. destruct (decide (P x)); by rewrite IH.
  - destruct (decide (P x)) as [HP | HP]; [by destruct HQ; auto | done].
Qed.

Lemma bucket_purge url st k :
  bucket (anchor_text_analysis (purge_page url st)) k =
  filter (fun item => source_page item ≠ url) (bucket (anchor_text_analysis st) k).
Proof.
  unfold purge_page, bucket. cbn [anchor_text_analysis set_anchor_text_analysis
    set_redirect_links set_anchor_tags].
  rewrite lookup_fmap. by destruct (anchor_text_analysis st !! k).
Qed.

Lemma dom_purge url st :
  dom (anchor_text_analysis (purge_page url st)) = dom (anchor_text_analysis st).
Proof.
  unfold purge_page. cbn [anchor_text_analysis set_anchor_text_analysis
    set_redirect_links set_anchor_tags].
  apply dom_fmap_L.
Qed.

Lemma purge_config url st : same_config st (purge_page url st).
Proof. done. Qed.

Lemma purge_frontier url st : urls_to_visit (purge_page url st) = urls_to_visit st.
Proof. done. Qed.

Lemma filter_none {A} (P : A → Prop) `{∀ x, Decision (P x)} (l : list A) :
  Forall (fun x => ¬ P x) l → filter P l = [].
Proof. intros H1. by rewrite <- (filter_app_none P [] l H1). Qed.

(** records of another page survive a purge that is followed by new
    records of the purged page *)
Lemma purge_then_grow {A} (key : A → string) (url p : string) (l0 t1 t2 : list A) :
  p ≠ url →
  Forall (fun x => key x = url) t1 → Forall (fun x => key x = url) t2 →
  filter (fun x => key x = p) (filter (fun x => key x ≠ url) (l0 ++ t1) ++ t2)
  = filter (fun x => key x = p) l0.
Proof.
  intros Hp F1 F2.
  rewrite filter_app_none; [| eapply Forall_impl; [exact F2 | simpl; congruence]].
  rewrite filter_filter_imp; [| congruence].
  apply filter_app_none. eapply Forall_impl; [exact F1 | simpl; congruence].
Qed.

Lemma grows_evolves page depth method st st' :
  grows page depth method st st' → evolves depth st st'.
Proof. intros (C & F & _ & _ & D & _). done. Qed.

Lemma evolves_refl depth st : evolves depth st st.
Proof. eapply grows_evolves, (grows_refl "" depth ""). Qed.

Lemma evolves_trans depth st1 st2 st3 :
  evolves depth st1 st2 → evolves depth st2 st3 → evolves depth st1 st3.
Proof.
  intros (C1 & (q1 & Hq1 & Fq1 & L1) & S1) (C2 & (q2 & Hq2 & Fq2 & L2) & S2).
  destruct C1 as (Hb & Hdo & Hv & Hp & Hd & Hc & Ht),
           C2 as (Hb2 & Hdo2 & Hv2 & Hp2 & Hd2 & Hc2 & Hth2).
  split; [unfold same_config; rewrite Hb2, Hdo2, Hv2, Hp2, Hd2, Hc2, Hth2; done |].
  split; [| by transitivity (dom (anchor_text_analysis st2))].
  exists (q1 ++ q2). split; [by rewrite Hq2, Hq1, app_assoc |]. split.
  - apply Forall_app. split; [done |]. rewrite Hd in Fq2. done.
  - rewrite Hp in L2. lia.
Qed.

Lemma purge_evolves depth url st : evolves depth st (purge_page url st).
Proof.
  split; [done |]. split; [| by rewrite dom_purge].
  exists []. rewrite app_nil_r. split; [done |]. split; [done |].
  rewrite purge_frontier. lia.
Qed.

Section CrawlFacts.

Context {py_lower : StrLower}.
Variable netloc_ok : string -> bool.
Variable SELENIUM_AVAILABLE : bool.
Variable session_head : string -> string + head_response.
Variable session_get : string -> string + get_response.
Variable soup_links : string -> list a_tag.
Variable urljoin : string -> string -> string + string.
Variable chrome_launch : analyzer -> launch.
Variable driver_page_source : string -> option string.

(** the methods, at the collaborators of the section *)
Let x_data := extract_anchor_data netloc_ok session_head soup_links urljoin.
Let x_selenium :=
  extract_anchor_data_selenium netloc_ok SELENIUM_AVAILABLE session_head
    soup_links urljoin chrome_launch driver_page_source.
Let x_crawl :=
  crawl_page netloc_ok SELENIUM_AVAILABLE session_head session_get soup_links
    urljoin chrome_launch driver_page_source.
Let x_turn :=
  loop_turn netloc_ok SELENIUM_AVAILABLE session_head session_get soup_links
    urljoin chrome_launch driver_page_source.
Let x_turns :=
  turns netloc_ok SELENIUM_AVAILABLE session_head session_get soup_links
    urljoin chrome_launch driver_page_source.

Lemma setup_driver_grows page depth method st :
  grows page depth method st
    (snd (_setup_selenium_driver SELENIUM_AVAILABLE chrome_launch st)).
Proof.
  unfold _setup_selenium_driver.
  destruct (_ || _); [apply grows_refl |].
  destruct (chrome_launch st); [| | apply grows_refl].
  all: split; [done |]; split; [| split; [| split; [| split]]].
  all: try done.
  all: try (exists []; by rewrite app_nil_r).
  all: try (intros k; exists []; by rewrite app_nil_r).
  all: exists []; rewrite app_nil_r; split; [done |]; split; [done | cbn; lia].
Qed.

Lemma extract_selenium_grows url depth st :
  grows url depth "selenium" st (snd (x_selenium url depth st)).
Proof.
  unfold x_selenium, extract_anchor_data_selenium.
  pose proof (setup_driver_grows url depth "selenium" st) as H1.
  destruct (_setup_selenium_driver _ _ st) as [driver st1]. cbn [snd] in H1.
  destruct (negb driver); [done |].
  destruct (driver_page_source url) as [src|]; [| done].
  pose proof (extract_anchor_data_grows netloc_ok session_head soup_links urljoin
                src url depth "selenium" st1) as H2.
  destruct (extract_anchor_data _ _ _ _ _ _ _ _ _) as [[pa|e] st2];
    cbn [snd] in *; by eapply grows_trans.
Qed.

(** the state [x_crawl] leaves when it falls back to Selenium: the
    plain extraction, the purge, the rendered extraction *)
Lemma crawl_page_selenium url depth st n st' :
  x_crawl url depth st = ((true, SeleniumFound n), st') →
  ∃ st1, grows url depth "requests" st st1
         ∧ grows url depth "selenium" (purge_page url st1) st'.
Proof.
  unfold x_crawl, crawl_page.
  destruct (session_get url) as [e | response]; [done |].
  destruct (raise_for_status response) as [e0|]; [done |].
  destruct (negb _); [done |].
  pose proof (extract_anchor_data_grows netloc_ok session_head soup_links urljoin
                (get_text response) url depth "requests" st) as H1.
  destruct (extract_anchor_data _ _ _ _ _ _ _ _ _) as [[pa|e] st1]; [| done].
  cbn [snd] in H1.
  destruct (should_use_selenium _ _ _ _ _) as [[] reason]; [| done].
  pose proof (extract_selenium_grows url depth (purge_page url st1)) as H2.
  unfold x_selenium in H2.
  destruct (extract_anchor_data_selenium _ _ _ _ _ _ _ _ _ _) as [sel st3].
  intros [= _ <-]. by exists st1.
Qed.

Lemma crawl_page_evolves url depth st :
  evolves depth st (snd (x_crawl url depth st)).
Proof.
  unfold x_crawl, crawl_page.
  destruct (session_get url) as [e | response]; [apply evolves_refl |].
  destruct (raise_for_status response) as [e0|]; [apply evolves_refl |].
  destruct (negb _); [apply evolves_refl |].
  pose proof (extract_anchor_data_grows netloc_ok session_head soup_links urljoin
                (get_text response) url depth "requests" st) as H1.
  apply grows_evolves in H1.
  destruct (extract_anchor_data _ _ _ _ _ _ _ _ _) as [[pa|e] st1]; [| done].
  cbn [snd] in H1.
  destruct (should_use_selenium _ _ _ _ _) as [[] reason]; [| done].
  pose proof (extract_selenium_grows url depth (purge_page url st1)) as H2.
  apply grows_evolves in H2.
  unfold x_selenium in H2.
  destruct (extract_anchor_data_selenium _ _ _ _ _ _ _ _ _ _) as [sel st3].
  cbn [snd] in *.
  eapply evolves_trans; [exact H1 |].
  eapply evolves_trans; [apply purge_evolves | exact H2].
Qed.

(** ** The loop *)

Lemma loop_turn_keeps st c st' c' :
  x_turn st c = Some (st', c') →
  max_pages st' = max_pages st ∧ max_depth st' = max_depth st
  ∧ dom (anchor_text_analysis st) ⊆ dom (anchor_text_analysis st')
  ∧ (frontier_ok st → frontier_ok st').
Proof.
  unfold x_turn, loop_turn.
  destruct (urls_to_visit st) as [|[url depth] rest] eqn:Hq; [done |].
  destruct (c <? max_pages st)%Z; [| done].
  cbn [visited_urls max_depth set_urls_to_visit].
  assert (frontier_ok st → frontier_ok (set_urls_to_visit rest st)) as Hpop.
  { intros [L F]. rewrite Hq in L, F. split.
    - cbn [urls_to_visit set_urls_to_visit max_pages]. unfold len in *.
      cbn [length] in L. lia.
    - by inversion F. }
  destruct (bool_decide _ || _) eqn:Hskip.
  { intros [= <- <-]. done. }
  apply orb_false_iff in Hskip as [_ Hdepth%Z.ltb_ge].
  set (s0 := set_visited_urls _ _).
  pose proof (crawl_page_evolves url depth s0) as (C & (new & Hn & Fn & Ln) & D).
  unfold x_crawl in *.
  destruct (crawl_page _ _ _ _ _ _ _ _ _ _ s0) as [[success msg] s1].
  cbn [snd] in *. intros [= <- <-].
  destruct C as (_ & _ & _ & Hp & Hd & _).
  split; [done |]. split; [done |]. split; [done |].
  intros Hok. destruct (Hpop Hok) as [L F].
  assert (0 ≤ depth)%Z as Hd0.
  { destruct Hok as [_ F0]. rewrite Hq in F0. inversion F0; subst. cbn in *. lia. }
  split.
  - rewrite Hp. cbn [urls_to_visit set_urls_to_visit max_pages set_visited_urls s0] in *.
    lia.
  - rewrite Hn, Hd. apply Forall_app. split; [done |].
    eapply Forall_impl; [exact Fn |]. cbn. intros e [-> Hlt]. lia.
Qed.

Lemma turns_keep n st c :
  let st' := fst (x_turns n st c) in
  max_pages st' = max_pages st ∧ max_depth st' = max_depth st
  ∧ dom (anchor_text_analysis st) ⊆ dom (anchor_text_analysis st')
  ∧ (frontier_ok st → frontier_ok st').
Proof.
  revert st c. induction n as [|n IH]; intros st c; [done |].
  cbn [x_turns turns].
  destruct (loop_turn _ _ _ _ _ _ _ _ st c) as [[st1 c1]|] eqn:H1; [| done].
  apply loop_turn_keeps in H1 as (Hp & Hd & D & Hok).
  destruct (IH st1 c1) as (Hp' & Hd' & D' & Hok'). cbn zeta in *.
  split; [congruence |]. split; [congruence |].
  split; [by transitivity (dom (anchor_text_analysis st1)) | auto].
Qed.

End CrawlFacts.

(** C3. When [crawl_page] falls back to Selenium, the state it returns
    is the one the rendered extraction leaves when it starts from the
    purged state.  Against the state after the plain extraction, the
    purged state keeps in [anchor_tags], in [redirect_links] and in every
    list of the aggregate exactly the records that are not of the page, in
    their order, and nothing else differs (the keys of the aggregate
    stay); so it holds no record of the page, those of the plain pass
    included: its three collections are those of before the call without
    the records of the page.  In the returned state no record of the page
    with the method [requests] is left in [anchor_tags], and the records
    of every other page, in the three collections, are those of before
    the call. *)
Theorem fallback_purge_exact {py_lower : StrLower}
    (netloc_ok : string -> bool) (SELENIUM_AVAILABLE : bool)
    (session_head : string -> string + head_response)
    (session_get : string -> string + get_response)
    (soup_links : string -> list a_tag)
    (urljoin : string -> string -> string + string)
    (chrome_launch : analyzer -> launch)
    (driver_page_source : string -> option string)
    (url : string) (depth n : Z) (st st' : analyzer) :
  crawl_page netloc_ok SELENIUM_AVAILABLE session_head session_get soup_links
    urljoin chrome_launch driver_page_source url depth st
    = ((true, SeleniumFound n), st') →
  (∃ response pa st1 purged sel,
     session_get url = inr response
     ∧ extract_anchor_data netloc_ok session_head soup_links urljoin
         (get_text response) url depth "requests" st = (Ok pa, st1)
     ∧ extract_anchor_data_selenium netloc_ok SELENIUM_AVAILABLE session_head
         soup_links urljoin chrome_launch driver_page_source url depth purged
       = (sel, st')
     ∧ n = len sel
     ∧ anchor_tags purged
       = filter (fun a => a_page_url a ≠ url) (anchor_tags st1)
     ∧ redirect_links purged
       = filter (fun r => rl_page_containing_link r ≠ url) (redirect_links st1)
     ∧ dom (anchor_text_analysis purged) = dom (anchor_text_analysis st1)
     ∧ (∀ k, bucket (anchor_text_analysis purged) k
             = filter (fun item => source_page item ≠ url)
                 (bucket (anchor_text_analysis st1) k))
     ∧ base_url purged = base_url st1 ∧ domain purged = domain st1
     ∧ visited_urls purged = visited_urls st1
     ∧ urls_to_visit purged = urls_to_visit st1
     ∧ max_pages purged = max_pages st1 ∧ max_depth purged = max_depth st1
     ∧ crawl_complete purged = crawl_complete st1
     ∧ selenium_driver purged = selenium_driver st1
     ∧ selenium_threshold purged = selenium_threshold st1
     ∧ anchor_tags purged
       = filter (fun a => a_page_url a ≠ url) (anchor_tags st)
     ∧ redirect_links purged
       = filter (fun r => rl_page_containing_link r ≠ url) (redirect_links st)
     ∧ (∀ k, bucket (anchor_text_analysis purged) k
             = filter (fun item => source_page item ≠ url)
                 (bucket (anchor_text_analysis st) k)))
  ∧ filter (fun a => a_page_url a = url ∧ a_extraction_method a = "requests")
      (anchor_tags st') = []
  ∧ (∀ p, p ≠ url →
       filter (fun a => a_page_url a = p) (anchor_tags st')
         = filter (fun a => a_page_url a = p) (anchor_tags st)
       ∧ filter (fun r => rl_page_containing_link r = p) (redirect_links st')
         = filter (fun r => rl_page_containing_link r = p) (redirect_links st)
       ∧ ∀ k, filter (fun item => source_page item = p)
                (bucket (anchor_text_analysis st') k)
              = filter (fun item => source_page item = p)
                  (bucket (anchor_text_analysis st) k)).
Proof.
  intros H. split.
  { unfold crawl_page in H.
    destruct (session_get url) as [e | response] eqn:Hget; [done |].
    destruct (raise_for_status response) as [e0|]; [done |].
    destruct (negb _); [done |].
    pose proof (extract_anchor_data_grows netloc_ok session_head soup_links urljoin
                  (get_text response) url depth "requests" st) as G1.
    destruct (extract_anchor_data _ _ _ _ _ _ _ _ _) as [[pa|e] st1] eqn:He; [| done].
    cbn [snd] in G1.
    destruct (should_use_selenium _ _ _ _ _) as [[] reason]; [| done].
    destruct (extract_anchor_data_selenium _ _ _ _ _ _ _ _ _ (purge_page url st1))
      as [sel st2] eqn:Hs.
    injection H as <- <-.
    destruct G1 as (_ & _ & (t1 & Ht1 & Ft1) & (r1 & Hr1 & Fr1) & _ & B1).
    exists response, pa, st1, (purge_page url st1), sel.
    split; [done |]. split; [done |]. split; [exact Hs |]. split; [done |].
    split; [done |]. split; [done |]. split; [apply dom_purge |].
    split; [intros k; apply bucket_purge |].
    do 9 (split; [done |]).
    split; [| split].
    - change (anchor_tags (purge_page url st1))
        with (filter (fun a => a_page_url a ≠ url) (anchor_tags st1)).
      rewrite Ht1. apply filter_app_none.
      eapply Forall_impl; [exact Ft1 |]. cbn. intros a [-> _] Hne. done.
    - change (redirect_links (purge_page url st1))
        with (filter (fun r => rl_page_containing_link r ≠ url) (redirect_links st1)).
      rewrite Hr1. apply filter_app_none.
      eapply Forall_impl; [exact Fr1 |]. cbn. intros r -> Hne. done.
    - intros k. rewrite bucket_purge. destruct (B1 k) as (n1 & -> & Fn1).
      apply filter_app_none.
      eapply Forall_impl; [exact Fn1 |]. cbn. intros item -> Hne. done. }
  apply crawl_page_selenium in H as (st1 & G1 & G2).
  destruct G1 as (_ & _ & (t1 & Ht1 & Ft1) & (r1 & Hr1 & Fr1) & _ & B1).
  destruct G2 as (_ & _ & (t2 & Ht2 & Ft2) & (r2 & Hr2 & Fr2) & _ & B2).
  change (anchor_tags (purge_page url st1))
    with (filter (fun a => a_page_url a ≠ url) (anchor_tags st1)) in Ht2.
  change (redirect_links (purge_page url st1))
    with (filter (fun r => rl_page_containing_link r ≠ url) (redirect_links st1)) in Hr2.
  split.
  - rewrite Ht2. apply filter_none. apply Forall_app. split.
    + apply Forall_forall. intros a [Ha _]%list_elem_of_filter [Hu _]. done.
    + eapply Forall_impl; [exact Ft2 |]. simpl. intros a [_ Hm] [_ Hm'].
      by rewrite Hm in Hm'.
  - intros p Hp. split; [| split].
    + rewrite Ht2, Ht1. apply (purge_then_grow a_page_url); [done | |].
      * eapply Forall_impl; [exact Ft1 |]. by intros a [? _].
      * eapply Forall_impl; [exact Ft2 |]. by intros a [? _].
    + rewrite Hr2, Hr1. by apply (purge_then_grow rl_page_containing_link).
    + intros k. destruct (B1 k) as (n1 & Hn1 & Fn1), (B2 k) as (n2 & Hn2 & Fn2).
      rewrite Hn2, bucket_purge, Hn1. by apply (purge_then_grow source_page).
Qed.

Lemma fallback_purge_exact_witness :
  filter (fun a => a_page_url a = "https://a.com" ∧ a_extraction_method a = "requests")
    (anchor_tags (snd (Site.crawl_rendered "https://a.com" 0 (Site.seed 10 3 5))))
  = [].
Proof.
  assert (Site.crawl_rendered "https://a.com" 0 (Site.seed 10 3 5)
          = ((true, SeleniumFound 1),
             snd (Site.crawl_rendered "https://a.com" 0 (Site.seed 10 3 5)))) as H.
  { vm_compute. reflexivity. }
  exact (proj1 (proj2 (fallback_purge_exact (py_lower := Site.lower)
            UrlParse.brackets_balanced true
            Site.session_head Site.session_get Site.soup_links_rendered
            Site.urljoin (fun _ => Started) Site.driver_page_source
            "https://a.com" 0 1 (Site.seed 10 3 5) _ H))).
Defined.

(** C5. When [session.head] raises, [check_redirect_chain] returns: the
    dictionary says no redirect, count 0, the URL itself as final URL and
    as the whole chain, and the one status ['ERROR'].  An internal link
    whose check fails is therefore recorded by [extract_anchor_data]
    without a redirect record, and aggregated under its own URL as a link
    that is no redirect. *)
Theorem redirect_failure_recovered {py_lower : StrLower}
    (netloc_ok : string -> bool)
    (session_head : string -> string + head_response)
    (urljoin : string -> string -> string + string)
    (st : analyzer) (page_url method : string) (depth : Z) (index : nat)
    (link : a_tag) (page_anchors : list anchor_data) (absolute_url e : string) :
  let href := Py.strip (attr_get (tag_attrs link) "href" "") in
  let failed := mkRedirectInfo false absolute_url absolute_url 0 [ERROR]
                  [absolute_url] (Some e) in
  session_head absolute_url = inl e →
  Py.nonempty href = true →
  Py.startswith_any href ["javascript:"; "tel:"] = false →
  urljoin page_url href = inr absolute_url →
  is_valid_internal_url netloc_ok st absolute_url = true →
  check_redirect_chain session_head absolute_url = failed
  ∧ ∃ anchor st',
      extract_link netloc_ok session_head urljoin page_url depth method index
        link page_anchors st = (Ok (page_anchors ++ [anchor]), st')
      ∧ a_redirect_info anchor = Some failed
      ∧ redirect_links st' = redirect_links st
      ∧ anchor_text_analysis st' =
          agg_append absolute_url
            (mkItem (_extract_anchor_text link)
               (_classify_anchor_text (_extract_anchor_text link) (Some link))
               page_url false)
            (anchor_text_analysis st).
Proof.
  intros href failed Hhead Hne Hjs Hjoin Hint.
  assert (check_redirect_chain session_head absolute_url = failed) as Hc.
  { unfold check_redirect_chain. by rewrite Hhead. }
  split; [done |].
  unfold extract_link. fold href. rewrite Hne, Hjs, Hjoin, Hint, Hc.
  cbn [negb orb]. eexists _, _. split; [reflexivity |].
  split; [done |]. unfold add_to_queue, build_analysis, store_redirect.
  cbn [failed is_redirect final_of final_url andb].
  destruct (depth <? _)%Z; [cbn zeta; destruct (_ && _) |]; done.
Qed.

Lemma redirect_failure_recovered_witness :
  let link := Site.link "/b" "Click here" in
  let failed := mkRedirectInfo false "https://a.com/b" "https://a.com/b" 0
                  [ERROR] ["https://a.com/b"] (Some "ConnectionError") in
  check_redirect_chain Site.session_head_down "https://a.com/b" = failed
  ∧ ∃ anchor st',
      extract_link (py_lower := Site.lower) UrlParse.brackets_balanced
        Site.session_head_down Site.urljoin
        "https://a.com" 0 "requests" 0 link [] (Site.seed 10 3 5)
        = (Ok ([] ++ [anchor]), st')
      ∧ a_redirect_info anchor = Some failed
      ∧ redirect_links st' = redirect_links (Site.seed 10 3 5)
      ∧ anchor_text_analysis st' =
          agg_append "https://a.com/b"
            (mkItem (_extract_anchor_text link)
               (_classify_anchor_text (py_lower := Site.lower)
                  (_extract_anchor_text link) (Some link))
               "https://a.com" false)
            (anchor_text_analysis (Site.seed 10 3 5)).
Proof.
  apply (redirect_failure_recovered (py_lower := Site.lower) UrlParse.brackets_balanced
           Site.session_head_down Site.urljoin (Site.seed 10 3 5)
           "https://a.com" "requests" 0 0 (Site.link "/b" "Click here") []
           "https://a.com/b" "ConnectionError"); reflexivity.
Defined.

(* ===================================================================== *)
(** * The frontier *)
(* ===================================================================== *)

(** the one place that enqueues, and its three conditions *)
Lemma extract_link_enqueues {py_lower : StrLower} netloc_ok session_head urljoin
    page depth method index link pa st :
  let st' := snd (extract_link netloc_ok session_head urljoin page depth method
                    index link pa st) in
  urls_to_visit st' = urls_to_visit st
  ∨ ∃ target,
      urls_to_visit st' = urls_to_visit st ++ [(target, (depth + 1)%Z)]
      ∧ (depth < max_depth st)%Z
      ∧ (target ∉ visited_urls st)
      ∧ (len (urls_to_visit st) < max_pages st)%Z.
Proof.
  unfold extract_link.
  destruct (_ || _); [by left |].
  destruct (urljoin _ _) as [e|abs]; [by left |]. cbn [snd].
  set (internal := is_valid_internal_url _ _ _).
  set (ri := if internal then _ else _).
  set (s1 := build_analysis _ _ _ _ _ _ _).
  assert (urls_to_visit s1 = urls_to_visit st ∧ visited_urls s1 = visited_urls st
          ∧ max_depth s1 = max_depth st ∧ max_pages s1 = max_pages st)
    as (Hq & Hv & Hd & Hp).
  { subst s1. unfold build_analysis, store_redirect.
    destruct internal, ri as [[[] ? ? ? ? ? ?]|]; done. }
  unfold add_to_queue. rewrite Hq, Hv, Hd, Hp.
  destruct (internal && _) eqn:H1; [| by left]. cbn zeta.
  destruct (negb _ && _) eqn:H2; [| by left].
  apply andb_true_iff in H1 as [_ H1%Z.ltb_lt].
  apply andb_true_iff in H2 as [Hn%negb_true_iff%bool_decide_eq_false H2%Z.ltb_lt].
  right. eexists. cbn [urls_to_visit set_urls_to_visit]. done.
Qed.

(** C2, as the code has it.  From the analyzer [__init__] builds, after
    any number of turns of the loop the frontier holds at most
    [max(1, max_pages)] entries, each of a depth from 0 to
    [max(0, max_depth)]; and [extract_anchor_data] adds an entry, of depth
    [depth + 1], only for a page of depth below [max_depth], a target that
    is not visited, and a frontier shorter than [max_pages]. *)
Theorem frontier_bounds {py_lower : StrLower}
    (netloc_ok : string -> bool) (SELENIUM_AVAILABLE : bool)
    (session_head : string -> string + head_response)
    (session_get : string -> string + get_response)
    (soup_links : string -> list a_tag)
    (urljoin : string -> string -> string + string)
    (chrome_launch : analyzer -> launch)
    (driver_page_source : string -> option string)
    (seed_url : string) (maxp maxd threshold : Z) (st0 : analyzer)
    (n : nat) (c : Z) :
  init netloc_ok seed_url maxp maxd threshold = Some st0 →
  let st := fst (turns netloc_ok SELENIUM_AVAILABLE session_head session_get
                   soup_links urljoin chrome_launch driver_page_source n st0 c) in
  (len (urls_to_visit st) ≤ Z.max 1 maxp)%Z
  ∧ Forall (fun e => (0 ≤ snd e ≤ Z.max 0 maxd)%Z) (urls_to_visit st)
  ∧ (∀ page depth method index link pa s,
       let s' := snd (extract_link netloc_ok session_head urljoin page depth
                        method index link pa s) in
       urls_to_visit s' = urls_to_visit s
       ∨ ∃ target,
           urls_to_visit s' = urls_to_visit s ++ [(target, (depth + 1)%Z)]
           ∧ (depth < max_depth s)%Z
           ∧ (target ∉ visited_urls s)
           ∧ (len (urls_to_visit s) < max_pages s)%Z).
Proof.
  intros Hinit st.
  assert (max_pages st0 = maxp ∧ max_depth st0 = maxd ∧ frontier_ok st0)
    as (Hp & Hd & Hok).
  { unfold init in Hinit. destruct (_clean_url _ _) as [base|]; [| done].
    destruct (UrlParse.urlparse _ _); [| done]. injection Hinit as <-.
    split; [done |]. split; [done |]. split.
    - cbn [urls_to_visit max_pages]. unfold len. cbn [length]. lia.
    - cbn [urls_to_visit max_depth]. repeat constructor; cbn [snd]; lia. }
  destruct (turns_keep netloc_ok SELENIUM_AVAILABLE session_head session_get
              soup_links urljoin chrome_launch driver_page_source n st0 c)
    as (Hp' & Hd' & _ & Hok').
  destruct (Hok' Hok) as [L F]. fold st in Hp', Hd', L, F.
  rewrite Hp', Hp in L. rewrite Hd', Hd in F.
  split; [done |]. split; [done |].
  intros. apply extract_link_enqueues.
Qed.

Lemma frontier_bounds_witness :
  let st := fst (Site.turns_plain 2 (Site.seed 1 1 5) 0) in
  (len (urls_to_visit st) ≤ Z.max 1 1)%Z
  ∧ Forall (fun e => (0 ≤ snd e ≤ Z.max 0 1)%Z) (urls_to_visit st).
Proof.
  pose proof (frontier_bounds (py_lower := Site.lower) UrlParse.brackets_balanced
                false Site.session_head Site.session_get Site.soup_links
                Site.urljoin (fun _ => NotStarted) (fun _ => None)
                "a.com" 1 1 5 (Site.seed 1 1 5) 2 0 eq_refl) as (H1 & H2 & _).
  split; [exact H1 | exact H2].
Defined.

(** the claim of C2 fails: with [max_pages = 2] the seed, then [/b] and
    [/new], then [/c] have been in the frontier after two turns, four
    URLs, three of them enqueued from links *)
Lemma frontier_bound_counterexample :
  ¬ (∀ n, (Z.of_nat (size (seen_urls Site.turn_plain n (Site.seed 2 5 5) 0))
           ≤ max_pages (Site.seed 2 5 5))%Z).
Proof. intros H. specialize (H 2%nat). vm_compute in H. by apply H. Qed.

(* ===================================================================== *)
(** * The scheduler's counter *)
(* ===================================================================== *)

(** C1, as the code has it.  For a dequeued entry that is not discarded
    the loop marks the URL visited, whatever [crawl_page] answers, so the
    number of visited pages rises by one; [crawled_count] rises by one
    when [crawl_page] reports success and stays as it is otherwise; a
    page whose content type is not HTML is no success and leaves the
    count as it is. *)
Theorem crawled_count_on_success {py_lower : StrLower}
    (netloc_ok : string -> bool) (SELENIUM_AVAILABLE : bool)
    (session_head : string -> string + head_response)
    (session_get : string -> string + get_response)
    (soup_links : string -> list a_tag)
    (urljoin : string -> string -> string + string)
    (chrome_launch : analyzer -> launch)
    (driver_page_source : string -> option string)
    (st : analyzer) (c : Z) (url : string) (depth : Z) (rest : list (string * Z)) :
  urls_to_visit st = (url, depth) :: rest →
  (c < max_pages st)%Z →
  url ∉ visited_urls st →
  (depth ≤ max_depth st)%Z →
  let marked := set_visited_urls ({[url]} ∪ visited_urls st)
                  (set_urls_to_visit rest st) in
  let dispatched :=
    crawl_page netloc_ok SELENIUM_AVAILABLE session_head session_get soup_links
      urljoin chrome_launch driver_page_source url depth marked in
  loop_turn netloc_ok SELENIUM_AVAILABLE session_head session_get soup_links
    urljoin chrome_launch driver_page_source st c
  = Some (snd dispatched, if fst (fst dispatched) then (c + 1)%Z else c)
  ∧ visited_urls (snd dispatched) = {[url]} ∪ visited_urls st
  ∧ size (visited_urls (snd dispatched)) = S (size (visited_urls st))
  ∧ (∀ response,
       session_get url = inr response →
       raise_for_status response = None →
       Py.contains (str_lower (default "" (get_content_type response))) "text/html"
         = false →
       dispatched
       = ((false, NonHtml (str_lower (default "" (get_content_type response)))),
          marked)).
Proof.
  intros Hq Hc Hv Hd marked dispatched.
  assert (visited_urls (snd dispatched) = {[url]} ∪ visited_urls st) as Hvis.
  { pose proof (crawl_page_evolves netloc_ok SELENIUM_AVAILABLE session_head
                  session_get soup_links urljoin chrome_launch driver_page_source
                  url depth marked) as ((_ & _ & Hvis & _) & _).
    exact Hvis. }
  split; [| split; [done | split]].
  - unfold loop_turn. rewrite Hq.
    apply Z.ltb_lt in Hc. rewrite Hc.
    cbn [visited_urls max_depth set_urls_to_visit].
    rewrite (bool_decide_eq_false_2 _ Hv).
    assert ((max_depth st <? depth)%Z = false) as -> by (apply Z.ltb_ge; lia).
    cbn [orb]. fold marked. fold dispatched.
    by destruct dispatched as [[success msg] s1].
  - rewrite Hvis. rewrite size_union by (by apply disjoint_singleton_l).
    by rewrite size_singleton.
  - intros response Hget Hstatus Hct. subst dispatched. unfold crawl_page.
    by rewrite Hget, Hstatus, Hct.
Qed.

Lemma crawled_count_on_success_witness :
  Site.turn_plain (Site.seed_report 1 1 5) 0
  = Some (set_visited_urls {["https://a.com/report"]}
            (set_urls_to_visit [] (Site.seed_report 1 1 5)), 0%Z).
Proof.
  destruct (crawled_count_on_success (py_lower := Site.lower) UrlParse.brackets_balanced false
              Site.session_head Site.session_get Site.soup_links Site.urljoin
              (fun _ => NotStarted) (fun _ => None) (Site.seed_report 1 1 5) 0
              "https://a.com/report" 0 [] eq_refl) as (H & _).
  - reflexivity.
  - set_solver.
  - cbn. lia.
  - etrans; [exact H |]. vm_compute. reflexivity.
Defined.

(** the claim of C1 fails: the seed [/report], a PDF, is dispatched and
    [crawled_count] stays 0 *)
Lemma count_every_dispatch_counterexample :
  ¬ (∀ st c url depth rest st' c',
       urls_to_visit st = (url, depth) :: rest →
       (c < max_pages st)%Z →
       url ∉ visited_urls st →
       (depth ≤ max_depth st)%Z →
       Site.turn_plain st c = Some (st', c') →
       c' = (c + 1)%Z).
Proof.
  intros H.
  specialize (H (Site.seed_report 1 1 5) 0%Z "https://a.com/report" 0%Z []
                (set_visited_urls {["https://a.com/report"]}
                   (set_urls_to_visit [] (Site.seed_report 1 1 5))) 0%Z).
  discriminate H.
  - reflexivity.
  - reflexivity.
  - set_solver.
  - cbn. lia.
  - vm_compute. reflexivity.
Qed.

(* ===================================================================== *)
(** * The keys of the aggregate *)
(* ===================================================================== *)

(** C10. The purge leaves the keys of [anchor_text_analysis] as they
    are and no turn of the loop removes a key.  On the small site, when
    the fallback is taken and Chrome does not start, the two targets of
    the seed page stay as keys with empty lists: [/get_all_urls] lists
    both, the status counts 2 URLs, and the report for [/b] finds no
    data. *)
Theorem aggregate_keys_only_grow {py_lower : StrLower}
    (netloc_ok : string -> bool) (SELENIUM_AVAILABLE : bool)
    (session_head : string -> string + head_response)
    (session_get : string -> string + get_response)
    (soup_links : string -> list a_tag)
    (urljoin : string -> string -> string + string)
    (chrome_launch : analyzer -> launch)
    (driver_page_source : string -> option string) :
  (∀ url st,
     dom (anchor_text_analysis (purge_page url st)) = dom (anchor_text_analysis st))
  ∧ (∀ url depth st,
       dom (anchor_text_analysis st) ⊆
       dom (anchor_text_analysis
              (snd (crawl_page netloc_ok SELENIUM_AVAILABLE session_head
                      session_get soup_links urljoin chrome_launch
                      driver_page_source url depth st))))
  ∧ (∀ n st c,
       dom (anchor_text_analysis st) ⊆
       dom (anchor_text_analysis
              (fst (turns netloc_ok SELENIUM_AVAILABLE session_head session_get
                      soup_links urljoin chrome_launch driver_page_source
                      n st c))))
  ∧ (let st := set_crawl_complete true
                 (snd (Site.crawl_no_chrome "https://a.com" 0 (Site.seed 10 3 5))) in
     bucket (anchor_text_analysis st) "https://a.com/b" = []
     ∧ bucket (anchor_text_analysis st) "https://a.com/new" = []
     ∧ get_all_urls (Some st) = Some (["https://a.com/b"; "https://a.com/new"], 2%Z)
     ∧ unique_urls_with_anchors <$> analysis_status (Some st) = Some 2%Z
     ∧ get_anchor_text_report_for_url UrlParse.brackets_balanced st "https://a.com/b"
       = Some None).
Proof.
  split; [apply dom_purge |]. split; [| split].
  - intros url depth st.
    by destruct (crawl_page_evolves netloc_ok SELENIUM_AVAILABLE session_head
                   session_get soup_links urljoin chrome_launch driver_page_source
                   url depth st) as (_ & _ & D).
  - intros n st c.
    by destruct (turns_keep netloc_ok SELENIUM_AVAILABLE session_head session_get
                   soup_links urljoin chrome_launch driver_page_source n st c)
      as (_ & _ & D & _).
  - vm_compute. done.
Qed.

(* ===================================================================== *)
(** * Dictionaries in insertion order *)
(* ===================================================================== *)

Section DictFacts.

Context {V : Type}.
Implicit Types (d : list (string * V)) (k : string) (f : option V → V).

Lemma dict_get_upd k f d k' :
  dict_get (dict_upd k f d) k' =
  if decide (k = k') then Some (f (dict_get d k)) else dict_get d k'.
Proof.
  induction d as [|[k0 v] d IH]; cbn [dict_upd dict_get].
  - destruct (String.eqb_spec k k'), (decide (k = k')); done.
  - destruct (String.eqb_spec k0 k) as [-> | Hk0].
    + cbn [dict_get]. destruct (String.eqb_spec k k'), (decide (k = k')); done.
    + cbn [dict_get]. destruct (String.eqb_spec k0 k') as [-> | Hk0'].
      * by destruct (decide (k = k')) as [-> |].
      * exact IH.
Qed.

Lemma dict_keys_upd k f d :
  map fst (dict_upd k f d) =
  if decide (k ∈ map fst d) then map fst d else map fst d ++ [k].
Proof.
  induction d as [|[k0 v] d IH].
  - cbn [dict_upd]. destruct (decide (k ∈ map fst [])) as [H | _]; [| done].
    by apply elem_of_nil in H.
  - cbn [dict_upd]. destruct (String.eqb_spec k0 k) as [-> | Hk0].
    + destruct (decide (k ∈ map fst ((k, v) :: d))) as [_ | H]; [reflexivity |].
      destruct H. by left.
    + change (map fst ((k0, v) :: dict_upd k f d))
        with (k0 :: map fst (dict_upd k f d)).
      rewrite IH. change (map fst ((k0, v) :: d)) with (k0 :: map fst d).
      destruct (decide (k ∈ map fst d)) as [H | H],
        (decide (k ∈ k0 :: map fst d)) as [H' | H']; try done.
      * destruct H'. by right.
      * apply elem_of_cons in H' as [-> | H']; done.
Qed.

Lemma dict_get_elem_of d k v :
  NoDup (map fst d) → (k, v) ∈ d → dict_get d k = Some v.
Proof.
  induction d as [|[k0 v0] d IH]; cbn [map fst dict_get].
  - intros _ H. by apply elem_of_nil in H.
  - intros [Hn Hd]%NoDup_cons [[= -> ->] | H]%elem_of_cons.
    + by rewrite String.eqb_refl.
    + destruct (String.eqb_spec k0 k) as [-> | _]; [| by apply IH].
      destruct Hn. apply list_elem_of_fmap. by exists (k, v).
Qed.

End DictFacts.

(* ===================================================================== *)
(** * The stable sort *)
(* ===================================================================== *)

Section SortFacts.

Context {A : Type} (le : A → A → bool).

Lemma insert_sorted_perm x l : insert_sorted le x l ≡ₚ x :: l.
Proof.
  induction l as [|y l IH]; cbn [insert_sorted]; [done |].
  destruct (le x y); [done |]. rewrite IH. apply Permutation_swap.
Qed.

Lemma sort_by_perm l : sort_by le l ≡ₚ l.
Proof.
  induction l as [|x l IH]; [done |].
  cbn [sort_by foldr]. rewrite insert_sorted_perm. by constructor.
Qed.

(** [key] is the sort key, larger keys first; [B] is the order of the
    unsorted list; the sorted list has larger keys first and, among equal
    keys, the order of the unsorted list *)
Context (key : A → Z) (B : A → A → Prop).
Hypothesis le_key : ∀ x y, le x y = (key y <=? key x)%Z.

Lemma insert_sorted_stable x s :
  StronglySorted (stable_order key B) s → Forall (B x) s →
  StronglySorted (stable_order key B) (insert_sorted le x s).
Proof.
  induction s as [|y s IH]; cbn [insert_sorted]; intros Hs Hb.
  - by repeat constructor.
  - apply StronglySorted_inv in Hs as [Hs Hy].
    apply Forall_cons in Hb as [Hxy Hb].
    rewrite le_key. destruct (Z.leb_spec (key y) (key x)) as [Hle | Hlt].
    + constructor; [by constructor |]. constructor.
      * unfold stable_order. destruct (decide (key y = key x)); [right | left]; [done | lia].
      * apply Forall_forall. intros z Hz.
        pose proof (proj1 (Forall_forall _ _) Hy z Hz) as [Hyz | [Hyz _]];
        pose proof (proj1 (Forall_forall _ _) Hb z Hz) as Hxz;
        unfold stable_order;
        (destruct (decide (key z = key x)); [right | left]; [done | lia]).
    + constructor; [by apply IH |].
      rewrite insert_sorted_perm. constructor; [| done].
      left. done.
Qed.

Lemma sort_by_stable l :
  StronglySorted B l → StronglySorted (stable_order key B) (sort_by le l).
Proof.
  induction l as [|x l IH]; intros Hl; [constructor |].
  apply StronglySorted_inv in Hl as [Hl Hx].
  cbn [sort_by foldr]. apply insert_sorted_stable; [by apply IH |].
  fold (sort_by le l). by rewrite sort_by_perm.
Qed.

End SortFacts.

Lemma StronglySorted_map {A C} (f : A → C) (R : C → C → Prop) (l : list A) :
  StronglySorted (fun a b => R (f a) (f b)) l ↔ StronglySorted R (map f l).
Proof.
  induction l as [|x l IH]; cbn [map].
  - split; constructor.
  - split; intros [Hl Hx]%StronglySorted_inv; constructor;
      try (by apply IH); by apply Forall_fmap.
Qed.

(* ===================================================================== *)
(** * The counters of a report *)
(* ===================================================================== *)

Lemma first_index_lt t l : t ∈ l → (first_index t l < length l)%nat.
Proof.
  induction l as [|x l IH]; [by intros ?%elem_of_nil |].
  cbn [first_index length]. destruct (String.eqb_spec x t) as [-> | Hx]; [lia |].
  intros [-> | H]%elem_of_cons; [done |]. apply IH in H. lia.
Qed.

Lemma first_index_app_l t l l' : t ∈ l → first_index t (l ++ l') = first_index t l.
Proof.
  induction l as [|x l IH]; [by intros ?%elem_of_nil |].
  cbn [first_index app]. destruct (String.eqb_spec x t) as [-> | Hx]; [done |].
  intros [-> | H]%elem_of_cons; [done |]. by rewrite IH.
Qed.

Lemma first_index_app_r t l : t ∉ l → first_index t (l ++ [t]) = length l.
Proof.
  induction l as [|x l IH]; intros Hn.
  - cbn. by rewrite String.eqb_refl.
  - cbn [first_index app length].
    destruct (String.eqb_spec x t) as [-> | Hx]; [destruct Hn; by left |].
    rewrite IH; [done |]. intros H. apply Hn. by right.
Qed.

Lemma keys_of_nil : keys_of [] [].
Proof. split; [constructor |]. split; [done | constructor]. Qed.

Lemma StronglySorted_impl_in {A} (R R' : relation A) (l : list A) :
  (∀ a b, a ∈ l → b ∈ l → R a b → R' a b) →
  StronglySorted R l → StronglySorted R' l.
Proof.
  intros HR Hs. induction Hs as [|a l Hs IH Ha]; constructor.
  - apply IH. intros x y Hx Hy. apply HR; by right.
  - apply Forall_forall. intros b Hb. apply HR; [by left | by right |].
    by apply (proj1 (Forall_forall _ _) Ha).
Qed.

Lemma keys_of_add texts ks t : keys_of texts ks → keys_of (texts ++ [t]) (add_key ks t).
Proof.
  intros (Hn & Hin & Hs). unfold add_key.
  assert (StronglySorted
            (fun a b => (first_index a (texts ++ [t]) < first_index b (texts ++ [t]))%nat)
            ks) as Hs'.
  { eapply StronglySorted_impl_in; [| exact Hs]. intros a b Ha Hb.
    rewrite !first_index_app_l by (by apply Hin). done. }
  destruct (decide (t ∈ ks)) as [Ht | Ht].
  - split; [done |]. split; [| done]. intros k. rewrite elem_of_app, list_elem_of_singleton.
    split; [intros H; left; by apply Hin |].
    intros [H | ->]; [by apply Hin | done].
  - split; [| split].
    + apply NoDup_app. split; [done |]. split; [| apply NoDup_singleton].
      intros x Hx ->%list_elem_of_singleton. done.
    + intros k. rewrite !elem_of_app, !list_elem_of_singleton. by rewrite Hin.
    + apply StronglySorted_app_2; [| done | by repeat constructor].
      intros x1 x2 Hx1 ->%list_elem_of_singleton.
      rewrite first_index_app_l by (by apply Hin).
      rewrite first_index_app_r by (by rewrite <- Hin).
      apply first_index_lt. by apply Hin.
Qed.

Lemma keys_of_foldl texts ks l :
  keys_of texts ks → keys_of (texts ++ l) (foldl add_key ks l).
Proof.
  revert texts ks. induction l as [|t l IH]; intros texts ks H.
  - by rewrite app_nil_r.
  - cbn [foldl]. rewrite (cons_middle t texts l), app_assoc.
    apply IH. by apply keys_of_add.
Qed.

Lemma occurrences_nonneg t l : (0 ≤ occurrences t l)%Z.
Proof. apply len_nonneg. Qed.

Lemma occurrences_cons t x l :
  occurrences t (x :: l) = ((if decide (x = t) then 1 else 0) + occurrences t l)%Z.
Proof.
  unfold occurrences, len. rewrite filter_cons.
  destruct (decide (x = t)); cbn [length]; lia.
Qed.

Lemma occurrences_pos t l : t ∈ l ↔ (0 < occurrences t l)%Z.
Proof.
  induction l as [|x l IH].
  - split; [by intros ?%elem_of_nil | done].
  - rewrite occurrences_cons, elem_of_cons.
    pose proof (occurrences_nonneg t l).
    destruct (decide (x = t)) as [-> | Hx].
    + split; [lia | by left].
    + split; [intros [-> | H']; [done | apply IH in H'; lia] |].
      intros H'. right. apply IH. lia.
Qed.

(** ** [text_counter] *)

Lemma count_item_get c item k :
  dict_get (count_item c item) k =
  if decide (text item = k) then Some (default 0 (dict_get c k) + 1)%Z
  else dict_get c k.
Proof.
  unfold count_item. rewrite dict_get_upd.
  by destruct (decide (text item = k)) as [<- |].
Qed.

Lemma text_counter_get_from c md k :
  dict_get (foldl count_item c md) k =
  if decide (occurrences k (map text md) = 0%Z) then dict_get c k
  else Some (default 0 (dict_get c k) + occurrences k (map text md))%Z.
Proof.
  revert c. induction md as [|item md IH]; intros c; [done |].
  cbn [foldl map]. rewrite IH, occurrences_cons, count_item_get.
  pose proof (occurrences_nonneg k (map text md)) as Hn.
  destruct (decide (text item = k)) as [Hk | Hk].
  - destruct (decide (occurrences k (map text md) = 0%Z)) as [H0 | H0].
    + rewrite H0. destruct (decide _) as [H1 | _]; [lia |].
      f_equal; lia.
    + destruct (decide _) as [H1 | _]; [lia |].
      destruct (dict_get c k); cbn [default from_option id]; f_equal; lia.
  - rewrite Z.add_0_l.
    by destruct (decide (occurrences k (map text md) = 0%Z)).
Qed.

Lemma text_counter_get md k :
  dict_get (text_counter md) k =
  if decide (occurrences k (map text md) = 0%Z) then None
  else Some (occurrences k (map text md)).
Proof.
  unfold text_counter. rewrite text_counter_get_from.
  by case_decide.
Qed.

Lemma text_counter_keys_from c md :
  map fst (foldl count_item c md) = foldl add_key (map fst c) (map text md).
Proof.
  revert c. induction md as [|item md IH]; intros c; [done |].
  cbn [foldl map]. rewrite IH. f_equal.
  unfold count_item. apply dict_keys_upd.
Qed.

Lemma text_counter_keys md : keys_of (map text md) (map fst (text_counter md)).
Proof.
  unfold text_counter. rewrite text_counter_keys_from.
  apply (keys_of_foldl [] [] (map text md)), keys_of_nil.
Qed.

Lemma sum_values_cons kv c : sum_values (kv :: c) = (snd kv + sum_values c)%Z.
Proof. reflexivity. Qed.

Lemma sum_values_upd c k :
  sum_values (dict_upd k (fun o => (default 0 o + 1)%Z) c) = (sum_values c + 1)%Z.
Proof.
  induction c as [|[k0 v] c IH]; [done |].
  cbn [dict_upd]. destruct (String.eqb k0 k).
  - rewrite !sum_values_cons. cbn [snd default from_option id]. lia.
  - rewrite !sum_values_cons, IH. lia.
Qed.

Lemma sum_values_text_counter_from c md :
  sum_values (foldl count_item c md) = (sum_values c + len md)%Z.
Proof.
  revert c. induction md as [|item md IH]; intros c.
  - cbn [foldl]. unfold len. cbn [length]. lia.
  - cbn [foldl]. rewrite IH. unfold count_item. rewrite sum_values_upd.
    unfold len. cbn [length]. lia.
Qed.

(** ** [text_details] *)

Lemma detail_item_get d item k :
  dict_get (detail_item d item) k =
  if decide (text item = k) then
    Some (mkDetail (d_count (default new_detail (dict_get d k)) + 1) (text_type item)
            ({[source_page item]} ∪ d_source_pages (default new_detail (dict_get d k)))
            (if item_is_redirect item then true
             else d_has_redirects (default new_detail (dict_get d k))))
  else dict_get d k.
Proof.
  unfold detail_item. rewrite dict_get_upd.
  by destruct (decide (text item = k)) as [<- |].
Qed.

Lemma text_details_redirects_from d md k :
  d_has_redirects (default new_detail (dict_get (foldl detail_item d md) k)) =
  d_has_redirects (default new_detail (dict_get d k))
  || existsb (fun item => bool_decide (text item = k) && item_is_redirect item) md.
Proof.
  revert d. induction md as [|item md IH]; intros d.
  - cbn [foldl existsb]. by rewrite orb_false_r.
  - cbn [foldl existsb]. rewrite IH, detail_item_get.
    destruct (decide (text item = k)) as [Hk | Hk].
    + rewrite (bool_decide_eq_true_2 _ Hk).
      cbn [default from_option id d_has_redirects andb].
      destruct (item_is_redirect item), (d_has_redirects _); reflexivity.
    + rewrite (bool_decide_eq_false_2 _ Hk). done.
Qed.

Lemma text_details_pages_from d md k :
  d_source_pages (default new_detail (dict_get (foldl detail_item d md) k)) =
  d_source_pages (default new_detail (dict_get d k))
  ∪ list_to_set (map source_page (filter (fun item => text item = k) md)).
Proof.
  revert d. induction md as [|item md IH]; intros d.
  - cbn [foldl]. rewrite filter_nil. cbn [map list_to_set]. set_solver.
  - cbn [foldl]. rewrite IH, detail_item_get, filter_cons.
    destruct (decide (text item = k)) as [Hk | Hk].
    + cbn [default from_option id d_source_pages map list_to_set]. set_solver.
    + done.
Qed.

(** ** The report *)

Section ReportFacts.

Context {py_lower : StrLower}.
Variable netloc_ok : string -> bool.

(** what [text_details] holds for a key of the counter *)
Lemma text_details_lookup md k :
  let details := default new_detail (dict_get (text_details md) k) in
  (d_has_redirects details = true ↔
     ∃ item, item ∈ md ∧ text item = k ∧ item_is_redirect item = true)
  ∧ (∀ p, p ∈ d_source_pages details ↔
       ∃ item, item ∈ md ∧ text item = k ∧ source_page item = p).
Proof.
  cbn zeta. unfold text_details. split.
  - rewrite text_details_redirects_from. cbn [dict_get default from_option id
      new_detail d_has_redirects orb].
    rewrite existsb_exists. split.
    + intros (item & Hin & [Hk%bool_decide_eq_true Hr]%andb_true_iff).
      exists item. by rewrite list_elem_of_In.
    + intros (item & Hin & Hk & Hr). exists item.
      rewrite <- list_elem_of_In. split; [done |].
      by rewrite (bool_decide_eq_true_2 _ Hk), Hr.
  - intros p. rewrite text_details_pages_from. cbn [dict_get default from_option id
      new_detail d_source_pages].
    rewrite elem_of_union, elem_of_list_to_set, list_elem_of_fmap. split.
    + intros [H | (item & -> & [Hk Hin]%list_elem_of_filter)];
        [by apply elem_of_empty in H |]. by exists item.
    + intros (item & Hin & Hk & <-). right. exists item.
      split; [done |]. by apply list_elem_of_filter.
Qed.

(** the order of [most_common] on the counter of [md] *)
Lemma most_common_sorted md :
  StronglySorted
    (fun x y =>
       (snd y < snd x)%Z ∨
       (snd x = snd y ∧
        (first_index (fst x) (map text md) < first_index (fst y) (map text md))%nat))
    (most_common (text_counter md)).
Proof.
  unfold most_common.
  apply (sort_by_stable _ snd
           (fun x y => (first_index (fst x) (map text md)
                        < first_index (fst y) (map text md))%nat)); [done |].
  destruct (text_counter_keys md) as (_ & _ & Hs).
  by apply (proj2 (StronglySorted_map fst
              (fun a b => (first_index a (map text md)
                           < first_index b (map text md))%nat)
              (text_counter md))).
Qed.

Lemma most_common_elem_of md k n :
  (k, n) ∈ most_common (text_counter md) →
  n = occurrences k (map text md) ∧ k ∈ map text md.
Proof.
  unfold most_common. rewrite sort_by_perm. intros Hin.
  apply dict_get_elem_of in Hin; [| apply text_counter_keys].
  rewrite text_counter_get in Hin.
  destruct (decide _) as [| Hn]; [done |]. injection Hin as <-.
  split; [done |]. apply occurrences_pos.
  pose proof (occurrences_nonneg k (map text md)). lia.
Qed.

Lemma matching_data_nil st t :
  matching_data st t = [] ↔
  bucket (anchor_text_analysis st) t = []
  ∧ ∀ r, r ∈ redirect_links st → rl_final_url r ≠ t.
Proof.
  unfold matching_data. split.
  - intros [Hb Hm]%app_eq_nil. split; [done |].
    apply fmap_nil_inv in Hm. intros r Hr Ht.
    assert (r ∈ filter (fun r => rl_final_url r = t) (redirect_links st)) as Hin
      by (by apply list_elem_of_filter).
    rewrite Hm in Hin. by apply elem_of_nil in Hin.
  - intros [-> Hr]. rewrite filter_none; [done |].
    apply Forall_forall. intros r Hin. by apply Hr.
Qed.

Lemma breakdown_texts md :
  map b_anchor_text (breakdown md) = map fst (most_common (text_counter md)).
Proof. unfold breakdown. rewrite map_map. by apply map_ext. Qed.

Lemma most_common_keys md :
  map fst (most_common (text_counter md)) ≡ₚ map fst (text_counter md).
Proof. unfold most_common. by rewrite sort_by_perm. Qed.

Lemma unique_texts md :
  len (text_counter md) = Z.of_nat (size (list_to_set (map text md) : gset string)).
Proof.
  destruct (text_counter_keys md) as (Hn & Hin & _).
  unfold len. f_equal. rewrite <- (length_map fst).
  rewrite <- (size_list_to_set (C := gset string)) by done.
  f_equal. apply set_eq. intros k. by rewrite !elem_of_list_to_set.
Qed.

End ReportFacts.

(** C8. With [t] the cleaned target, [get_anchor_text_report_for_url]
    returns [None] exactly when the aggregate holds no entry under the
    key [t] and no redirect record has [t] as final URL.  Otherwise it
    returns a report on the occurrences it collects: the entries the
    aggregate holds under [t], each with its text, its page and its
    redirect flag, then the redirect records that end at [t], each with
    its link text, its page and the flag set.  The total of the report is
    the number of these occurrences, its number of texts is the number of
    their distinct texts, and its breakdown has one entry for each text,
    ordered by descending count and, among equal counts, by first
    encounter; an entry carries the count of its text, at most 5 source
    pages, each the page of an occurrence of the text, and a flag that is
    set exactly when an occurrence of the text came through a redirect. *)
Theorem report_for_url_spec {py_lower : StrLower}
    (netloc_ok : string -> bool) (st : analyzer)
    (target t : string) :
  _clean_url netloc_ok target = Some t →
  let result := get_anchor_text_report_for_url netloc_ok st target in
  let occurrences_of_t : list (string * string * bool) :=
    map (fun item => (text item, source_page item, item_is_redirect item))
      (bucket (anchor_text_analysis st) t)
    ++ map (fun r => (rl_link_text r, rl_page_containing_link r, true))
         (filter (fun r => rl_final_url r = t) (redirect_links st)) in
  let texts := map (fun o => fst (fst o)) occurrences_of_t in
  (result = Some None ↔
     bucket (anchor_text_analysis st) t = []
     ∧ ∀ r, r ∈ redirect_links st → rl_final_url r ≠ t)
  ∧ (result ≠ Some None → ∃ rep, result = Some (Some rep))
  ∧ ∀ rep, result = Some (Some rep) →
      target_url rep = t
      ∧ total_links_found rep
        = (len (bucket (anchor_text_analysis st) t)
           + len (filter (fun r => rl_final_url r = t) (redirect_links st)))%Z
      ∧ total_links_found rep = len occurrences_of_t
      ∧ unique_anchor_texts rep = Z.of_nat (size (list_to_set texts : gset string))
      ∧ NoDup (map b_anchor_text (anchor_text_breakdown rep))
      ∧ (∀ k, k ∈ map b_anchor_text (anchor_text_breakdown rep) ↔ k ∈ texts)
      ∧ StronglySorted (breakdown_order texts) (anchor_text_breakdown rep)
      ∧ Forall (fun e =>
           b_count e = occurrences (b_anchor_text e) texts
           ∧ (length (b_source_pages e) ≤ 5)%nat
           ∧ (∀ p, p ∈ b_source_pages e →
                ∃ via, (b_anchor_text e, p, via) ∈ occurrences_of_t)
           ∧ (b_has_redirects e = true ↔
                ∃ p, (b_anchor_text e, p, true) ∈ occurrences_of_t))
          (anchor_text_breakdown rep).
Proof.
  intros Hclean result occ texts0.
  set (md := matching_data st t).
  assert (map (fun item => (text item, source_page item, item_is_redirect item)) md
          = occ) as Hocc.
  { subst md occ. unfold matching_data. rewrite map_app, map_map. reflexivity. }
  assert (texts0 = map text md) as Htexts.
  { subst texts0. rewrite <- Hocc, map_map. reflexivity. }
  assert (∀ k p via, (k, p, via) ∈ occ ↔
            ∃ item, item ∈ md ∧ text item = k ∧ source_page item = p
                    ∧ item_is_redirect item = via) as Hin_occ.
  { intros k p via. rewrite <- Hocc, list_elem_of_fmap. split.
    - intros (item & [= -> -> ->] & Hi). by exists item.
    - intros (item & Hi & <- & <- & <-). by exists item. }
  clearbody occ texts0. subst texts0.
  set (texts := map text md).
  set (rep0 := mkReport t (sum_values (text_counter md)) (len (text_counter md))
                 (breakdown md)).
  assert ((md = [] ∧ result = Some None) ∨ (md ≠ [] ∧ result = Some (Some rep0)))
    as Hres.
  { subst result. unfold get_anchor_text_report_for_url. rewrite Hclean.
    fold md. fold rep0. destruct md; [by left | by right]. }
  pose proof (matching_data_nil st t) as Hnil. fold md in Hnil.
  split; [| split].
  - rewrite <- Hnil. destruct Hres as [[Hm ->] | [Hm ->]]; [done |].
    split; [done | by intros ?].
  - intros Hne. destruct Hres as [[_ Hr] | [_ Hr]]; [done | by eexists].
  - intros rep Hrep. destruct Hres as [[_ Hr] | [_ Hr]];
      rewrite Hr in Hrep; [done |]. injection Hrep as <-.
    cbn [rep0 target_url total_links_found unique_anchor_texts
      anchor_text_breakdown].
    destruct (text_counter_keys md) as (Hnd & Hin & _).
    assert (sum_values (text_counter md) = len md) as Htotal.
    { unfold text_counter. rewrite sum_values_text_counter_from.
      change (sum_values []) with 0%Z. lia. }
    split; [done |]. split; [| split; [| split; [| split; [| split; [| split]]]]].
    + rewrite Htotal. subst md. unfold matching_data. by rewrite len_app, len_map.
    + rewrite Htotal, <- Hocc. by rewrite len_map.
    + apply unique_texts.
    + rewrite breakdown_texts, most_common_keys. done.
    + intros k. rewrite breakdown_texts, most_common_keys. apply Hin.
    + unfold breakdown.
      apply (proj1 (StronglySorted_map _ (breakdown_order texts) _)).
      exact (most_common_sorted md).
    + unfold breakdown. apply Forall_fmap, Forall_forall. intros [k n] Hkn.
      apply most_common_elem_of in Hkn as [-> Hk].
      destruct (text_details_lookup md k) as [Hred Hpages].
      unfold compose. cbn beta iota zeta delta
        [fst snd b_count b_anchor_text b_source_pages b_has_redirects].
      split; [done |]. split; [| split].
      * rewrite length_take. lia.
      * intros p [i [Hp _]]%elem_of_take.
        assert (p ∈ d_source_pages
                      (default new_detail (dict_get (text_details md) k))) as Hp'.
        { apply elem_of_elements. by eapply list_elem_of_lookup_2. }
        apply Hpages in Hp' as (item & Hi & Ht & Hs).
        exists (item_is_redirect item). apply Hin_occ. by exists item.
      * rewrite Hred. split.
        -- intros (item & Hi & Ht & Hr'). exists (source_page item).
           apply Hin_occ. by exists item.
        -- intros (p & (item & Hi & Ht & Hs & Hv)%Hin_occ). by exists item.
Qed.

Lemma report_for_url_spec_witness :
  ∃ rep,
    get_anchor_text_report_for_url (py_lower := Site.lower)
      UrlParse.brackets_balanced Site.sample "a.com/x#top" = Some (Some rep)
    ∧ total_links_found rep = 6%Z
    ∧ StronglySorted (breakdown_order (map text Site.sample_items))
        (anchor_text_breakdown rep).
Proof.
  destruct (report_for_url_spec (py_lower := Site.lower)
              UrlParse.brackets_balanced Site.sample
              "a.com/x#top" "https://a.com/x" eq_refl) as (_ & Hsome & Hrep).
  destruct Hsome as [rep Hr]; [by vm_compute |].
  exists rep. split; [exact Hr |].
  destruct (Hrep rep Hr) as (_ & Htotal & _ & _ & _ & _ & Hsorted & _).
  split; [exact Htotal | exact Hsorted].
Defined.

(** on the sample the breakdown reads [b], [a], [c], [d] *)
Example report_sample_order :
  (fun r => map (fun e => (b_anchor_text e, b_count e, b_has_redirects e))
              (anchor_text_breakdown r))
    <$> (get_anchor_text_report_for_url (py_lower := Site.lower)
           UrlParse.brackets_balanced Site.sample "a.com/x#top" ≫= id)
  = Some [("b", 2%Z, false); ("a", 2%Z, true); ("c", 1%Z, false); ("d", 1%Z, false)].
Proof. vm_compute. reflexivity. Qed.

(* ===================================================================== *)
(** * Further properties of the pure methods *)
(* ===================================================================== *)

(** X1. The dictionary of [check_redirect_chain] names the checked URL as
    [original_url], its chain ends with [final_url], it says redirect
    exactly when the count is positive, a non-redirect result is the URL
    alone, and the status ['ERROR'] stands exactly in the results that
    carry an [error]. *)
Theorem redirect_info_shape
    (session_head : string -> string + head_response) (url : string) :
  let ri := check_redirect_chain session_head url in
  original_url ri = url
  ∧ last (redirect_chain ri) = Some (final_url ri)
  ∧ (is_redirect ri = true ↔ (0 < redirect_count ri)%Z)
  ∧ (is_redirect ri = false → final_url ri = url ∧ redirect_chain ri = [url])
  ∧ (ERROR ∈ status_codes ri ↔ error ri ≠ None)
  ∧ (error ri ≠ None → is_redirect ri = false).
Proof.
  unfold check_redirect_chain.
  destruct (session_head url) as [e | response]; cbn zeta.
  - cbn. repeat split; try done. intros _. apply list_elem_of_singleton. done.
  - destruct (0 <? len (history response))%Z eqn:Hc.
    + cbn -[len last]. rewrite last_snoc. apply Z.ltb_lt in Hc.
      repeat split; try done.
      intros [H | H]%elem_of_app.
      * apply list_elem_of_fmap in H as (? & ? & ?). done.
      * apply list_elem_of_singleton in H. done.
    + cbn -[len]. repeat split; try done.
      intros H%list_elem_of_singleton. done.
Qed.

(** X2. The URLs [_clean_url] returns unchanged are exactly those that
    begin with [http://] or [https://] and hold no [#]. *)
Theorem clean_url_fixed_points (netloc_ok : string -> bool) (u : string) :
  _clean_url netloc_ok u = Some u ↔
  Py.startswith_any u ["http://"; "https://"] = true
  ∧ Py.has (Ascii.eqb "#") u = false.
Proof.
  split.
  - intros H.
    destruct (clean_url_shape _ _ _ H) as (sch & rest & w & Hsch & _ & Hd & Hu).
    split.
    + rewrite Hu. by apply startswith_any_intro.
    + by apply (urldefrag_nohash _ _ _ Hd).
  - intros [Hs Hh]. unfold _clean_url. rewrite Hs. cbn [negb].
    by apply urldefrag_id.
Qed.

Lemma extract_anchor_text_nonempty (link : a_tag) :
  _extract_anchor_text link ≠ "".
Proof.
  unfold _extract_anchor_text.
  destruct (tag_text link) eqn:Ht; cbn [Py.nonempty]; [| done].
  destruct (tag_img link) as [img|].
  - by destruct (Py.nonempty _).
  - by destruct (Py.nonempty _).
Qed.

(** X3. The text [_extract_anchor_text] returns is never empty, and the
    label it makes up for a link without text is classified by its kind:
    [image] for a link with an image, [naked_url] for a link with an
    href, [empty] otherwise. *)
Theorem extracted_text_classified {py_lower : StrLower} (link : a_tag) :
  _extract_anchor_text link ≠ ""
  ∧ (tag_text link = "" →
     _classify_anchor_text (_extract_anchor_text link) (Some link) =
     match tag_img link with
     | Some _ => "image"
     | None =>
         if Py.nonempty (attr_get (tag_attrs link) "href" "")
         then "naked_url" else "empty"
     end).
Proof.
  split; [apply extract_anchor_text_nonempty |].
  unfold _extract_anchor_text.
  - intros ->. cbn [Py.nonempty].
    destruct (tag_img link) as [img|].
    + by destruct (Py.nonempty _).
    + by destruct (Py.nonempty _).
Qed.

(* ===================================================================== *)
(** * Further properties of the queries *)
(* ===================================================================== *)

Lemma sum_values_perm (c1 c2 : list (string * Z)) :
  c1 ≡ₚ c2 → sum_values c1 = sum_values c2.
Proof.
  induction 1 as [| x l l' _ IH | x y l | l l' l'' _ IH1 _ IH2].
  - done.
  - rewrite !sum_values_cons. by rewrite IH.
  - rewrite !sum_values_cons. lia.
  - by rewrite IH1.
Qed.

Lemma most_common_perm (c : list (string * Z)) : most_common c ≡ₚ c.
Proof. unfold most_common. apply sort_by_perm. Qed.

Lemma sum_counts_map (f : string * Z → breakdown_entry) (l : list (string * Z)) :
  (∀ tc, b_count (f tc) = snd tc) → sum_counts (map f l) = sum_values l.
Proof.
  intros Hf. induction l as [|tc l IH]; [done |].
  rewrite sum_values_cons, <- IH, <- Hf. reflexivity.
Qed.

Lemma sum_counts_breakdown md :
  sum_counts (breakdown md) = sum_values (text_counter md).
Proof.
  unfold breakdown.
  rewrite <- (sum_values_perm _ _ (most_common_perm (text_counter md))).
  by apply sum_counts_map.
Qed.

(** a returned report is the record built from the matching data *)
Lemma report_inv {py_lower : StrLower} netloc_ok st target rep :
  get_anchor_text_report_for_url netloc_ok st target = Some (Some rep) →
  ∃ t, _clean_url netloc_ok target = Some t
       ∧ matching_data st t ≠ []
       ∧ rep = mkReport t (sum_values (text_counter (matching_data st t)))
                 (len (text_counter (matching_data st t)))
                 (breakdown (matching_data st t)).
Proof.
  unfold get_anchor_text_report_for_url.
  destruct (_clean_url netloc_ok target) as [t|]; [| done].
  destruct (matching_data st t) as [|item md] eqn:Hmd; [done |].
  intros [= <-]. exists t. by rewrite Hmd.
Qed.

Lemma size_list_to_set_le (l : list string) :
  (size (list_to_set l : gset string) ≤ length l)%nat.
Proof.
  induction l as [|x l IH]; [done |].
  cbn [list_to_set length]. rewrite size_union_alt, size_singleton.
  assert (size (list_to_set l ∖ {[x]} : gset string)
          ≤ size (list_to_set l : gset string))%nat as H
    by (apply subseteq_size, subseteq_difference_l; done).
  lia.
Qed.

(** X4. In a report the counts of the breakdown add up to the total, the
    number of entries is the number of texts, every count is positive,
    and an entry lists [min(5, n)] distinct pages of the [n] distinct
    source pages it counts, [n] being at least 1 and at most the count. *)
Theorem report_counts_add_up {py_lower : StrLower}
    (netloc_ok : string -> bool) (st : analyzer)
    (target : string) (rep : report) :
  get_anchor_text_report_for_url netloc_ok st target = Some (Some rep) →
  total_links_found rep = sum_counts (anchor_text_breakdown rep)
  ∧ unique_anchor_texts rep = len (anchor_text_breakdown rep)
  ∧ (0 < total_links_found rep)%Z
  ∧ Forall (fun e =>
       (0 < b_count e)%Z
       ∧ (1 ≤ b_source_pages_count e ≤ b_count e)%Z
       ∧ len (b_source_pages e) = Z.min 5 (b_source_pages_count e)
       ∧ NoDup (b_source_pages e))
      (anchor_text_breakdown rep).
Proof.
  intros (t & _ & Hne & ->)%report_inv.
  set (md := matching_data st t) in *.
  cbn [total_links_found unique_anchor_texts anchor_text_breakdown].
  split; [by rewrite sum_counts_breakdown |]. split; [| split].
  - unfold breakdown, len. rewrite length_map.
    by rewrite (Permutation_length (most_common_perm (text_counter md))).
  - unfold text_counter. rewrite sum_values_text_counter_from.
    change (sum_values []) with 0%Z. destruct md; [done |]. unfold len. cbn [length]. lia.
  - unfold breakdown. apply Forall_fmap, Forall_forall. intros [k n] Hkn.
    apply most_common_elem_of in Hkn as [-> Hk].
    unfold compose. cbn beta iota zeta delta
      [fst snd b_count b_source_pages_count b_source_pages].
    pose proof (proj1 (occurrences_pos k (map text md)) Hk) as Hpos.
    split; [done |].
    set (pages := d_source_pages _).
    assert (pages = list_to_set (map source_page
                      (filter (fun item => text item = k) md))) as Hpages.
    { subst pages. unfold text_details. rewrite text_details_pages_from.
      cbn [dict_get default from_option id new_detail d_source_pages].
      by rewrite (left_id_L ∅ (∪)). }
    assert (length (filter (fun item => text item = k) md)
            = length (filter (fun x => x = k) (map text md))) as Hlen.
    { clear. induction md as [|item md IH]; [done |].
      cbn [map]. rewrite !filter_cons.
      destruct (decide (text item = k)); cbn [length]; by rewrite IH. }
    split; [| split].
    + split.
      * assert (size pages ≠ 0%nat); [| lia].
        rewrite size_non_empty_iff. rewrite Hpages.
        apply list_elem_of_fmap in Hk as (item & -> & Hitem).
        intros Hempty. apply (not_elem_of_empty (C := gset string) (source_page item)).
        rewrite <- Hempty. apply elem_of_list_to_set, list_elem_of_fmap.
        exists item. split; [done |]. by apply list_elem_of_filter.
      * rewrite Hpages. pose proof (size_list_to_set_le
          (map source_page (filter (fun item => text item = k) md))) as Hle.
        rewrite length_map, Hlen in Hle. unfold occurrences, len. lia.
    + unfold len. rewrite length_take.
      change (size pages) with (length (elements pages)). lia.
    + apply (sublist_NoDup _ (elements pages)); [apply NoDup_elements |].
      apply sublist_take.
Qed.

Lemma report_counts_add_up_witness :
  ∃ rep,
    get_anchor_text_report_for_url (py_lower := Site.lower)
      UrlParse.brackets_balanced Site.sample "a.com/x#top" = Some (Some rep)
    ∧ total_links_found rep = sum_counts (anchor_text_breakdown rep).
Proof.
  eexists. split; [vm_compute; reflexivity |].
  apply (report_counts_add_up (py_lower := Site.lower)
           UrlParse.brackets_balanced Site.sample "a.com/x#top").
  vm_compute. reflexivity.
Defined.

(** ** [get_all_urls] *)

Section SortedFacts.

Context {A : Type} (le : A → A → bool).
Hypothesis le_total : ∀ x y, le x y = true ∨ le y x = true.
Hypothesis le_trans : ∀ x y z, le x y = true → le y z = true → le x z = true.

Lemma insert_sorted_sorted x l :
  StronglySorted (fun a b => le a b = true) l →
  StronglySorted (fun a b => le a b = true) (insert_sorted le x l).
Proof.
  induction l as [|y l IH]; cbn [insert_sorted]; intros Hs.
  - by repeat constructor.
  - apply StronglySorted_inv in Hs as [Hs Hy].
    destruct (le x y) eqn:Hxy.
    + constructor; [by constructor |]. constructor; [done |].
      eapply Forall_impl; [exact Hy |]. intros z Hz. by eapply le_trans.
    + constructor; [by apply IH |].
      rewrite insert_sorted_perm. constructor; [| done].
      destruct (le_total x y) as [H | H]; [congruence | done].
Qed.

Lemma sort_by_sorted l : StronglySorted (fun a b => le a b = true) (sort_by le l).
Proof.
  induction l as [|x l IH]; [constructor |].
  cbn [sort_by foldr]. by apply insert_sorted_sorted.
Qed.

End SortedFacts.

Lemma string_leb_trans (x y z : string) :
  String.leb x y = true → String.leb y z = true → String.leb x z = true.
Proof.
  intros H1 H2. apply Is_true_true. apply Is_true_true in H1, H2.
  exact (transitivity (R := String.le) H1 H2).
Qed.

(** X5. Once the crawl is complete, [/get_all_urls] answers the keys of
    the aggregate, each once, in ascending order, and its count is their
    number, the number the status reports as
    [unique_urls_with_anchors]; before completion it has no answer. *)
Theorem get_all_urls_sorted (st : analyzer) :
  (crawl_complete st = false → get_all_urls (Some st) = None)
  ∧ (crawl_complete st = true →
     ∃ urls,
       get_all_urls (Some st) = Some (urls, len urls)
       ∧ StronglySorted (fun a b => String.leb a b = true) urls
       ∧ NoDup urls
       ∧ (∀ u, u ∈ urls ↔ u ∈ dom (anchor_text_analysis st))
       ∧ unique_urls_with_anchors <$> analysis_status (Some st) = Some (len urls)).
Proof.
  unfold get_all_urls. split; intros ->; [done |]. cbn [negb].
  set (urls := sort_by String.leb (elements (dom (anchor_text_analysis st)))).
  pose proof (sort_by_perm String.leb (elements (dom (anchor_text_analysis st))))
    as Hperm. fold urls in Hperm.
  exists urls. split; [done |]. split; [| split; [| split]].
  - apply sort_by_sorted; [apply String.leb_total | apply string_leb_trans].
  - rewrite Hperm. apply NoDup_elements.
  - intros u. rewrite Hperm. apply elem_of_elements.
  - cbn [analysis_status fmap option_fmap option_map unique_urls_with_anchors].
    f_equal. unfold len. rewrite (Permutation_length Hperm).
    by rewrite <- size_dom.
Qed.

(* ===================================================================== *)
(** * Further properties of the extraction *)
(* ===================================================================== *)

Lemma length_enumerate_from {A} (i : nat) (l : list A) :
  length (enumerate_from i l) = length l.
Proof.
  revert i. induction l as [|x l IH]; intros i; [done |].
  cbn [enumerate_from length]. by rewrite IH.
Qed.

Lemma ids_after_snoc n k : ids_after n (S k) = ids_after n k ++ [(n + Z.of_nat k + 1)%Z].
Proof. unfold ids_after. rewrite seq_S, map_app. reflexivity. Qed.

Lemma ids_after_app n k1 k2 :
  ids_after n (k1 + k2) = ids_after n k1 ++ ids_after (n + Z.of_nat k1) k2.
Proof.
  induction k2 as [|k2 IH].
  - rewrite Nat.add_0_r. cbn. by rewrite app_nil_r.
  - rewrite Nat.add_succ_r, !ids_after_snoc, IH, app_assoc. do 2 f_equal. lia.
Qed.

Lemma is_valid_internal_url_domain {py_lower : StrLower} netloc_ok st st' url :
  domain st' = domain st →
  is_valid_internal_url netloc_ok st' url = is_valid_internal_url netloc_ok st url.
Proof. intros H. unfold is_valid_internal_url. by rewrite H. Qed.

Section ExtractMore.

Context {py_lower : StrLower}.
Variable netloc_ok : string -> bool.
Variable session_head : string -> string + head_response.
Variable soup_links : string -> list a_tag.
Variable urljoin : string -> string -> string + string.

(** a skipped link changes nothing; a kept link gives one record *)
Lemma extract_link_cases page depth method index link pa st :
  let r := extract_link netloc_ok session_head urljoin page depth method index
             link pa st in
  (usable_link link = false ∧ r = (Ok pa, st))
  ∨ (usable_link link = true
     ∧ ∃ e, urljoin page (stripped_href link) = inl e ∧ r = (Raised e, st))
  ∨ (usable_link link = true
     ∧ ∃ a, fst r = Ok (pa ++ [a])
            ∧ record_stamp a = link_stamp (index, link)
            ∧ a_id a = (len (anchor_tags st) + len pa + 1)%Z
            ∧ record_of netloc_ok session_head urljoin st page depth method a
            ∧ (a_is_internal a = false → snd r = st)).
Proof.
  cbn zeta. unfold extract_link, usable_link. fold (stripped_href link).
  destruct (Py.nonempty (stripped_href link)); cbn [negb orb andb]; [| by left].
  destruct (Py.startswith_any _ _); cbn [negb]; [by left |]. right.
  destruct (urljoin page (stripped_href link)) as [e|abs] eqn:Hj;
    [left; split; [done |]; by exists e | right].
  split; [done |]. eexists. cbn [fst snd]. split; [reflexivity |].
  split; [reflexivity |]. split; [reflexivity |]. split.
  - unfold record_of.
    cbn [a_page_url a_page_depth a_extraction_method a_original_href
         a_absolute_url a_is_internal a_redirect_info a_anchor_text_type
         a_anchor_text].
    repeat split; try done. apply extract_anchor_text_nonempty.
  - cbn [a_is_internal]. intros ->. reflexivity.
Qed.

Lemma ids_after_cons n k : ids_after n (S k) = (n + 1)%Z :: ids_after (n + 1) k.
Proof.
  change (S k) with (1 + k)%nat. rewrite ids_after_app.
  change (ids_after n 1) with [(n + Z.of_nat 0 + 1)%Z].
  cbn [app]. f_equal. f_equal. lia.
Qed.

Lemma record_of_domain st st' page depth method a :
  domain st' = domain st →
  record_of netloc_ok session_head urljoin st' page depth method a →
  record_of netloc_ok session_head urljoin st page depth method a.
Proof.
  intros Hd (H1 & H2 & H3 & H4 & H5 & H6 & H7 & H8).
  rewrite (is_valid_internal_url_domain _ _ _ _ Hd) in H5.
  by repeat split.
Qed.

Lemma extract_loop_records page depth method links index pa st pa' st' :
  extract_loop netloc_ok session_head urljoin page depth method index links pa st
    = (Ok pa', st') →
  ∃ new,
    pa' = pa ++ new
    ∧ map record_stamp new
      = map link_stamp (filter (fun il => usable_link (snd il) = true)
                          (enumerate_from index links))
    ∧ map a_id new = ids_after (len (anchor_tags st) + len pa) (length new)
    ∧ Forall (record_of netloc_ok session_head urljoin st page depth method) new
    ∧ (Forall (fun a => a_is_internal a = false) new → st' = st).
Proof.
  revert index pa st. induction links as [|link links IH]; intros index pa st.
  - intros [= <- <-]. exists []. rewrite app_nil_r. by repeat split.
  - cbn [extract_loop enumerate_from]. unfold bind. rewrite filter_cons. cbn [snd].
    pose proof (extract_link_cases page depth method index link pa st) as Hc.
    pose proof (extract_link_tags netloc_ok session_head urljoin
                  page depth method index link pa st) as Htags.
    pose proof (extract_link_grows netloc_ok session_head urljoin
                  page depth method index link pa st) as ((_ & Hdom & _) & _).
    cbn zeta in Hc.
    destruct (extract_link _ _ _ _ _ _ _ _ _ _) as [o st1].
    cbn [fst snd] in *.
    destruct Hc as [[Hu [= -> ->]]
                   | [(Hu & e & _ & [= -> ->])
                     | (Hu & a & -> & Hs & Hid & Hrec & Hext)]].
    + rewrite Hu. destruct (decide (false = true)); [done |]. apply IH.
    + done.
    + rewrite Hu. destruct (decide (true = true)); [| done].
      intros H. apply IH in H as (new & -> & Hstamp & Hids & Hrecs & Hsame).
      exists (a :: new). split; [by rewrite <- app_assoc |].
      split; [cbn [map]; by rewrite Hs, Hstamp |]. split; [| split].
      * cbn [map length]. rewrite ids_after_cons, Hid, Hids, Htags, len_app.
        change (len [a]) with 1%Z. do 2 f_equal. lia.
      * constructor; [done |].
        eapply Forall_impl; [exact Hrecs |]. intros b. by apply record_of_domain.
      * intros [Ha Hn]%Forall_cons. rewrite (Hsame Hn). by apply Hext.
Qed.

End ExtractMore.

(** X6. When [extract_anchor_data] returns, it has appended to
    [anchor_tags] exactly the records it returns: one for each link that
    is not skipped, in document order, carrying the link's position on the
    page counted from 1 over all links, its markup and its stripped href;
    their identifiers continue the numbering of [anchor_tags]. *)
Theorem extract_records_follow_links {py_lower : StrLower}
    (netloc_ok : string -> bool)
    (session_head : string -> string + head_response)
    (soup_links : string -> list a_tag)
    (urljoin : string -> string -> string + string)
    (html page : string) (depth : Z) (method : string)
    (st st' : analyzer) (pa : list anchor_data) :
  extract_anchor_data netloc_ok session_head soup_links urljoin html page depth
    method st = (Ok pa, st') →
  anchor_tags st' = anchor_tags st ++ pa
  ∧ map record_stamp pa
    = map link_stamp (filter (fun il => usable_link (snd il) = true)
                        (enumerate_from 0 (soup_links html)))
  ∧ map a_id pa = ids_after (len (anchor_tags st)) (length pa)
  ∧ (length pa ≤ length (soup_links html))%nat.
Proof.
  intros H. pose proof (extract_anchor_data_returns _ _ _ _ _ _ _ _ _ _ _ H) as [Ht _].
  unfold extract_anchor_data, bind, modify, ret in H.
  destruct (extract_loop _ _ _ _ _ _ _ _ _ _) as [[pa1|e] st1] eqn:Hl; [| done].
  injection H as <- <-.
  apply extract_loop_records in Hl as (new & -> & Hstamp & Hids & _ & _).
  cbn [app] in *. split; [done |]. split; [done |]. split.
  - rewrite Hids. f_equal. unfold len. cbn [length]. lia.
  - rewrite <- (length_map record_stamp), Hstamp, length_map.
    etrans; [apply length_filter |]. by rewrite length_enumerate_from.
Qed.

Lemma extract_records_follow_links_witness :
  ∃ pa st',
    extract_anchor_data (py_lower := Site.lower) UrlParse.brackets_balanced Site.session_head
      Site.soup_links Site.urljoin "https://a.com" "https://a.com" 0 "requests"
      (Site.seed 10 3 5) = (Ok pa, st')
    ∧ map a_id pa = ids_after (len (anchor_tags (Site.seed 10 3 5))) (length pa).
Proof.
  eexists _, _. split; [vm_compute; reflexivity |].
  eapply (extract_records_follow_links (py_lower := Site.lower) UrlParse.brackets_balanced
            Site.session_head Site.soup_links Site.urljoin
            "https://a.com" "https://a.com" 0 "requests" (Site.seed 10 3 5)).
  vm_compute. reflexivity.
Defined.

(** X7. Every record [extract_anchor_data] returns is of the page, depth
    and method of the call; its absolute URL is the join of the page URL
    and its href; it is internal by [is_valid_internal_url]; it carries a
    redirect check, that of its absolute URL, exactly when it is
    internal.  When no returned record is internal, nothing but
    [anchor_tags] has changed: no redirect record, no aggregate entry, no
    frontier entry. *)
Theorem records_describe_links {py_lower : StrLower}
    (netloc_ok : string -> bool)
    (session_head : string -> string + head_response)
    (soup_links : string -> list a_tag)
    (urljoin : string -> string -> string + string)
    (html page : string) (depth : Z) (method : string)
    (st st' : analyzer) (pa : list anchor_data) :
  extract_anchor_data netloc_ok session_head soup_links urljoin html page depth
    method st = (Ok pa, st') →
  Forall (record_of netloc_ok session_head urljoin st page depth method) pa
  ∧ Forall (fun a => a_is_internal a = true ↔ is_Some (a_redirect_info a)) pa
  ∧ (Forall (fun a => a_is_internal a = false) pa →
     st' = set_anchor_tags (anchor_tags st ++ pa) st).
Proof.
  intros H. unfold extract_anchor_data, bind, modify, ret in H.
  destruct (extract_loop _ _ _ _ _ _ _ _ _ _) as [[pa1|e] st1] eqn:Hl; [| done].
  injection H as <- <-.
  apply extract_loop_records in Hl as (new & -> & _ & _ & Hrec & Hsame).
  cbn [app]. split; [done |]. split.
  - eapply Forall_impl; [exact Hrec |].
    intros a (_ & _ & _ & _ & _ & Hri & _). rewrite Hri.
    destruct (a_is_internal a); split; try done; try (by eexists); by intros [? ?].
  - intros Hext. by rewrite (Hsame Hext).
Qed.

Lemma records_describe_links_witness :
  ∃ pa st',
    extract_anchor_data (py_lower := Site.lower) UrlParse.brackets_balanced Site.session_head
      Site.soup_links Site.urljoin "https://a.com" "https://a.com" 0 "requests"
      (Site.seed 10 3 5) = (Ok pa, st')
    ∧ Forall (fun a => a_is_internal a = true ↔ is_Some (a_redirect_info a)) pa.
Proof.
  eexists _, _. split; [vm_compute; reflexivity |].
  eapply (records_describe_links (py_lower := Site.lower) UrlParse.brackets_balanced
            Site.session_head Site.soup_links Site.urljoin
            "https://a.com" "https://a.com" 0 "requests" (Site.seed 10 3 5)).
  vm_compute. reflexivity.
Defined.

(* ===================================================================== *)
(** * Further properties of the crawl of one page *)
(* ===================================================================== *)

Section PageMore.

Context {py_lower : StrLower}.
Variable netloc_ok : string -> bool.
Variable SELENIUM_AVAILABLE : bool.
Variable session_head : string -> string + head_response.
Variable session_get : string -> string + get_response.
Variable soup_links : string -> list a_tag.
Variable urljoin : string -> string -> string + string.
Variable chrome_launch : analyzer -> launch.
Variable driver_page_source : string -> option string.

Lemma extract_link_driver page depth method index link pa st :
  selenium_driver
    (snd (extract_link netloc_ok session_head urljoin page depth method index
            link pa st)) = selenium_driver st.
Proof.
  unfold extract_link.
  destruct (_ || _); [done |].
  destruct (urljoin _ _) as [e|abs]; [done |]. cbn [snd].
  unfold add_to_queue, build_analysis, store_redirect.
  repeat match goal with
  | |- context [if ?b then _ else _] => destruct b
  | |- context [match ?o with Some _ => _ | None => _ end] => destruct o
  end; done.
Qed.

Lemma extract_loop_driver page depth method links index pa st :
  selenium_driver
    (snd (extract_loop netloc_ok session_head urljoin page depth method index
            links pa st)) = selenium_driver st.
Proof.
  revert index pa st. induction links as [|link links IH]; intros index pa st; [done |].
  cbn [extract_loop]. unfold bind.
  pose proof (extract_link_driver page depth method index link pa st) as H.
  destruct (extract_link _ _ _ _ _ _ _ _ _ _) as [[pa'|e] st1]; [| done].
  cbn [snd] in H. rewrite <- H. apply IH.
Qed.

Lemma extract_anchor_data_driver html page depth method st :
  selenium_driver
    (snd (extract_anchor_data netloc_ok session_head soup_links urljoin html page
            depth method st)) = selenium_driver st.
Proof.
  unfold extract_anchor_data, bind, modify, ret.
  pose proof (extract_loop_driver page depth method (soup_links html) O [] st) as H.
  by destruct (extract_loop _ _ _ _ _ _ _ _ _ _) as [[pa|e] st1].
Qed.

(** a raised extraction has appended no record to [anchor_tags] *)
Lemma extract_anchor_data_raised html page depth method st e st' :
  extract_anchor_data netloc_ok session_head soup_links urljoin html page depth
    method st = (Raised e, st') →
  anchor_tags st' = anchor_tags st.
Proof.
  unfold extract_anchor_data, bind, modify, ret.
  pose proof (extract_loop_tags netloc_ok session_head urljoin
                page depth method (soup_links html) O [] st) as H.
  destruct (extract_loop _ _ _ _ _ _ _ _ _ _) as [[pa|e'] st1]; [done |].
  by intros [= _ <-].
Qed.

End PageMore.

(** X8. When Selenium is not installed, [crawl_page] never falls back: it
    holds no driver afterwards that it did not hold before, and a
    successful call reports the number of records it has appended to
    [anchor_tags], all of the page and of the method [requests]. *)
Theorem plain_only_without_selenium {py_lower : StrLower}
    (netloc_ok : string -> bool)
    (session_head : string -> string + head_response)
    (session_get : string -> string + get_response)
    (soup_links : string -> list a_tag)
    (urljoin : string -> string -> string + string)
    (chrome_launch : analyzer -> launch)
    (driver_page_source : string -> option string)
    (url : string) (depth : Z) (st : analyzer) :
  let r := crawl_page netloc_ok false session_head session_get soup_links
             urljoin chrome_launch driver_page_source url depth st in
  (∀ n, snd (fst r) ≠ SeleniumFound n)
  ∧ selenium_driver (snd r) = selenium_driver st
  ∧ (fst (fst r) = true →
     ∃ pa, snd (fst r) = RequestsFound (len pa)
           ∧ anchor_tags (snd r) = anchor_tags st ++ pa
           ∧ Forall (fun a => a_page_url a = url
                              ∧ a_extraction_method a = "requests") pa).
Proof.
  cbn zeta. unfold crawl_page.
  destruct (session_get url) as [e | response]; [done |].
  destruct (raise_for_status response) as [e0|]; [done |].
  destruct (negb _); [done |].
  pose proof (extract_anchor_data_driver netloc_ok session_head soup_links urljoin
                (get_text response) url depth "requests" st) as Hd.
  destruct (extract_anchor_data _ _ _ _ _ _ _ _ _) as [[pa|e] st1] eqn:He;
    cbn [snd] in Hd; [| done].
  unfold should_use_selenium. cbn [negb fst snd].
  split; [done |]. split; [done |]. intros _.
  apply extract_anchor_data_returns in He as [Ht Hf]. by exists pa.
Qed.


Lemma filter_all {A} (P : A → Prop) `{∀ x, Decision (P x)} (l : list A) :
  Forall P l → filter P l = l.
Proof.
  induction 1 as [|a l Ha _ IH]; [done |].
  rewrite filter_cons. destruct (decide (P a)); [by rewrite IH | done].
Qed.

(* ===================================================================== *)
(** * Further properties of the loop *)
(* ===================================================================== *)

Section LoopMore.

Context {py_lower : StrLower}.
Variable netloc_ok : string -> bool.
Variable SELENIUM_AVAILABLE : bool.
Variable session_head : string -> string + head_response.
Variable session_get : string -> string + get_response.
Variable soup_links : string -> list a_tag.
Variable urljoin : string -> string -> string + string.
Variable chrome_launch : analyzer -> launch.
Variable driver_page_source : string -> option string.

(** the two kinds of turn: the head entry is discarded, or its URL, not
    visited so far, is marked and dispatched *)
Lemma loop_turn_cases st c st' c' :
  loop_turn netloc_ok SELENIUM_AVAILABLE session_head session_get soup_links
    urljoin chrome_launch driver_page_source st c = Some (st', c') →
  ∃ url depth rest,
    urls_to_visit st = (url, depth) :: rest ∧ (c < max_pages st)%Z
    ∧ ((st' = set_urls_to_visit rest st ∧ c' = c
        ∧ (url ∈ visited_urls st ∨ (max_depth st < depth)%Z))
       ∨ ((url ∉ visited_urls st) ∧ (depth ≤ max_depth st)%Z
          ∧ ∃ success msg,
              crawl_page netloc_ok SELENIUM_AVAILABLE session_head session_get
                soup_links urljoin chrome_launch driver_page_source url depth
                (set_visited_urls ({[url]} ∪ visited_urls st)
                   (set_urls_to_visit rest st))
              = ((success, msg), st')
              ∧ c' = (if success then c + 1 else c)%Z)).
Proof.
  unfold loop_turn.
  destruct (urls_to_visit st) as [|[url depth] rest] eqn:Hq; [done |].
  destruct (c <? max_pages st)%Z eqn:Hc; [| done]. apply Z.ltb_lt in Hc.
  cbn [visited_urls max_depth set_urls_to_visit].
  destruct (bool_decide _ || _) eqn:Hskip.
  - intros [= <- <-]. exists url, depth, rest. split; [done |]. split; [done |].
    left. split; [done |]. split; [done |].
    apply orb_true_iff in Hskip as [H%bool_decide_eq_true | H%Z.ltb_lt]; auto.
  - apply orb_false_iff in Hskip as [Hv%bool_decide_eq_false Hd%Z.ltb_ge].
    destruct (crawl_page _ _ _ _ _ _ _ _ _ _ _) as [[success msg] s1] eqn:Hcp.
    intros [= <- <-]. exists url, depth, rest. split; [done |]. split; [done |].
    right. split; [done |]. split; [done |]. by exists success, msg.
Qed.

Lemma crawl_page_config url depth st :
  same_config st
    (snd (crawl_page netloc_ok SELENIUM_AVAILABLE session_head session_get
            soup_links urljoin chrome_launch driver_page_source url depth st)).
Proof. apply crawl_page_evolves. Qed.

Lemma loop_turn_accounting st c st' c' :
  loop_turn netloc_ok SELENIUM_AVAILABLE session_head session_get soup_links
    urljoin chrome_launch driver_page_source st c = Some (st', c') →
  max_pages st' = max_pages st
  ∧ (c ≤ c' ≤ Z.max c (max_pages st))%Z
  ∧ visited_urls st ⊆ visited_urls st'
  ∧ (c' - c ≤ Z.of_nat (size (visited_urls st'))
              - Z.of_nat (size (visited_urls st)))%Z
  ∧ (size (visited_urls st') ≤ S (size (visited_urls st)))%nat.
Proof.
  intros Hturn. apply loop_turn_cases in Hturn
    as (url & depth & rest & Hq & Hc
        & [(-> & -> & _) | (Hv & Hd & success & msg & Hcp & ->)]).
  - cbn [max_pages visited_urls set_urls_to_visit]. repeat split; try done; lia.
  - pose proof (crawl_page_config url depth
                  (set_visited_urls ({[url]} ∪ visited_urls st)
                     (set_urls_to_visit rest st))) as (_ & _ & Hvis & Hp & _).
    rewrite Hcp in Hvis, Hp. cbn [snd visited_urls max_pages set_visited_urls
      set_urls_to_visit] in Hvis, Hp.
    rewrite Hvis, Hp.
    rewrite size_union by (by apply disjoint_singleton_l). rewrite size_singleton.
    split; [done |]. split; [destruct success; lia |].
    split; [apply union_subseteq_r |]. split; [destruct success; lia | lia].
Qed.

End LoopMore.

Lemma turns_accounting {py_lower : StrLower}
    (netloc_ok : string -> bool) (SELENIUM_AVAILABLE : bool)
    (session_head : string -> string + head_response)
    (session_get : string -> string + get_response)
    (soup_links : string -> list a_tag)
    (urljoin : string -> string -> string + string)
    (chrome_launch : analyzer -> launch)
    (driver_page_source : string -> option string)
    (n : nat) (st : analyzer) (c : Z) :
  let r := turns netloc_ok SELENIUM_AVAILABLE session_head session_get
             soup_links urljoin chrome_launch driver_page_source n st c in
  max_pages (fst r) = max_pages st
  ∧ (c ≤ snd r ≤ Z.max c (max_pages st))%Z
  ∧ visited_urls st ⊆ visited_urls (fst r)
  ∧ (snd r - c ≤ Z.of_nat (size (visited_urls (fst r)))
                 - Z.of_nat (size (visited_urls st)))%Z
  ∧ (size (visited_urls (fst r)) ≤ size (visited_urls st) + n)%nat.
Proof.
  revert st c. induction n as [|n IH]; intros st c; cbn zeta.
  - cbn [turns fst snd]. repeat split; try done; lia.
  - cbn [turns].
    destruct (loop_turn _ _ _ _ _ _ _ _ st c) as [[st1 c1]|] eqn:H1.
    + apply loop_turn_accounting in H1 as (Hp & Hc & Hv & Hs & Hn).
      destruct (IH st1 c1) as (Hp' & Hc' & Hv' & Hs' & Hn'). cbn zeta in *.
      rewrite Hp in *. split; [done |]. split; [lia |].
      split; [by transitivity (visited_urls st1) |]. split; lia.
    + cbn [fst snd]. repeat split; try done; lia.
Qed.

(** X11. After any number of turns of the loop the count of crawled pages
    has not fallen and is at most [max(c, max_pages)] for its start value
    [c]; no URL has left the visited set; the count has risen by no more
    than the number of URLs visited since, and that number is at most the
    number of turns. *)
Theorem crawl_accounting {py_lower : StrLower}
    (netloc_ok : string -> bool) (SELENIUM_AVAILABLE : bool)
    (session_head : string -> string + head_response)
    (session_get : string -> string + get_response)
    (soup_links : string -> list a_tag)
    (urljoin : string -> string -> string + string)
    (chrome_launch : analyzer -> launch)
    (driver_page_source : string -> option string)
    (n : nat) (st : analyzer) (c : Z) :
  let r := turns netloc_ok SELENIUM_AVAILABLE session_head session_get
             soup_links urljoin chrome_launch driver_page_source n st c in
  max_pages (fst r) = max_pages st
  ∧ (c ≤ snd r ≤ Z.max c (max_pages st))%Z
  ∧ visited_urls st ⊆ visited_urls (fst r)
  ∧ (snd r - c ≤ Z.of_nat (size (visited_urls (fst r)))
                 - Z.of_nat (size (visited_urls st)))%Z
  ∧ (size (visited_urls (fst r)) ≤ size (visited_urls st) + n)%nat.
Proof.
  apply turns_accounting.
Qed.

(* ===================================================================== *)
(** * The records of a crawl *)
(* ===================================================================== *)

Lemma pages_in_mono V V' st : V ⊆ V' → pages_in V st → pages_in V' st.
Proof.
  intros HV (Ha & Hr & Hb). split; [| split].
  - eapply Forall_impl; [exact Ha |]. cbn. intros a; set_solver.
  - eapply Forall_impl; [exact Hr |]. cbn. intros a; set_solver.
  - intros k item Hi. apply HV. by eapply Hb.
Qed.

Lemma grows_pages_in V page depth method st st' :
  page ∈ V → grows page depth method st st' → pages_in V st → pages_in V st'.
Proof.
  intros Hp (_ & _ & (na & Ha & Fa) & (nr & Hr & Fr) & _ & Hb) (Pa & Pr & Pb).
  split; [| split].
  - rewrite Ha. apply Forall_app. split; [done |].
    eapply Forall_impl; [exact Fa |]. cbn. by intros a [-> _].
  - rewrite Hr. apply Forall_app. split; [done |].
    eapply Forall_impl; [exact Fr |]. cbn. by intros a ->.
  - intros k item Hi. destruct (Hb k) as (nb & Hk & Fb). rewrite Hk in Hi.
    apply elem_of_app in Hi as [Hi | Hi]; [by eapply Pb |].
    rewrite Forall_forall in Fb. by rewrite (Fb _ Hi).
Qed.

Lemma purge_pages_in V url st : pages_in V st → pages_in V (purge_page url st).
Proof.
  intros (Pa & Pr & Pb). split; [| split].
  - cbn. apply Forall_forall. intros a [_ Ha]%list_elem_of_filter.
    rewrite Forall_forall in Pa. auto.
  - cbn. apply Forall_forall. intros a [_ Ha]%list_elem_of_filter.
    rewrite Forall_forall in Pr. auto.
  - intros k item. rewrite bucket_purge. intros [_ Hi]%list_elem_of_filter.
    by eapply Pb.
Qed.

Section RecordsMore.

Context {py_lower : StrLower}.
Variable netloc_ok : string -> bool.
Variable SELENIUM_AVAILABLE : bool.
Variable session_head : string -> string + head_response.
Variable session_get : string -> string + get_response.
Variable soup_links : string -> list a_tag.
Variable urljoin : string -> string -> string + string.
Variable chrome_launch : analyzer -> launch.
Variable driver_page_source : string -> option string.

(** the records a returning extraction appends *)
Lemma extract_anchor_data_ids html page depth method st pa st' :
  extract_anchor_data netloc_ok session_head soup_links urljoin html page depth
    method st = (Ok pa, st') →
  anchor_tags st' = anchor_tags st ++ pa
  ∧ Forall (fun a => a_page_url a = page ∧ a_extraction_method a = method) pa
  ∧ map a_id pa = ids_after (len (anchor_tags st)) (length pa)
  ∧ Forall (fun a => a_page_depth a = depth) pa.
Proof.
  intros H. pose proof (extract_anchor_data_returns _ _ _ _ _ _ _ _ _ _ _ H) as [Ht Hf].
  split; [done |]. split; [done |].
  unfold extract_anchor_data, bind, modify, ret in H.
  destruct (extract_loop _ _ _ _ _ _ _ _ _ _) as [[pa1|e] st1] eqn:Hl; [| done].
  injection H as <- <-.
  apply extract_loop_records in Hl as (new & -> & _ & Hids & Hrec & _).
  cbn [app] in *. split.
  - rewrite Hids. f_equal. unfold len. cbn [length]. lia.
  - eapply Forall_impl; [exact Hrec |]. by intros a (_ & ? & _).
Qed.

Lemma setup_driver_tags st :
  anchor_tags (snd (_setup_selenium_driver SELENIUM_AVAILABLE chrome_launch st))
  = anchor_tags st.
Proof.
  unfold _setup_selenium_driver.
  destruct (_ || _); [done |]. by destruct (chrome_launch st).
Qed.

(** the list the rendered extraction returns is the list it has appended *)
Lemma extract_selenium_ids url depth st sel st' :
  extract_anchor_data_selenium netloc_ok SELENIUM_AVAILABLE session_head
    soup_links urljoin chrome_launch driver_page_source url depth st = (sel, st') →
  anchor_tags st' = anchor_tags st ++ sel
  ∧ Forall (fun a => a_page_url a = url ∧ a_extraction_method a = "selenium") sel
  ∧ map a_id sel = ids_after (len (anchor_tags st)) (length sel)
  ∧ Forall (fun a => a_page_depth a = depth) sel.
Proof.
  unfold extract_anchor_data_selenium.
  pose proof (setup_driver_tags st) as H0.
  destruct (_setup_selenium_driver _ _ st) as [driver st1]. cbn [snd] in H0.
  destruct (negb driver).
  { intros [= <- <-]. by rewrite app_nil_r. }
  destruct (driver_page_source url) as [src|].
  2: { intros [= <- <-]. by rewrite app_nil_r. }
  destruct (extract_anchor_data _ _ _ _ _ _ _ _ _) as [[pa|e] st2] eqn:He.
  - intros [= <- <-]. apply extract_anchor_data_ids in He. by rewrite <- H0.
  - intros [= <- <-]. apply extract_anchor_data_raised in He.
    rewrite app_nil_r. split; [congruence | done].
Qed.

(** the records of the page in [anchor_tags] after [crawl_page]: those of
    one extraction, at the end, numbered on from the records before *)
Lemma crawl_page_tags url depth st :
  Forall (fun a => a_page_url a ≠ url) (anchor_tags st) →
  let r := crawl_page netloc_ok SELENIUM_AVAILABLE session_head session_get
             soup_links urljoin chrome_launch driver_page_source url depth st in
  ∃ pa method,
    anchor_tags (snd r) = anchor_tags st ++ pa
    ∧ Forall (fun a => a_page_url a = url ∧ a_extraction_method a = method) pa
    ∧ map a_id pa = ids_after (len (anchor_tags st)) (length pa)
    ∧ Forall (fun a => a_page_depth a = depth) pa
    ∧ (fst (fst r) = false → pa = [])
    ∧ (∀ n, snd (fst r) = RequestsFound n → n = len pa ∧ method = "requests")
    ∧ (∀ n, snd (fst r) = SeleniumFound n → n = len pa ∧ method = "selenium").
Proof.
  intros Hfresh. cbn zeta. unfold crawl_page.
  destruct (session_get url) as [e | response].
  { exists [], "requests". by rewrite app_nil_r. }
  destruct (raise_for_status response) as [e0|].
  { exists [], "requests". by rewrite app_nil_r. }
  destruct (negb _).
  { exists [], "requests". by rewrite app_nil_r. }
  destruct (extract_anchor_data _ _ _ _ _ _ _ _ _) as [[pa|e] st1] eqn:He.
  2: { apply extract_anchor_data_raised in He. exists [], "requests".
       cbn [fst snd]. by rewrite app_nil_r. }
  apply extract_anchor_data_ids in He as (Ht & Hf & Hids & Hdep).
  destruct (should_use_selenium _ _ _ _ _) as [[] reason].
  - destruct (extract_anchor_data_selenium _ _ _ _ _ _ _ _ _ _) as [sel st2] eqn:Hs.
    apply extract_selenium_ids in Hs as (Ht2 & Hf2 & Hids2 & Hdep2).
    assert (anchor_tags (purge_page url st1) = anchor_tags st) as Hp.
    { cbn. rewrite Ht. rewrite filter_app_none.
      - by apply filter_all.
      - eapply Forall_impl; [exact Hf |]. cbn. intros a [-> _]. by intros H. }
    rewrite Hp in Ht2, Hids2.
    exists sel, "selenium". cbn [fst snd].
    split; [done |]. split; [done |]. split; [done |]. split; [done |].
    split; [done |]. split; [done |]. by intros n [= <-].
  - exists pa, "requests". cbn [fst snd].
    split; [done |]. split; [done |]. split; [done |]. split; [done |].
    split; [done |]. split; [| done]. by intros n [= <-].
Qed.

(** whatever [crawl_page] does is made of extractions of the page and
    of its purge *)
Lemma crawl_page_closed (P : analyzer → Prop) url depth st :
  (∀ method s s', P s → grows url depth method s s' → P s') →
  (∀ s, P s → P (purge_page url s)) →
  P st →
  P (snd (crawl_page netloc_ok SELENIUM_AVAILABLE session_head session_get
            soup_links urljoin chrome_launch driver_page_source url depth st)).
Proof.
  intros Hgrow Hpurge H0. unfold crawl_page.
  destruct (session_get url) as [e | response]; [done |].
  destruct (raise_for_status response) as [e0|]; [done |].
  destruct (negb _); [done |].
  pose proof (extract_anchor_data_grows netloc_ok session_head soup_links urljoin
                (get_text response) url depth "requests" st) as H1.
  destruct (extract_anchor_data _ _ _ _ _ _ _ _ _) as [[pa|e] st1];
    cbn [snd] in H1; [| by eapply Hgrow].
  destruct (should_use_selenium _ _ _ _ _) as [[] reason]; [| by eapply Hgrow].
  pose proof (extract_selenium_grows netloc_ok SELENIUM_AVAILABLE session_head
                soup_links urljoin chrome_launch driver_page_source
                url depth (purge_page url st1)) as H2.
  destruct (extract_anchor_data_selenium _ _ _ _ _ _ _ _ _ _) as [sel st3].
  cbn [snd] in *. eapply Hgrow; [| exact H2]. apply Hpurge. by eapply Hgrow.
Qed.

Lemma crawl_page_pages_in V url depth st :
  url ∈ V → pages_in V st →
  pages_in V
    (snd (crawl_page netloc_ok SELENIUM_AVAILABLE session_head session_get
            soup_links urljoin chrome_launch driver_page_source url depth st)).
Proof.
  intros HV. apply crawl_page_closed.
  - intros method s s' Hs Hg. by eapply grows_pages_in.
  - intros s. apply purge_pages_in.
Qed.

Lemma loop_turn_records st c st' c' :
  loop_turn netloc_ok SELENIUM_AVAILABLE session_head session_get soup_links
    urljoin chrome_launch driver_page_source st c = Some (st', c') →
  records_ok st → records_ok st'.
Proof.
  intros Hturn. apply loop_turn_cases in Hturn
    as (url & depth & rest & Hq & Hc
        & [(-> & -> & _) | (Hv & Hd & success & msg & Hcp & ->)]);
    [done |].
  intros ((Pa & Pr & Pb) & Hnum & Hone).
  set (s0 := set_visited_urls _ _) in Hcp.
  assert (Forall (fun a => a_page_url a ≠ url) (anchor_tags s0)) as Hfresh.
  { eapply Forall_impl; [exact Pa |]. cbn. intros a Ha Heq. by rewrite Heq in Ha. }
  pose proof (crawl_page_tags url depth s0 Hfresh)
    as (pa & method & Ht & Hf & Hids & _).
  pose proof (crawl_page_config netloc_ok SELENIUM_AVAILABLE session_head
                session_get soup_links urljoin chrome_launch driver_page_source
                url depth s0) as (_ & _ & Hvis & _).
  pose proof (crawl_page_pages_in ({[url]} ∪ visited_urls st) url depth s0) as Hin.
  rewrite Hcp in Ht, Hvis, Hin. cbn [snd] in Ht, Hvis, Hin.
  change (anchor_tags s0) with (anchor_tags st) in *.
  change (visited_urls s0) with ({[url]} ∪ visited_urls st) in Hvis.
  split; [| split].
  - rewrite Hvis. apply Hin; [set_solver |].
    apply (pages_in_mono (visited_urls st)); [set_solver |]. done.
  - unfold numbered in *. rewrite Ht, map_app, length_app, ids_after_app, Hnum, Hids.
    do 2 f_equal.
  - intros a b. rewrite Ht. rewrite !elem_of_app.
    rewrite Forall_forall in Hf. rewrite Forall_forall in Hfresh.
    intros [Ha | Ha] [Hb | Hb] Hab.
    + by apply Hone.
    + destruct (Hf _ Hb) as [Hb1 _]. destruct (Hfresh _ Ha). congruence.
    + destruct (Hf _ Ha) as [Ha1 _]. destruct (Hfresh _ Hb). congruence.
    + destruct (Hf _ Ha) as [_ ->]. by destruct (Hf _ Hb) as [_ ->].
Qed.

Lemma turns_records n st c :
  records_ok st →
  records_ok (fst (turns netloc_ok SELENIUM_AVAILABLE session_head session_get
                     soup_links urljoin chrome_launch driver_page_source n st c)).
Proof.
  revert st c. induction n as [|n IH]; intros st c H; [done |].
  cbn [turns].
  destruct (loop_turn _ _ _ _ _ _ _ _ st c) as [[st1 c1]|] eqn:H1; [| done].
  apply IH. by eapply loop_turn_records.
Qed.

End RecordsMore.

Lemma init_records netloc_ok url maxp maxd th st :
  init netloc_ok url maxp maxd th = Some st → records_ok st.
Proof.
  unfold init. intros H.
  repeat match type of H with
  | context [match ?o with Some _ => _ | None => _ end] => destruct o; [| done]
  | context [if ?b then _ else _] => destruct b; [| done]
  end.
  injection H as <-. split; [| split].
  - split; [constructor |]. split; [constructor |].
    intros k item. unfold bucket. cbn. rewrite lookup_empty. cbn.
    by intros ?%elem_of_nil.
  - done.
  - intros a b ?%elem_of_nil. done.
Qed.

(** X10. Called for a page that has no record in [anchor_tags] yet,
    [crawl_page] leaves the records that were there in place and puts the
    records of the page behind them: all of one extraction method, with
    identifiers that continue the numbering.  The number in its message
    is the number of these records, [RequestsFound] for records of the
    method [requests] and [SeleniumFound] for records of the method
    [selenium]; a call that reports failure leaves none. *)
Theorem crawl_page_reports_records {py_lower : StrLower}
    (netloc_ok : string -> bool) (SELENIUM_AVAILABLE : bool)
    (session_head : string -> string + head_response)
    (session_get : string -> string + get_response)
    (soup_links : string -> list a_tag)
    (urljoin : string -> string -> string + string)
    (chrome_launch : analyzer -> launch)
    (driver_page_source : string -> option string)
    (url : string) (depth : Z) (st : analyzer) :
  Forall (fun a => a_page_url a ≠ url) (anchor_tags st) →
  let r := crawl_page netloc_ok SELENIUM_AVAILABLE session_head session_get
             soup_links urljoin chrome_launch driver_page_source url depth st in
  ∃ pa method,
    anchor_tags (snd r) = anchor_tags st ++ pa
    ∧ Forall (fun a => a_page_url a = url ∧ a_extraction_method a = method) pa
    ∧ map a_id pa = ids_after (len (anchor_tags st)) (length pa)
    ∧ Forall (fun a => a_page_depth a = depth) pa
    ∧ (fst (fst r) = false → pa = [])
    ∧ (∀ n, snd (fst r) = RequestsFound n → n = len pa ∧ method = "requests")
    ∧ (∀ n, snd (fst r) = SeleniumFound n → n = len pa ∧ method = "selenium").
Proof.
  apply crawl_page_tags.
Qed.

Lemma crawl_page_reports_records_witness :
  let r := crawl_page (py_lower := Site.lower) UrlParse.brackets_balanced true Site.session_head
             Site.session_get Site.soup_links_rendered Site.urljoin (fun _ => Started)
             Site.driver_page_source "https://a.com" 0 (Site.seed 10 3 5) in
  ∃ pa method,
    anchor_tags (snd r) = anchor_tags (Site.seed 10 3 5) ++ pa
    ∧ Forall (fun a => a_page_url a = "https://a.com"
                       ∧ a_extraction_method a = method) pa
    ∧ map a_id pa = ids_after (len (anchor_tags (Site.seed 10 3 5))) (length pa)
    ∧ Forall (fun a => a_page_depth a = 0%Z) pa
    ∧ (fst (fst r) = false → pa = [])
    ∧ (∀ n, snd (fst r) = RequestsFound n → n = len pa ∧ method = "requests")
    ∧ (∀ n, snd (fst r) = SeleniumFound n → n = len pa ∧ method = "selenium").
Proof.
  exact (crawl_page_reports_records (py_lower := Site.lower) UrlParse.brackets_balanced true
           Site.session_head Site.session_get Site.soup_links_rendered
           Site.urljoin (fun _ => Started) Site.driver_page_source "https://a.com" 0
           (Site.seed 10 3 5) (List.Forall_nil _)).
Defined.

(* ===================================================================== *)
(** * The end of the loop *)
(* ===================================================================== *)

Lemma entry_weight_pos maxp maxd e : (0 < entry_weight maxp maxd e)%nat.
Proof.
  unfold entry_weight.
  pose proof (Nat.pow_nonzero (S (Z.to_nat maxp)) (Z.to_nat (maxd - snd e + 1))).
  lia.
Qed.

Lemma list_sum_cons (x : nat) (l : list nat) :
  list_sum (x :: l) = (x + list_sum l)%nat.
Proof. reflexivity. Qed.

Lemma weight_of_level maxp maxd d (new : list (string * Z)) :
  Forall (fun e => snd e = d) new →
  list_sum (map (entry_weight maxp maxd) new)
  = (length new * S (Z.to_nat maxp) ^ Z.to_nat (maxd - d + 1))%nat.
Proof.
  induction 1 as [|e new He _ IH]; [done |].
  cbn [map length]. rewrite list_sum_cons, IH. unfold entry_weight. rewrite He. lia.
Qed.

Section EndMore.

Context {py_lower : StrLower}.
Variable netloc_ok : string -> bool.
Variable SELENIUM_AVAILABLE : bool.
Variable session_head : string -> string + head_response.
Variable session_get : string -> string + get_response.
Variable soup_links : string -> list a_tag.
Variable urljoin : string -> string -> string + string.
Variable chrome_launch : analyzer -> launch.
Variable driver_page_source : string -> option string.
Variable driver_quit_ok : bool.

Lemma loop_turn_none st c :
  loop_turn netloc_ok SELENIUM_AVAILABLE session_head session_get soup_links
    urljoin chrome_launch driver_page_source st c = None
  ↔ urls_to_visit st = [] ∨ (max_pages st ≤ c)%Z.
Proof.
  unfold loop_turn.
  destruct (urls_to_visit st) as [|[url depth] rest]; [by split; [left |] |].
  destruct (c <? max_pages st)%Z eqn:Hc.
  - apply Z.ltb_lt in Hc.
    destruct (bool_decide _ || _).
    + split; [done | intros [? | ?]; [done | lia]].
    + destruct (crawl_page _ _ _ _ _ _ _ _ _ _ _) as [[success msg] s1].
      split; [done | intros [? | ?]; [done | lia]].
  - apply Z.ltb_ge in Hc. split; [by right | done].
Qed.

(** every turn of the loop uses up some of the fuel *)
Lemma loop_turn_fuel st c st' c' :
  loop_turn netloc_ok SELENIUM_AVAILABLE session_head session_get soup_links
    urljoin chrome_launch driver_page_source st c = Some (st', c') →
  (crawl_fuel st' < crawl_fuel st)%nat.
Proof.
  intros Hturn. apply loop_turn_cases in Hturn
    as (url & depth & rest & Hq & Hc
        & [(-> & -> & _) | (Hv & Hd & success & msg & Hcp & ->)]).
  - unfold crawl_fuel. rewrite Hq.
    cbn [urls_to_visit set_urls_to_visit max_pages max_depth map].
    rewrite list_sum_cons.
    pose proof (entry_weight_pos (max_pages st) (max_depth st) (url, depth)). lia.
  - set (s0 := set_visited_urls _ _) in Hcp.
    pose proof (crawl_page_evolves netloc_ok SELENIUM_AVAILABLE session_head
                  session_get soup_links urljoin chrome_launch driver_page_source
                  url depth s0) as (C & (new & Hn & Fn & Ln) & _).
    rewrite Hcp in C, Hn, Ln. cbn [snd] in C, Hn, Ln.
    destruct C as (_ & _ & _ & Hp & Hm & _).
    change (max_pages s0) with (max_pages st) in *.
    change (max_depth s0) with (max_depth st) in *.
    change (urls_to_visit s0) with rest in *.
    unfold crawl_fuel. rewrite Hp, Hm, Hn, Hq, map_app, list_sum_app.
    cbn [map]. rewrite list_sum_cons.
    assert (list_sum (map (entry_weight (max_pages st) (max_depth st)) new)
            < entry_weight (max_pages st) (max_depth st) (url, depth))%nat; [| lia].
    destruct new as [|e new'].
    { apply entry_weight_pos. }
    assert (depth < max_depth st)%Z as Hlt by (by inversion Fn as [|? ? [_ ?] ?]).
    rewrite (weight_of_level _ _ (depth + 1)%Z).
    2: { eapply Forall_impl; [exact Fn |]. cbn. by intros ? [? _]. }
    assert (length (e :: new') ≤ Z.to_nat (max_pages st))%nat as Hlen.
    { rewrite Hn in Ln. unfold len in Ln. rewrite length_app in Ln.
      cbn [length] in *. lia. }
    unfold entry_weight. cbn [snd].
    replace (Z.to_nat (max_depth st - depth + 1))
      with (S (Z.to_nat (max_depth st - (depth + 1) + 1))) by lia.
    rewrite Nat.pow_succ_r'.
    set (w := (S (Z.to_nat (max_pages st)) ^ _)%nat).
    assert (0 < w)%nat by (subst w; pose proof (Nat.pow_nonzero
      (S (Z.to_nat (max_pages st))) (Z.to_nat (max_depth st - (depth + 1) + 1))); lia).
    nia.
Qed.

(** with the fuel of the state, or more, the loop ends *)
Lemma crawl_loop_ends fuel st c :
  (crawl_fuel st ≤ fuel)%nat →
  ∃ r, crawl_loop netloc_ok SELENIUM_AVAILABLE session_head session_get
         soup_links urljoin chrome_launch driver_page_source fuel st c = Some r.
Proof.
  revert st c. induction fuel as [|fuel IH]; intros st c Hf.
  - cbn [crawl_loop].
    destruct (loop_turn _ _ _ _ _ _ _ _ st c) as [[st1 c1]|] eqn:H1; [| by eexists].
    apply loop_turn_fuel in H1. lia.
  - cbn [crawl_loop].
    destruct (loop_turn _ _ _ _ _ _ _ _ st c) as [[st1 c1]|] eqn:H1; [| by eexists].
    apply loop_turn_fuel in H1. apply IH. lia.
Qed.

(** a loop that ends has made the turns of [turns], and its condition
    fails *)
Lemma crawl_loop_turns fuel st c r :
  crawl_loop netloc_ok SELENIUM_AVAILABLE session_head session_get
    soup_links urljoin chrome_launch driver_page_source fuel st c = Some r →
  r = turns netloc_ok SELENIUM_AVAILABLE session_head session_get
        soup_links urljoin chrome_launch driver_page_source fuel st c
  ∧ loop_turn netloc_ok SELENIUM_AVAILABLE session_head session_get soup_links
      urljoin chrome_launch driver_page_source (fst r) (snd r) = None.
Proof.
  revert st c. induction fuel as [|fuel IH]; intros st c.
  - cbn [crawl_loop turns].
    destruct (loop_turn _ _ _ _ _ _ _ _ st c) as [[st1 c1]|] eqn:H1; [done |].
    by intros [= <-].
  - cbn [crawl_loop turns].
    destruct (loop_turn _ _ _ _ _ _ _ _ st c) as [[st1 c1]|] eqn:H1; [apply IH |].
    by intros [= <-].
Qed.

(** once the condition of the loop fails, further turns change nothing *)
Lemma turns_stable n m st c :
  loop_turn netloc_ok SELENIUM_AVAILABLE session_head session_get soup_links
    urljoin chrome_launch driver_page_source
    (fst (turns netloc_ok SELENIUM_AVAILABLE session_head session_get
            soup_links urljoin chrome_launch driver_page_source n st c))
    (snd (turns netloc_ok SELENIUM_AVAILABLE session_head session_get
            soup_links urljoin chrome_launch driver_page_source n st c)) = None →
  (n ≤ m)%nat →
  turns netloc_ok SELENIUM_AVAILABLE session_head session_get
    soup_links urljoin chrome_launch driver_page_source m st c
  = turns netloc_ok SELENIUM_AVAILABLE session_head session_get
      soup_links urljoin chrome_launch driver_page_source n st c.
Proof.
  revert m st c. induction n as [|n IH]; intros m st c.
  - cbn [turns fst snd]. intros H _. destruct m; [done |]. cbn [turns]. by rewrite H.
  - cbn [turns].
    destruct (loop_turn _ _ _ _ _ _ _ _ st c) as [[st1 c1]|] eqn:H1.
    + intros H Hm. destruct m as [|m]; [lia |]. cbn [turns]. rewrite H1.
      apply IH; [done | lia].
    + intros _ _. destruct m; [done |]. cbn [turns]. by rewrite H1.
Qed.

End EndMore.

(** X12. The loop of [start_analysis] ends: from any state, [crawl_fuel]
    turns are enough, whatever the site answers, and more fuel gives the
    same result.  The method then returns with [crawl_complete] set; the
    loop has been left with an empty frontier or with [max_pages] pages
    crawled; the count of crawled pages is between 0 and [max_pages], and
    at most the number of URLs the run has visited; the driver is
    released when [quit] returns. *)
Theorem start_analysis_returns {py_lower : StrLower}
    (netloc_ok : string -> bool) (SELENIUM_AVAILABLE : bool)
    (session_head : string -> string + head_response)
    (session_get : string -> string + get_response)
    (soup_links : string -> list a_tag)
    (urljoin : string -> string -> string + string)
    (chrome_launch : analyzer -> launch)
    (driver_page_source : string -> option string)
    (driver_quit_ok : bool) (st : analyzer) (extra : nat) :
  ∃ s1 c st',
    crawl_loop netloc_ok SELENIUM_AVAILABLE session_head session_get soup_links
      urljoin chrome_launch driver_page_source (crawl_fuel st + extra) st 0
    = Some (s1, c)
    ∧ start_analysis netloc_ok SELENIUM_AVAILABLE session_head session_get
        soup_links urljoin chrome_launch driver_page_source driver_quit_ok
        (crawl_fuel st + extra) st = Some st'
    ∧ crawl_loop netloc_ok SELENIUM_AVAILABLE session_head session_get soup_links
        urljoin chrome_launch driver_page_source (crawl_fuel st) st 0
      = Some (s1, c)
    ∧ crawl_complete st' = true
    ∧ (urls_to_visit st' = [] ∨ (max_pages st ≤ c)%Z)
    ∧ (0 ≤ c ≤ Z.max 0 (max_pages st))%Z
    ∧ (c ≤ Z.of_nat (size (visited_urls st'))
           - Z.of_nat (size (visited_urls st)))%Z
    ∧ (driver_quit_ok = true → selenium_driver st' = false).
Proof.
  destruct (crawl_loop_ends netloc_ok SELENIUM_AVAILABLE session_head session_get
              soup_links urljoin chrome_launch driver_page_source
              (crawl_fuel st + extra) st 0) as [[s1 c] H1]; [lia |].
  destruct (crawl_loop_ends netloc_ok SELENIUM_AVAILABLE session_head session_get
              soup_links urljoin chrome_launch driver_page_source
              (crawl_fuel st) st 0) as [[s2 c2] H2]; [lia |].
  pose proof (crawl_loop_turns _ _ _ _ _ _ _ _ _ _ _ _ H1) as [E1 N1].
  pose proof (crawl_loop_turns _ _ _ _ _ _ _ _ _ _ _ _ H2) as [E2 N2].
  assert ((s2, c2) = (s1, c)) as E.
  { rewrite E1, E2. symmetry. apply turns_stable; [by rewrite <- E2 | lia]. }
  injection E as -> ->.
  pose proof (turns_accounting netloc_ok SELENIUM_AVAILABLE session_head
                session_get soup_links urljoin chrome_launch driver_page_source
                (crawl_fuel st) st 0) as A.
  cbn zeta in A. rewrite <- E2 in A. cbn [fst snd] in A.
  destruct A as (Hp & Hc & _ & Hs & _).
  apply loop_turn_none in N1. cbn [fst snd] in N1. rewrite Hp in N1.
  exists s1, c, (set_crawl_complete true (_cleanup_selenium driver_quit_ok s1)).
  split; [done |]. split; [unfold start_analysis; by rewrite H1 |].
  split; [done |]. split; [done |].
  assert (∀ s, urls_to_visit (_cleanup_selenium driver_quit_ok s) = urls_to_visit s
               ∧ visited_urls (_cleanup_selenium driver_quit_ok s) = visited_urls s)
    as Hclean.
  { intros s. unfold _cleanup_selenium.
    destruct (selenium_driver s); [| done]. by destruct driver_quit_ok. }
  destruct (Hclean s1) as [Hq Hv].
  cbn [urls_to_visit visited_urls set_crawl_complete]. rewrite Hq, Hv.
  split; [done |]. split; [lia |]. split; [lia |].
  intros ->. cbn [selenium_driver set_crawl_complete].
  unfold _cleanup_selenium. by destruct (selenium_driver s1) eqn:Hd.
Qed.

(** X13. In every state a run reaches from a fresh analyzer, after any
    number of turns of the loop and when [start_analysis] returns: the
    records of [anchor_tags] are numbered 1, 2, 3, ... in their order;
    every record of [anchor_tags], of [redirect_links] and of the
    aggregate names a page of [visited_urls]; and the records of one page
    in [anchor_tags] are all of one extraction method. *)
Theorem crawl_records_consistent {py_lower : StrLower}
    (netloc_ok : string -> bool) (SELENIUM_AVAILABLE : bool)
    (session_head : string -> string + head_response)
    (session_get : string -> string + get_response)
    (soup_links : string -> list a_tag)
    (urljoin : string -> string -> string + string)
    (chrome_launch : analyzer -> launch)
    (driver_page_source : string -> option string)
    (driver_quit_ok : bool)
    (url : string) (maxp maxd threshold : Z) (st0 st : analyzer) :
  init netloc_ok url maxp maxd threshold = Some st0 →
  (∃ n, st = fst (turns netloc_ok SELENIUM_AVAILABLE session_head session_get
                    soup_links urljoin chrome_launch driver_page_source n st0 0))
  ∨ (∃ fuel, start_analysis netloc_ok SELENIUM_AVAILABLE session_head
               session_get soup_links urljoin chrome_launch driver_page_source
               driver_quit_ok fuel st0 = Some st) →
  map a_id (anchor_tags st) = ids_after 0 (length (anchor_tags st))
  ∧ Forall (fun a => a_page_url a ∈ visited_urls st) (anchor_tags st)
  ∧ Forall (fun r => rl_page_containing_link r ∈ visited_urls st)
      (redirect_links st)
  ∧ (∀ k item, item ∈ bucket (anchor_text_analysis st) k →
               source_page item ∈ visited_urls st)
  ∧ (∀ a b, a ∈ anchor_tags st → b ∈ anchor_tags st →
            a_page_url a = a_page_url b →
            a_extraction_method a = a_extraction_method b).
Proof.
  intros Hinit Hreach. apply init_records in Hinit.
  assert (records_ok st) as ((Pa & Pr & Pb) & Hnum & Hone); [| done].
  destruct Hreach as [[n ->] | [fuel Hs]].
  - by apply turns_records.
  - unfold start_analysis in Hs.
    destruct (crawl_loop _ _ _ _ _ _ _ _ _ _ _) as [[s1 c]|] eqn:Hl; [| done].
    injection Hs as <-. apply crawl_loop_turns in Hl as [E _].
    assert (records_ok s1) as H1.
    { change s1 with (fst (s1, c)). rewrite E. by apply turns_records. }
    unfold _cleanup_selenium.
    destruct (selenium_driver s1); [| done]. by destruct driver_quit_ok.
Qed.

Lemma crawl_records_consistent_witness :
  init UrlParse.brackets_balanced "a.com" 10 3 5 = Some (Site.seed 10 3 5)
  ∧ let st := fst (Site.turns_plain 2 (Site.seed 10 3 5) 0) in
    map a_id (anchor_tags st) = ids_after 0 (length (anchor_tags st))
    ∧ Forall (fun a => a_page_url a ∈ visited_urls st) (anchor_tags st)
    ∧ Forall (fun r => rl_page_containing_link r ∈ visited_urls st)
        (redirect_links st)
    ∧ (∀ k item, item ∈ bucket (anchor_text_analysis st) k →
                 source_page item ∈ visited_urls st)
    ∧ (∀ a b, a ∈ anchor_tags st → b ∈ anchor_tags st →
              a_page_url a = a_page_url b →
              a_extraction_method a = a_extraction_method b).
Proof.
  assert (init UrlParse.brackets_balanced "a.com" 10 3 5
          = Some (Site.seed 10 3 5)) as H by (vm_compute; reflexivity).
  split; [exact H |].
  apply (crawl_records_consistent (py_lower := Site.lower) UrlParse.brackets_balanced false
           Site.session_head Site.session_get Site.soup_links Site.urljoin
           (fun _ => NotStarted) (fun _ => None) true "a.com" 10 3 5 (Site.seed 10 3 5)
           (fst (Site.turns_plain 2 (Site.seed 10 3 5) 0)) H).
  left. exists 2%nat. reflexivity.
Defined.

(* ===================================================================== *)
(** * The three collections as views of the anchor records *)
(* ===================================================================== *)

Lemma bucket_agg_append_eqb k item m t :
  bucket (agg_append k item m) t
  = if String.eqb k t then bucket m t ++ [item] else bucket m t.
Proof.
  unfold agg_append, bucket.
  destruct (String.eqb_spec k t) as [-> | Hne].
  - by rewrite lookup_insert_eq.
  - by rewrite lookup_insert_ne.
Qed.

Lemma omap_cons_Some {A B} (f : A → option B) a b l :
  f a = Some b → omap f (a :: l) = b :: omap f l.
Proof. intros H. cbn. by rewrite H. Qed.

Lemma omap_cons_None {A B} (f : A → option B) a l :
  f a = None → omap f (a :: l) = omap f l.
Proof. intros H. cbn. by rewrite H. Qed.

Lemma omap_filter_commute {A B} (f : A → option B) (P : A → Prop) (Q : B → Prop)
    `{∀ a, Decision (P a)} `{∀ b, Decision (Q b)} (l : list A) :
  (∀ a b, f a = Some b → (Q b ↔ P a)) →
  filter Q (omap f l) = omap f (filter P l).
Proof.
  intros Hf. induction l as [|a l IH]; [done |].
  rewrite (filter_cons P).
  destruct (f a) as [b|] eqn:Hb.
  - rewrite (omap_cons_Some f a b l Hb), filter_cons. specialize (Hf a b Hb).
    destruct (decide (Q b)), (decide (P a)); try tauto.
    by rewrite (omap_cons_Some f a b _ Hb), IH.
  - rewrite (omap_cons_None f a l Hb).
    destruct (decide (P a)); [| done]. by rewrite (omap_cons_None f a _ Hb).
Qed.

Lemma purge_views url st : views st → views (purge_page url st).
Proof.
  intros [Hr Hb]. split.
  - cbn. rewrite Hr. apply omap_filter_commute.
    intros a b. unfold redirect_of.
    destruct (a_redirect_info a) as [ri|]; [| done].
    destruct (is_redirect ri); [| done]. by intros [= <-].
  - intros t. rewrite bucket_purge, Hb.
    change (anchor_tags (purge_page url st))
      with (filter (fun a => a_page_url a ≠ url) (anchor_tags st)).
    apply omap_filter_commute.
    intros a b. unfold item_of. destruct (_ && _); [| done]. by intros [= <-].
Qed.

Lemma add_to_queue_records depth internal ri abs st :
  redirect_links (add_to_queue depth internal ri abs st) = redirect_links st
  ∧ anchor_text_analysis (add_to_queue depth internal ri abs st)
    = anchor_text_analysis st.
Proof.
  unfold add_to_queue. destruct (_ && _); [destruct (_ && _) |]; done.
Qed.

Lemma build_analysis_records {py_lower : StrLower}
    page txt link internal ri abs st :
  redirect_links (build_analysis page txt link internal ri abs st)
  = redirect_links st
  ∧ ∀ t, bucket (anchor_text_analysis
                   (build_analysis page txt link internal ri abs st)) t
         = bucket (anchor_text_analysis st) t
           ++ (if internal && String.eqb (final_of ri abs) t
               then [mkItem txt (_classify_anchor_text txt (Some link)) page
                       (match ri with
                        | Some ri => is_redirect ri
                        | None => false
                        end)]
               else []).
Proof.
  unfold build_analysis. destruct internal; cbn [andb].
  - split; [done |]. intros t.
    cbn [anchor_text_analysis set_anchor_text_analysis].
    rewrite bucket_agg_append_eqb. destruct (String.eqb _ t); [done |].
    by rewrite app_nil_r.
  - split; [done |]. intros t. by rewrite app_nil_r.
Qed.

Lemma store_redirect_records page txt depth link ri st :
  anchor_text_analysis (store_redirect page txt depth link ri st)
  = anchor_text_analysis st
  ∧ redirect_links (store_redirect page txt depth link ri st)
    = redirect_links st
      ++ match ri with
         | Some ri =>
             if is_redirect ri
             then [mkRedirectLink page txt (original_url ri) (final_url ri)
                     (redirect_count ri) (redirect_chain ri) (status_codes ri)
                     (tag_str link) depth]
             else []
         | None => []
         end.
Proof.
  unfold store_redirect. destruct ri as [ri|]; [destruct (is_redirect ri) |];
    cbn; by rewrite ?app_nil_r.
Qed.

Section ViewsMore.

Context {py_lower : StrLower}.
Variable netloc_ok : string -> bool.
Variable SELENIUM_AVAILABLE : bool.
Variable session_head : string -> string + head_response.
Variable session_get : string -> string + get_response.
Variable soup_links : string -> list a_tag.
Variable urljoin : string -> string -> string + string.
Variable chrome_launch : analyzer -> launch.
Variable driver_page_source : string -> option string.

(** what one turn of the loop over the links stores beside the record it
    makes *)
Lemma extract_link_views page depth method index link pa st pa' st' :
  extract_link netloc_ok session_head urljoin page depth method index link pa st
    = (Ok pa', st') →
  ∃ new,
    pa' = pa ++ new
    ∧ redirect_links st' = redirect_links st ++ omap redirect_of new
    ∧ ∀ t, bucket (anchor_text_analysis st') t
           = bucket (anchor_text_analysis st) t ++ omap (item_of t) new.
Proof.
  unfold extract_link.
  destruct (_ || _).
  { intros [= <- <-]. exists []. rewrite !app_nil_r. split; [done |].
    split; [done |]. intros t. by rewrite app_nil_r. }
  destruct (urljoin _ _) as [e|abs]; [done |].
  intros [= <- <-]. eexists [_]. split; [reflexivity |].
  set (internal := is_valid_internal_url netloc_ok st abs).
  set (ri := if internal then Some (check_redirect_chain session_head abs) else None).
  set (txt := _extract_anchor_text link).
  clearbody ri internal txt.
  destruct (add_to_queue_records depth internal ri abs
              (build_analysis page txt link internal ri abs
                 (store_redirect page txt depth link ri st))) as [Q1 Q2].
  destruct (build_analysis_records page txt link internal ri abs
              (store_redirect page txt depth link ri st)) as [B1 B2].
  destruct (store_redirect_records page txt depth link ri st) as [S1 S2].
  split.
  - rewrite Q1, B1, S2. f_equal.
    unfold redirect_of. cbn [omap a_redirect_info a_page_url a_anchor_text
      a_full_tag a_page_depth].
    destruct ri as [r|]; [destruct (is_redirect r) eqn:E |]; cbn; rewrite ?E;
      reflexivity.
  - intros t. rewrite Q2, B2, S1. f_equal.
    unfold item_of, target_of. cbn [omap a_redirect_info a_page_url a_anchor_text
      a_is_internal a_absolute_url a_anchor_text_type].
    destruct (internal && _) eqn:E; cbn; rewrite ?E; reflexivity.
Qed.

Lemma extract_loop_views page depth method links index pa st pa' st' :
  extract_loop netloc_ok session_head urljoin page depth method index links pa st
    = (Ok pa', st') →
  ∃ new,
    pa' = pa ++ new
    ∧ redirect_links st' = redirect_links st ++ omap redirect_of new
    ∧ ∀ t, bucket (anchor_text_analysis st') t
           = bucket (anchor_text_analysis st) t ++ omap (item_of t) new.
Proof.
  revert index pa st. induction links as [|link links IH]; intros index pa st.
  - intros [= <- <-]. exists []. rewrite !app_nil_r. split; [done |].
    split; [done |]. intros t. by rewrite app_nil_r.
  - cbn [extract_loop]. unfold bind.
    destruct (extract_link _ _ _ _ _ _ _ _ _ _) as [[pa1|e] st1] eqn:H1; [| done].
    apply extract_link_views in H1 as (new1 & -> & R1 & B1).
    intros (new2 & -> & R2 & B2)%IH.
    exists (new1 ++ new2). split; [by rewrite app_assoc |].
    split; [by rewrite R2, R1, omap_app, app_assoc |].
    intros t. by rewrite B2, B1, omap_app, app_assoc.
Qed.

Lemma extract_anchor_data_views html page depth method st pa st' :
  extract_anchor_data netloc_ok session_head soup_links urljoin html page depth
    method st = (Ok pa, st') →
  views st → views st'.
Proof.
  unfold extract_anchor_data, bind, modify, ret.
  destruct (extract_loop _ _ _ _ _ _ _ _ _ _) as [[pa1|e] st1] eqn:Hl; [| done].
  intros [= <- <-] [Hr Hb].
  pose proof (extract_loop_tags netloc_ok session_head urljoin
                page depth method (soup_links html) O [] st) as Ht.
  rewrite Hl in Ht. cbn [snd] in Ht.
  apply extract_loop_views in Hl as (new & -> & R & B). cbn [app] in *.
  split.
  - cbn. by rewrite Ht, omap_app, R, Hr.
  - intros t. cbn [anchor_text_analysis set_anchor_tags anchor_tags].
    by rewrite Ht, omap_app, B, Hb.
Qed.

(** the loop over the links raises only at a link it does not skip and
    [urljoin] raises for *)
Lemma extract_link_returns page depth method index link pa st :
  (usable_link link = true → ∃ abs, urljoin page (stripped_href link) = inr abs) →
  ∃ pa' st',
    extract_link netloc_ok session_head urljoin page depth method index link pa st
    = (Ok pa', st').
Proof.
  intros Hj.
  destruct (extract_link_cases netloc_ok session_head urljoin page depth method
              index link pa st)
    as [[_ ->] | [(Hu & e & He & _) | (_ & a & Ha & _)]].
  - by eexists _, _.
  - destruct (Hj Hu) as [abs Habs]. congruence.
  - destruct (extract_link _ _ _ _ _ _ _ _ _ _) as [o st1]. cbn [fst] in Ha.
    subst o. by eexists _, _.
Qed.

Lemma extract_loop_returns page depth method links index pa st :
  Forall (fun link =>
            usable_link link = true →
            ∃ abs, urljoin page (stripped_href link) = inr abs) links →
  ∃ pa' st',
    extract_loop netloc_ok session_head urljoin page depth method index links pa st
    = (Ok pa', st').
Proof.
  intros Hj. revert index pa st.
  induction Hj as [|link links Hl _ IH]; intros index pa st.
  - by eexists _, _.
  - cbn [extract_loop]. unfold bind.
    destruct (extract_link_returns page depth method index link pa st Hl)
      as (pa1 & st1 & ->).
    apply IH.
Qed.

Lemma extract_anchor_data_keeps_views html page depth method st :
  joins soup_links urljoin page html →
  views st →
  views (snd (extract_anchor_data netloc_ok session_head soup_links urljoin html
                page depth method st)).
Proof.
  intros Hj Hv.
  destruct (extract_anchor_data _ _ _ _ _ _ _ _ _) as [[pa|e] st1] eqn:He.
  - by eapply extract_anchor_data_views.
  - unfold extract_anchor_data, bind, modify, ret in He.
    destruct (extract_loop_returns page depth method (soup_links html) O [] st Hj)
      as (pa' & st' & Hl).
    by rewrite Hl in He.
Qed.

Lemma setup_driver_views st :
  views st → views (snd (_setup_selenium_driver SELENIUM_AVAILABLE chrome_launch st)).
Proof.
  unfold _setup_selenium_driver.
  destruct (_ || _); [done |]. by destruct (chrome_launch st).
Qed.

Lemma crawl_page_views url depth st :
  (∀ html, served session_get driver_page_source url html →
           joins soup_links urljoin url html) →
  views st →
  views (snd (crawl_page netloc_ok SELENIUM_AVAILABLE session_head session_get
                soup_links urljoin chrome_launch driver_page_source url depth st)).
Proof.
  intros Hj H0. unfold crawl_page.
  destruct (session_get url) as [e | response] eqn:Hget; [done |].
  destruct (raise_for_status response) as [e0|]; [done |].
  destruct (negb _); [done |].
  assert (joins soup_links urljoin url (get_text response)) as Hj1.
  { apply Hj. left. by exists response. }
  pose proof (extract_anchor_data_keeps_views (get_text response) url depth
                "requests" st Hj1 H0) as H1.
  destruct (extract_anchor_data _ _ _ _ _ _ _ _ _) as [[pa|e] st1];
    cbn [snd] in H1; [| done].
  destruct (should_use_selenium _ _ _ _ _) as [[] reason]; [| done].
  apply (purge_views url) in H1.
  unfold extract_anchor_data_selenium.
  pose proof (setup_driver_views _ H1) as H2.
  destruct (_setup_selenium_driver _ _ _) as [driver st2]. cbn [snd] in H2.
  destruct (negb driver); [done |].
  destruct (driver_page_source url) as [src|] eqn:Hsrc; [| done].
  assert (joins soup_links urljoin url src) as Hj2 by (apply Hj; by right).
  pose proof (extract_anchor_data_keeps_views src url depth "selenium" st2 Hj2 H2)
    as H3.
  by destruct (extract_anchor_data _ _ _ _ _ _ _ _ _) as [[sel|e] st3].
Qed.

Lemma loop_turn_views st c st' c' :
  loop_turn netloc_ok SELENIUM_AVAILABLE session_head session_get soup_links
    urljoin chrome_launch driver_page_source st c = Some (st', c') →
  (∀ url html, url ∈ visited_urls st' →
               served session_get driver_page_source url html →
               joins soup_links urljoin url html) →
  views st → views st'.
Proof.
  intros Hturn. apply loop_turn_cases in Hturn
    as (url & depth & rest & Hq & Hc
        & [(-> & -> & _) | (Hv & Hd & success & msg & Hcp & ->)]);
    [done |].
  intros Hj H.
  pose proof (crawl_page_config netloc_ok SELENIUM_AVAILABLE session_head
                session_get soup_links urljoin chrome_launch driver_page_source
                url depth
                (set_visited_urls ({[url]} ∪ visited_urls st)
                   (set_urls_to_visit rest st))) as (_ & _ & Hvis & _).
  rewrite Hcp in Hvis. cbn [snd visited_urls set_visited_urls] in Hvis.
  pose proof (crawl_page_views url depth
                (set_visited_urls ({[url]} ∪ visited_urls st)
                   (set_urls_to_visit rest st))) as H1.
  rewrite Hcp in H1. apply H1; [| done].
  intros html. apply Hj. rewrite Hvis. set_solver.
Qed.

Lemma turns_views n st c :
  (∀ url html,
     url ∈ visited_urls
             (fst (turns netloc_ok SELENIUM_AVAILABLE session_head session_get
                     soup_links urljoin chrome_launch driver_page_source n st c)) →
     served session_get driver_page_source url html →
     joins soup_links urljoin url html) →
  views st →
  views (fst (turns netloc_ok SELENIUM_AVAILABLE session_head session_get
                soup_links urljoin chrome_launch driver_page_source n st c)).
Proof.
  revert st c. induction n as [|n IH]; intros st c Hj H; [done |].
  cbn [turns] in *.
  destruct (loop_turn _ _ _ _ _ _ _ _ st c) as [[st1 c1]|] eqn:H1; [| done].
  apply IH; [done |]. eapply loop_turn_views; [exact H1 | | done].
  intros url html Hu. apply Hj.
  pose proof (turns_accounting netloc_ok SELENIUM_AVAILABLE session_head
                session_get soup_links urljoin chrome_launch driver_page_source
                n st1 c1) as (_ & _ & Hsub & _).
  by apply Hsub.
Qed.

End ViewsMore.

Lemma init_views netloc_ok url maxp maxd th st :
  init netloc_ok url maxp maxd th = Some st → views st.
Proof.
  unfold init. intros H.
  repeat match type of H with
  | context [match ?o with Some _ => _ | None => _ end] => destruct o; [| done]
  end.
  injection H as <-. split; [done |].
  intros t. unfold bucket. cbn. by rewrite lookup_empty.
Qed.

(** X14. In a state that a run reaches from a fresh analyzer, the three
    collections agree, provided [urljoin] has raised for no link the run
    has looked at: for none that the loop over the links does not skip,
    in the markup, served or rendered, of a page the state holds as
    visited.  Then [redirect_links] holds, in the order of [anchor_tags],
    one record for each anchor record whose redirect check found a
    redirect, with the page, text, markup and depth of that record and
    the URLs, count, chain and status codes of its check; and the list the
    aggregate keeps for a URL holds, in the same order, one entry for each
    internal anchor record whose final URL it is, with the text, text
    type, page and redirect flag of that record. *)
Theorem collections_agree {py_lower : StrLower}
    (netloc_ok : string -> bool) (SELENIUM_AVAILABLE : bool)
    (session_head : string -> string + head_response)
    (session_get : string -> string + get_response)
    (soup_links : string -> list a_tag)
    (urljoin : string -> string -> string + string)
    (chrome_launch : analyzer -> launch)
    (driver_page_source : string -> option string)
    (driver_quit_ok : bool)
    (url : string) (maxp maxd threshold : Z) (st0 st : analyzer) :
  init netloc_ok url maxp maxd threshold = Some st0 →
  (∃ n, st = fst (turns netloc_ok SELENIUM_AVAILABLE session_head session_get
                    soup_links urljoin chrome_launch driver_page_source n st0 0))
  ∨ (∃ fuel, start_analysis netloc_ok SELENIUM_AVAILABLE session_head
               session_get soup_links urljoin chrome_launch driver_page_source
               driver_quit_ok fuel st0 = Some st) →
  (∀ page html link,
     page ∈ visited_urls st →
     (∃ response, session_get page = inr response ∧ get_text response = html)
     ∨ driver_page_source page = Some html →
     link ∈ soup_links html →
     usable_link link = true →
     ∃ abs, urljoin page (stripped_href link) = inr abs) →
  redirect_links st = omap redirect_of (anchor_tags st)
  ∧ ∀ t, bucket (anchor_text_analysis st) t = omap (item_of t) (anchor_tags st).
Proof.
  intros Hinit Hreach Hjoin. apply init_views in Hinit.
  assert (∀ page html, page ∈ visited_urls st →
            served session_get driver_page_source page html →
            joins soup_links urljoin page html) as Hj.
  { intros page html Hp Hs. apply Forall_forall. intros link Hl Hu.
    by apply (Hjoin page html link). }
  clear Hjoin. change (views st).
  destruct Hreach as [[n ->] | [fuel Hs]].
  - by apply turns_views.
  - unfold start_analysis in Hs.
    destruct (crawl_loop _ _ _ _ _ _ _ _ _ _ _) as [[s1 c]|] eqn:Hl; [| done].
    injection Hs as <-. apply crawl_loop_turns in Hl as [E _].
    assert (visited_urls
              (set_crawl_complete true (_cleanup_selenium driver_quit_ok s1))
            = visited_urls s1) as Hvis.
    { unfold _cleanup_selenium.
      destruct (selenium_driver s1); [| done]. by destruct driver_quit_ok. }
    rewrite Hvis in Hj.
    assert (views s1) as H1.
    { revert Hj. change s1 with (fst (s1, c)). rewrite E. intros Hj.
      by apply turns_views. }
    unfold _cleanup_selenium.
    destruct (selenium_driver s1); [| done]. by destruct driver_quit_ok.
Qed.

Lemma collections_agree_witness :
  init UrlParse.brackets_balanced "a.com" 10 3 5 = Some (Site.seed 10 3 5)
  ∧ let st := fst (Site.turns_plain 2 (Site.seed 10 3 5) 0) in
    redirect_links st = omap redirect_of (anchor_tags st)
    ∧ ∀ t, bucket (anchor_text_analysis st) t = omap (item_of t) (anchor_tags st).
Proof.
  assert (init UrlParse.brackets_balanced "a.com" 10 3 5
          = Some (Site.seed 10 3 5)) as H by (vm_compute; reflexivity).
  split; [exact H |].
  apply (collections_agree (py_lower := Site.lower) UrlParse.brackets_balanced
           false Site.session_head Site.session_get Site.soup_links Site.urljoin
           (fun _ => NotStarted) (fun _ => None) true "a.com" 10 3 5
           (Site.seed 10 3 5) (fst (Site.turns_plain 2 (Site.seed 10 3 5) 0)) H).
  - left. exists 2%nat. reflexivity.
  - intros page html link _ _ _ _. eexists. reflexivity.
Defined.

(* ===================================================================== *)
(** * A page whose extraction raises *)
(* ===================================================================== *)

Section RaiseMore.

Context {py_lower : StrLower}.
Variable netloc_ok : string -> bool.
Variable SELENIUM_AVAILABLE : bool.
Variable session_head : string -> string + head_response.
Variable session_get : string -> string + get_response.
Variable soup_links : string -> list a_tag.
Variable urljoin : string -> string -> string + string.
Variable chrome_launch : analyzer -> launch.
Variable driver_page_source : string -> option string.

(** the loop over a list of links is the loop over its first part, then,
    unless that raised, the loop over the rest *)
Lemma extract_loop_app page depth method l1 l2 index pa st :
  extract_loop netloc_ok session_head urljoin page depth method index (l1 ++ l2)
    pa st
  = match extract_loop netloc_ok session_head urljoin page depth method index
            l1 pa st with
    | (Ok pa1, st1) =>
        extract_loop netloc_ok session_head urljoin page depth method
          (index + length l1) l2 pa1 st1
    | (Raised e, st1) => (Raised e, st1)
    end.
Proof.
  revert index pa st. induction l1 as [|link l1 IH]; intros index pa st.
  - cbn. by rewrite Nat.add_0_r.
  - cbn [app extract_loop length]. unfold bind.
    destruct (extract_link _ _ _ _ _ _ _ _ _ _) as [[pa1|e] st1]; [| done].
    rewrite IH. by rewrite Nat.add_succ_r.
Qed.

Lemma extract_loop_bad page depth method bad rest index pa st e :
  usable_link bad = true →
  urljoin page (stripped_href bad) = inl e →
  extract_loop netloc_ok session_head urljoin page depth method index
    (bad :: rest) pa st = (Raised e, st).
Proof.
  intros Hu Hj. cbn [extract_loop]. unfold bind, extract_link.
  fold (stripped_href bad). unfold usable_link in Hu.
  apply andb_true_iff in Hu as [H1 H2%negb_true_iff].
  rewrite H1, H2. cbn [negb orb]. by rewrite Hj.
Qed.

End RaiseMore.

(** X15. When [urljoin] raises for a link of a page, [crawl_page]
    reports failure with the text of that exception, and the state it
    leaves is the state the loop had reached at that link: [anchor_tags]
    has no record of the page, but [redirect_links] and the aggregate keep
    what was stored for the links before the failing one. *)
Theorem raised_page_keeps_partial_records {py_lower : StrLower}
    (netloc_ok : string -> bool) (SELENIUM_AVAILABLE : bool)
    (session_head : string -> string + head_response)
    (session_get : string -> string + get_response)
    (soup_links : string -> list a_tag)
    (urljoin : string -> string -> string + string)
    (chrome_launch : analyzer -> launch)
    (driver_page_source : string -> option string)
    (url : string) (depth : Z) (st st1 : analyzer)
    (response : get_response) (before after : list a_tag) (bad : a_tag)
    (pa : list anchor_data) (e : string) :
  session_get url = inr response →
  raise_for_status response = None →
  Py.contains (str_lower (default "" (get_content_type response))) "text/html"
    = true →
  soup_links (get_text response) = before ++ bad :: after →
  usable_link bad = true →
  urljoin url (stripped_href bad) = inl e →
  extract_loop netloc_ok session_head urljoin url depth "requests" 0 before []
    st = (Ok pa, st1) →
  crawl_page netloc_ok SELENIUM_AVAILABLE session_head session_get soup_links
    urljoin chrome_launch driver_page_source url depth st
  = ((false, CrawlError e), st1)
  ∧ anchor_tags st1 = anchor_tags st
  ∧ map record_stamp pa
    = map link_stamp (filter (fun il => usable_link (snd il) = true)
                        (enumerate_from 0 before))
  ∧ redirect_links st1 = redirect_links st ++ omap redirect_of pa
  ∧ ∀ t, bucket (anchor_text_analysis st1) t
         = bucket (anchor_text_analysis st) t ++ omap (item_of t) pa.
Proof.
  intros Hget Hstatus Hct Hlinks Hu Hj Hloop.
  split.
  - unfold crawl_page. rewrite Hget, Hstatus, Hct. cbn [negb].
    unfold extract_anchor_data, bind. rewrite Hlinks, extract_loop_app, Hloop.
    by rewrite (extract_loop_bad _ _ _ _ _ _ _ _ _ _ _ _ Hu Hj).
  - pose proof (extract_loop_tags netloc_ok session_head urljoin
                  url depth "requests" before O [] st) as Ht.
    rewrite Hloop in Ht. cbn [snd] in Ht. split; [done |].
    pose proof (extract_loop_records _ _ _ _ _ _ _ _ _ _ _ _ Hloop)
      as (new & E & Hstamp & _).
    pose proof (extract_loop_views _ _ _ _ _ _ _ _ _ _ _ _ Hloop)
      as (new' & E' & R & B).
    cbn [app] in E, E'. subst new new'. done.
Qed.

Lemma raised_page_keeps_partial_records_witness :
  ∃ pa st1,
    crawl_page (py_lower := Site.lower) UrlParse.brackets_balanced false
      Site.session_head Site.session_get BrokenSite.soup_links
      BrokenSite.urljoin (fun _ => NotStarted) (fun _ => None)
      "https://a.com" 0 (Site.seed 10 3 5)
    = ((false, CrawlError "Invalid IPv6 URL"), st1)
    ∧ anchor_tags st1 = anchor_tags (Site.seed 10 3 5)
    ∧ map record_stamp pa
      = map link_stamp (filter (fun il => usable_link (snd il) = true)
                          (enumerate_from 0 [Site.link "/old" "Old page"]))
    ∧ redirect_links st1
      = redirect_links (Site.seed 10 3 5) ++ omap redirect_of pa
    ∧ ∀ t, bucket (anchor_text_analysis st1) t
           = bucket (anchor_text_analysis (Site.seed 10 3 5)) t
             ++ omap (item_of t) pa.
Proof.
  eexists _, _.
  eapply (raised_page_keeps_partial_records (py_lower := Site.lower)
            UrlParse.brackets_balanced false
            Site.session_head Site.session_get BrokenSite.soup_links
            BrokenSite.urljoin (fun _ => NotStarted) (fun _ => None)
            "https://a.com" 0 (Site.seed 10 3 5) _
            (mkGet None (Some "text/html; charset=utf-8") "https://a.com")
            [Site.link "/old" "Old page"] [Site.link "/b" "B"]
            (Site.link "//[" "Broken")).
  - vm_compute. reflexivity.
  - vm_compute. reflexivity.
  - vm_compute. reflexivity.
  - vm_compute. reflexivity.
  - vm_compute. reflexivity.
  - vm_compute. reflexivity.
  - vm_compute. reflexivity.
Defined.

(* ===================================================================== *)
(** * The driver *)
(* ===================================================================== *)

Section DriverMore.

Context {py_lower : StrLower}.
Variable netloc_ok : string -> bool.
Variable SELENIUM_AVAILABLE : bool.
Variable session_head : string -> string + head_response.
Variable session_get : string -> string + get_response.
Variable soup_links : string -> list a_tag.
Variable urljoin : string -> string -> string + string.
Variable chrome_launch : analyzer -> launch.
Variable driver_page_source : string -> option string.

Lemma driver_step_eq st st' :
  selenium_driver st' = selenium_driver st →
  driver_step SELENIUM_AVAILABLE chrome_launch st st'.
Proof. intros H. unfold driver_step. rewrite H. auto. Qed.

Lemma driver_step_trans st1 st2 st3 :
  driver_step SELENIUM_AVAILABLE chrome_launch st1 st2 →
  driver_step SELENIUM_AVAILABLE chrome_launch st2 st3 →
  driver_step SELENIUM_AVAILABLE chrome_launch st1 st3.
Proof. unfold driver_step. intros [A1 B1] [A2 B2]. split; [auto |]. intros H.
  destruct (B2 H) as [H2 | H2]; auto. Qed.

Lemma setup_driver_step st :
  driver_step SELENIUM_AVAILABLE chrome_launch st
    (snd (_setup_selenium_driver SELENIUM_AVAILABLE chrome_launch st)).
Proof.
  unfold _setup_selenium_driver, driver_step.
  destruct SELENIUM_AVAILABLE, (selenium_driver st) eqn:Hd; cbn [negb orb snd];
    rewrite ?Hd; auto.
  destruct (chrome_launch st) eqn:Hl; cbn [snd selenium_driver set_selenium_driver];
    rewrite ?Hd; split; auto; intros _; right; split; [done | | done |];
    exists st; by rewrite Hl.
Qed.

Lemma crawl_page_driver url depth st :
  driver_step SELENIUM_AVAILABLE chrome_launch st
    (snd (crawl_page netloc_ok SELENIUM_AVAILABLE session_head session_get
            soup_links urljoin chrome_launch driver_page_source url depth st)).
Proof.
  unfold crawl_page.
  destruct (session_get url) as [e | response]; [by apply driver_step_eq |].
  destruct (raise_for_status response) as [e0|]; [by apply driver_step_eq |].
  destruct (negb _); [by apply driver_step_eq |].
  pose proof (extract_anchor_data_driver netloc_ok session_head soup_links urljoin
                (get_text response) url depth "requests" st) as H1.
  destruct (extract_anchor_data _ _ _ _ _ _ _ _ _) as [[pa|e] st1];
    cbn [snd] in H1; [| by apply driver_step_eq].
  destruct (should_use_selenium _ _ _ _ _) as [[] reason];
    [| by apply driver_step_eq].
  unfold extract_anchor_data_selenium.
  pose proof (setup_driver_step (purge_page url st1)) as H2.
  assert (driver_step SELENIUM_AVAILABLE chrome_launch st
            (snd (_setup_selenium_driver SELENIUM_AVAILABLE
                    chrome_launch (purge_page url st1)))) as H3.
  { eapply driver_step_trans; [| exact H2]. by apply driver_step_eq. }
  destruct (_setup_selenium_driver _ _ _) as [driver st2]. cbn [snd] in *.
  destruct (negb driver); [done |].
  destruct (driver_page_source url) as [src|]; [| done].
  pose proof (extract_anchor_data_driver netloc_ok session_head soup_links urljoin
                src url depth "selenium" st2) as H4.
  destruct (extract_anchor_data _ _ _ _ _ _ _ _ _) as [[sel|e] st3];
    cbn [snd] in *; (eapply driver_step_trans; [exact H3 |]);
    by apply driver_step_eq.
Qed.

Lemma turns_driver n st c :
  driver_step SELENIUM_AVAILABLE chrome_launch st
    (fst (turns netloc_ok SELENIUM_AVAILABLE session_head session_get
            soup_links urljoin chrome_launch driver_page_source n st c)).
Proof.
  revert st c. induction n as [|n IH]; intros st c; [by apply driver_step_eq |].
  cbn [turns].
  destruct (loop_turn _ _ _ _ _ _ _ _ st c) as [[st1 c1]|] eqn:H1;
    [| by apply driver_step_eq].
  eapply driver_step_trans; [| apply IH].
  apply loop_turn_cases in H1
    as (url & depth & rest & Hq & Hc
        & [(-> & -> & _) | (Hv & Hd & success & msg & Hcp & ->)]).
  - by apply driver_step_eq.
  - pose proof (crawl_page_driver url depth
                  (set_visited_urls ({[url]} ∪ visited_urls st)
                     (set_urls_to_visit rest st))) as H.
    by rewrite Hcp in H.
Qed.

End DriverMore.

(** X16. [_setup_selenium_driver] hands out the driver the analyzer
    holds, as it is, and a driver it returns is held afterwards.  When
    [webdriver.Chrome] returns and [set_page_load_timeout] raises, the
    call returns no driver although one is now held, and the next call
    hands that driver out.  Through any number of turns of the loop a
    driver that is held stays held, and a driver is held afterwards only
    if one was held before, or Selenium is installed and
    [webdriver.Chrome] has returned in some attempt. *)
Theorem driver_kept_through_crawl {py_lower : StrLower}
    (netloc_ok : string -> bool) (SELENIUM_AVAILABLE : bool)
    (session_head : string -> string + head_response)
    (session_get : string -> string + get_response)
    (soup_links : string -> list a_tag)
    (urljoin : string -> string -> string + string)
    (chrome_launch : analyzer -> launch)
    (driver_page_source : string -> option string)
    (n : nat) (st : analyzer) (c : Z) :
  let st' := fst (turns netloc_ok SELENIUM_AVAILABLE session_head session_get
                    soup_links urljoin chrome_launch driver_page_source n st c) in
  let setup := _setup_selenium_driver SELENIUM_AVAILABLE chrome_launch in
  (selenium_driver st = true → setup st = (true, st))
  ∧ (fst (setup st) = true → selenium_driver (snd (setup st)) = true)
  ∧ (SELENIUM_AVAILABLE = true → selenium_driver st = false →
     chrome_launch st = Unconfigured →
     fst (setup st) = false
     ∧ selenium_driver (snd (setup st)) = true
     ∧ setup (snd (setup st)) = (true, snd (setup st)))
  ∧ (selenium_driver st = true → selenium_driver st' = true)
  ∧ (selenium_driver st' = true →
     selenium_driver st = true
     ∨ (SELENIUM_AVAILABLE = true ∧ ∃ s, chrome_launch s ≠ NotStarted)).
Proof.
  cbn zeta.
  split; [| split; [| split]].
  - unfold _setup_selenium_driver. intros ->. by rewrite orb_true_r.
  - unfold _setup_selenium_driver.
    destruct (negb SELENIUM_AVAILABLE || selenium_driver st) eqn:E; [done |].
    by destruct (chrome_launch st).
  - intros -> Hd Hl. unfold _setup_selenium_driver.
    rewrite Hd, Hl. cbn [negb orb fst snd selenium_driver set_selenium_driver].
    done.
  - apply turns_driver.
Qed.

(* ===================================================================== *)
(** * The depth of the records *)
(* ===================================================================== *)

Section DepthMore.

Context {py_lower : StrLower}.
Variable netloc_ok : string -> bool.
Variable SELENIUM_AVAILABLE : bool.
Variable session_head : string -> string + head_response.
Variable session_get : string -> string + get_response.
Variable soup_links : string -> list a_tag.
Variable urljoin : string -> string -> string + string.
Variable chrome_launch : analyzer -> launch.
Variable driver_page_source : string -> option string.

Lemma loop_turn_depths st c st' c' :
  loop_turn netloc_ok SELENIUM_AVAILABLE session_head session_get soup_links
    urljoin chrome_launch driver_page_source st c = Some (st', c') →
  records_ok st → depths_ok st → depths_ok st'.
Proof.
  intros Hturn. apply loop_turn_cases in Hturn
    as (url & depth & rest & Hq & Hc
        & [(-> & -> & _) | (Hv & Hd & success & msg & Hcp & ->)]).
  { intros _ [Fq Fa]. rewrite Hq in Fq. apply Forall_cons in Fq as [_ Fq].
    by split. }
  intros ((Pa & _) & _) [Fq Fa]. rewrite Hq in Fq. apply Forall_cons in Fq as [H0 Fq].
  cbn [snd] in H0.
  set (s0 := set_visited_urls _ _) in Hcp.
  assert (Forall (fun a => a_page_url a ≠ url) (anchor_tags s0)) as Hfresh.
  { eapply Forall_impl; [exact Pa |]. cbn. intros a Ha Heq. by rewrite Heq in Ha. }
  pose proof (crawl_page_tags netloc_ok SELENIUM_AVAILABLE session_head session_get
                soup_links urljoin chrome_launch driver_page_source
                url depth s0 Hfresh) as (pa & method & Ht & _ & _ & Hdep & _).
  pose proof (crawl_page_evolves netloc_ok SELENIUM_AVAILABLE session_head
                session_get soup_links urljoin chrome_launch driver_page_source
                url depth s0) as (C & (new & Hn & Fn & _) & _).
  rewrite Hcp in Ht, C, Hn. cbn [snd] in Ht, C, Hn.
  destruct C as (_ & _ & _ & _ & Hm & _).
  change (max_depth s0) with (max_depth st) in *.
  change (urls_to_visit s0) with rest in *.
  change (anchor_tags s0) with (anchor_tags st) in *.
  split.
  - rewrite Hn. apply Forall_app. split; [done |].
    eapply Forall_impl; [exact Fn |]. cbn. intros e [-> _]. lia.
  - rewrite Ht, Hm. apply Forall_app. split; [done |].
    eapply Forall_impl; [exact Hdep |]. cbn. intros a ->. lia.
Qed.

Lemma turns_depths n st c :
  records_ok st → depths_ok st →
  depths_ok (fst (turns netloc_ok SELENIUM_AVAILABLE session_head session_get
                    soup_links urljoin chrome_launch driver_page_source n st c)).
Proof.
  revert st c. induction n as [|n IH]; intros st c Hr Hd; [done |].
  cbn [turns].
  destruct (loop_turn _ _ _ _ _ _ _ _ st c) as [[st1 c1]|] eqn:H1; [| done].
  apply IH.
  - by eapply loop_turn_records.
  - by eapply loop_turn_depths.
Qed.

End DepthMore.

Lemma init_depths netloc_ok url maxp maxd th st :
  init netloc_ok url maxp maxd th = Some st → depths_ok st ∧ max_depth st = maxd.
Proof.
  unfold init. intros H.
  repeat match type of H with
  | context [match ?o with Some _ => _ | None => _ end] => destruct o; [| done]
  end.
  injection H as <-. split; [| done]. split; [| constructor].
  by repeat constructor.
Qed.

(** X17. No record of [anchor_tags] comes from a page deeper than the
    [max_depth] the analyzer was made with, nor from a depth below 0, in
    any state a run reaches from a fresh analyzer; and no entry of the
    frontier has a depth below 0. *)
Theorem records_within_depth {py_lower : StrLower}
    (netloc_ok : string -> bool) (SELENIUM_AVAILABLE : bool)
    (session_head : string -> string + head_response)
    (session_get : string -> string + get_response)
    (soup_links : string -> list a_tag)
    (urljoin : string -> string -> string + string)
    (chrome_launch : analyzer -> launch)
    (driver_page_source : string -> option string)
    (url : string) (maxp maxd threshold : Z) (st0 : analyzer) (n : nat) :
  init netloc_ok url maxp maxd threshold = Some st0 →
  let st := fst (turns netloc_ok SELENIUM_AVAILABLE session_head session_get
                   soup_links urljoin chrome_launch driver_page_source n st0 0) in
  Forall (fun a => (0 ≤ a_page_depth a ≤ maxd)%Z) (anchor_tags st)
  ∧ Forall (fun e => (0 ≤ snd e)%Z) (urls_to_visit st).
Proof.
  intros Hinit. cbn zeta.
  pose proof (init_records _ _ _ _ _ _ Hinit) as Hr.
  apply init_depths in Hinit as [Hd Hm].
  pose proof (turns_depths netloc_ok SELENIUM_AVAILABLE session_head session_get
                soup_links urljoin chrome_launch driver_page_source n st0 0 Hr Hd)
    as [Fq Fa].
  pose proof (turns_keep netloc_ok SELENIUM_AVAILABLE session_head session_get
                soup_links urljoin chrome_launch driver_page_source n st0 0)
    as (_ & Hm' & _).
  cbn zeta in Hm'. rewrite Hm', Hm in Fa. done.
Qed.

Lemma records_within_depth_witness :
  init UrlParse.brackets_balanced "a.com" 10 3 5 = Some (Site.seed 10 3 5)
  ∧ let st := fst (Site.turns_plain 2 (Site.seed 10 3 5) 0) in
    Forall (fun a => (0 ≤ a_page_depth a ≤ 3)%Z) (anchor_tags st)
    ∧ Forall (fun e => (0 ≤ snd e)%Z) (urls_to_visit st).
Proof.
  assert (init UrlParse.brackets_balanced "a.com" 10 3 5
          = Some (Site.seed 10 3 5)) as H by (vm_compute; reflexivity).
  split; [exact H |].
  exact (records_within_depth (py_lower := Site.lower) UrlParse.brackets_balanced false
           Site.session_head Site.session_get Site.soup_links Site.urljoin
           (fun _ => NotStarted) (fun _ => None) "a.com" 10 3 5 (Site.seed 10 3 5) 2 H).
Defined.
